(** * Walking-tour planner: route planning and preference scoring

    A shallow embedding of [src/route_planner.py] and [src/poi_scorer.py].

    Modelling conventions.
    - Python floats are idealised as real numbers ([R]): arithmetic is exact,
      there is no NaN and no overflow.  [float('inf')] and [-float('inf')]
      only occur as the initial value of a running minimum / maximum that is
      updated together with the selected POI, so the pair
      [(nearest_poi, nearest_distance)] is an [option (poi * R)] whose [None]
      stands for [(None, inf)].
    - Arguments annotated [int] in the source ([duration_minutes],
      [visit_time_per_poi], [top_n]) are integers ([Z]) and are injected into
      the reals where Python mixes them with floats.
    - A POI is a dict.  The first embedding gives it a record type: the keys
      the code tests with [in] are optional fields, ['id'] and ['name'] are
      always there, and a coordinate that is present is a number.  This is
      the input the functions are documented for, and the properties of
      routes, scores and rankings are stated over it.  What Python does on
      other dicts (a missing ['id'], a [null] coordinate, a weights dict
      without a key) is the subject of module [Raw], which embeds the
      planners, [score_poi] and [save_route] a second time on untyped dicts;
      [plan_route_typed] and [plan_route_with_preferences_typed] tie the two:
      on well-formed dicts both embeddings give the same result.  A subscript
      on a missing key raises [KeyError], arithmetic on [None] raises
      [TypeError].
    - Exceptions are a constructor of the [result] type.  The [while True]
      loops take fuel; running out of it is the separate outcome [OutOfFuel],
      shown below never to happen. *)

From Stdlib Require Import Reals Lra Lia ZArith Ascii.
From stdpp Require Import gmap strings list fin_maps sorting.

Local Open Scope R_scope.

(** ** Python runtime model *)

Inductive exn : Type :=
  | KeyError (key : string)
  | TypeError
  | ImportError (msg : string).

Inductive result (A : Type) : Type :=
  | Ok (a : A)
  | Raise (e : exn)
  | OutOfFuel.

Arguments Ok {A} a.
Arguments Raise {A} e.
Arguments OutOfFuel {A}.

Definition bind {A B : Type} (m : result A) (k : A -> result B) : result B :=
  match m with
  | Ok a => k a
  | Raise e => Raise e
  | OutOfFuel => OutOfFuel
  end.

Notation "'let!' x ':=' m 'in' k" := (bind m (fun x => k))
  (at level 10, x name, m at level 100, k at level 200).

(** [d[key]] on a dict field that may be absent. *)
Definition getitem {A : Type} (key : string) (field : option A) : result A :=
  match field with
  | Some v => Ok v
  | None => Raise (KeyError key)
  end.

(** [key in d]. *)
Definition contains {A : Type} (field : option A) : bool :=
  match field with Some _ => true | None => false end.

(** Truth value of a list. *)
Definition truthy {A : Type} (l : list A) : bool :=
  match l with [] => false | _ :: _ => true end.

(** Comparisons of floats, as booleans. *)
Definition Rltb (x y : R) : bool := if Rlt_dec x y then true else false.
Definition Rgtb (x y : R) : bool := Rltb y x.
Definition Rleb (x y : R) : bool := if Rle_dec x y then true else false.

(** A [for] loop whose body may raise: the first exception ends the loop. *)
Fixpoint for_each {S A : Type} (body : S -> A -> result S) (acc : S)
    (l : list A) : result S :=
  match l with
  | [] => Ok acc
  | x :: l' => let! acc' := body acc x in for_each body acc' l'
  end.

(** [round(x, ndigits)]: nearest multiple of [10^-ndigits], ties to even. *)
Definition round_half_even (y : R) : Z :=
  let f := Int_part y in
  let d := y - IZR f in
  if Rlt_dec d (1 / 2) then f
  else if Rlt_dec (1 / 2) d then (f + 1)%Z
  else if Z.even f then f else (f + 1)%Z.

Definition py_round (x : R) (ndigits : nat) : R :=
  IZR (round_half_even (x * 10 ^ ndigits)) / 10 ^ ndigits.

(** [l[:n]] for an integer [n]: a negative [n] counts from the end. *)
Definition slice_to {A : Type} (l : list A) (n : Z) : list A :=
  if (0 <=? n)%Z then take (Z.to_nat n) l
  else take (Z.to_nat (Z.of_nat (length l) + n)) l.

(** [s.lower()], on ASCII letters. *)
Definition lower_ascii (c : ascii) : ascii :=
  let n := nat_of_ascii c in
  if ((65 <=? n) && (n <=? 90))%nat then ascii_of_nat (n + 32) else c.

Fixpoint lower (s : string) : string :=
  match s with
  | EmptyString => EmptyString
  | String c s' => String (lower_ascii c) (lower s')
  end.

(** ** Data model *)

Definition coord : Type := R * R.

Record geo_dict : Type := mk_geo {
  lat : option R;
  lng : option R
}.

Record poi : Type := mk_poi {
  id : string;
  name : string;
  geo : option geo_dict;
  vibe_tags : option (list string);
  facts : option (list string);
  visual_cues : option (list string);
  source_reliability : option R
}.

(** ** route_planner.py: geo distance utility *)

Definition WALKING_SPEED_KMH : R := 5.
Definition EARTH_RADIUS_KM : R := 6371.

(** [math.radians] *)
Definition radians (x : R) : R := x * (PI / 180).

Definition calculate_distance (coord1 coord2 : coord) : R :=
  let '(lat1, lng1) := coord1 in
  let '(lat2, lng2) := coord2 in
  let lat1_rad := radians lat1 in
  let lat2_rad := radians lat2 in
  let dlat := radians (lat2 - lat1) in
  let dlng := radians (lng2 - lng1) in
  let a := sin (dlat / 2) ^ 2 + cos lat1_rad * cos lat2_rad * sin (dlng / 2) ^ 2 in
  let c := 2 * asin (sqrt a) in
  EARTH_RADIUS_KM * c.

Definition estimate_walking_time (distance_km : R) : R :=
  let hours := distance_km / WALKING_SPEED_KMH in
  hours * 60.

(** ** poi_scorer.py *)

Record profile : Type := mk_profile {
  interests : list string;
  description : string
}.

Definition USER_PROFILES : gmap string profile :=
  list_to_map
    [ ("history_lover",
       mk_profile ["history"; "medieval"; "military"; "political"; "victorian"]
         "Loves historical sites, dates, and significant events");
      ("ghost_hunter",
       mk_profile ["haunted"; "mysterious"; "ruins"; "religious"; "dramatic"]
         "Fascinated by spooky stories, legends, and atmospheric locations");
      ("architecture_fan",
       mk_profile ["architecture"; "georgian"; "engineering"; "folly"; "medieval"]
         "Appreciates building design, construction, and architectural styles");
      ("nature_seeker",
       mk_profile ["nature"; "scenic"; "picturesque"; "peaceful"; "romantic"]
         "Enjoys natural beauty, viewpoints, and tranquil settings");
      ("culture_enthusiast",
       mk_profile ["culture"; "arts"; "educational"; "local"; "social"]
         "Interested in arts, museums, local culture, and community");
      ("casual_tourist",
       mk_profile ["history"; "architecture"; "scenic"; "culture"; "picturesque"]
         "Balanced mix of popular tourist attractions") ].

Record weights : Type := mk_weights {
  alpha : R;
  beta : R;
  delta : R
}.

Definition DEFAULT_WEIGHTS : weights :=
  mk_weights (6 / 10) (3 / 10) (1 / 10).

Definition tag_set (tags : list string) : gset string :=
  list_to_set (lower <$> tags).

Definition calculate_interest_match (p : poi) (user_interests : list string) : R :=
  match vibe_tags p with
  | None => 0
  | Some tags =>
    if negb (truthy tags) then 0
    else
      let poi_tags := tag_set tags in
      let user_tags := tag_set user_interests in
      if bool_decide (poi_tags = ∅) || bool_decide (user_tags = ∅) then 0
      else
        let intersection := size (poi_tags ∩ user_tags) in
        let union := size (poi_tags ∪ user_tags) in
        if (0 <? union)%nat then INR intersection / INR union else 0
  end.

Definition calculate_popularity_score (p : poi) : R :=
  let score := 5 / 10 in
  let score :=
    match facts p with
    | Some f => if truthy f then score + 3 / 10 else score
    | None => score
    end in
  let score :=
    match visual_cues p with
    | Some v => if truthy v then score + 1 / 10 else score
    | None => score
    end in
  let score :=
    match source_reliability p with
    | Some r => Rmax score r
    | None => score
    end in
  Rmin score 1.

Definition calculate_distance_penalty (distance_km : R) (max_distance : R) : R :=
  let normalized := Rmin (distance_km / max_distance) 1 in
  normalized.

Record components_dict : Type := mk_components {
  interest_match : R;
  popularity : R;
  distance_km : R;
  distance_penalty : R
}.

Record scored_poi : Type := mk_scored {
  scored_of : poi;
  score : R;
  components : components_dict
}.

Definition score_poi (p : poi) (user_interests : list string)
    (current_position : coord) (w : option weights) : result scored_poi :=
  let w := match w with None => DEFAULT_WEIGHTS | Some w => w end in
  let! g := getitem "geo" (geo p) in
  let! la := getitem "lat" (lat g) in
  let! ln := getitem "lng" (lng g) in
  let poi_coords := (la, ln) in
  let distance := calculate_distance current_position poi_coords in
  let interest_match := calculate_interest_match p user_interests in
  let popularity := calculate_popularity_score p in
  let distance_penalty := calculate_distance_penalty distance 2 in
  let score :=
    alpha w * interest_match + beta w * popularity - delta w * distance_penalty in
  Ok (mk_scored p score
        (mk_components interest_match popularity distance distance_penalty)).

(** The profile lookup that opens both [rank_pois] and
    [plan_route_with_preferences]: an unknown name reads the
    ['casual_tourist'] entry of the registry at hand. *)
Definition lookup_interests (registry : gmap string profile)
    (user_profile : string) : result (list string) :=
  match registry !! user_profile with
  | Some pr => Ok (interests pr)
  | None =>
    let! pr := getitem "casual_tourist" (registry !! "casual_tourist") in
    Ok (interests pr)
  end.

(** The guard of the scoring loop of [rank_pois]:
    ['geo' not in poi or 'lat' not in poi['geo']]. *)
Definition rank_skips (p : poi) : bool :=
  match geo p with
  | None => true
  | Some g => negb (contains (lat g))
  end.

Definition rank_step (interests : list string) (current_position : coord)
    (w : option weights) (scored_pois : list scored_poi) (p : poi)
    : result (list scored_poi) :=
  if rank_skips p then Ok scored_pois
  else
    let! scored := score_poi p interests current_position w in
    Ok (scored_pois ++ [scored]).

(** [list.sort(key=lambda x: x['score'], reverse=True)].  Python's sort is
    stable, also under [reverse=True]; it is modelled by the stable insertion
    sort: an element goes behind the entries of strictly greater score and in
    front of the later entries of equal or smaller score. *)
Fixpoint insert_desc (x : scored_poi) (l : list scored_poi) : list scored_poi :=
  match l with
  | [] => [x]
  | y :: l' => if Rltb (score x) (score y) then y :: insert_desc x l' else x :: l
  end.

Definition sort_by_score_desc (l : list scored_poi) : list scored_poi :=
  foldr insert_desc [] l.

Definition rank_pois (candidate_pois : list poi) (user_profile : string)
    (current_position : coord) (w : option weights) (top_n : option Z)
    : result (list scored_poi) :=
  let! interests := lookup_interests USER_PROFILES user_profile in
  let! scored_pois :=
    for_each (rank_step interests current_position w) [] candidate_pois in
  let scored_pois := sort_by_score_desc scored_pois in
  match top_n with
  | Some n => Ok (slice_to scored_pois n)
  | None => Ok scored_pois
  end.

(** ** route_planner.py: module globals

    [import poi_scorer] sits in a [try]; when it fails the three globals are
    [None], [{}] and [{}]. *)

Inductive scorer_import : Type := Imported | NotImported.

Definition scorer : Type :=
  poi -> list string -> coord -> option weights -> result scored_poi.

Definition score_poi_global (i : scorer_import) : option scorer :=
  match i with Imported => Some score_poi | NotImported => None end.

Definition USER_PROFILES_global (i : scorer_import) : gmap string profile :=
  match i with Imported => USER_PROFILES | NotImported => ∅ end.

(** [None] is the empty dict of the failed import. *)
Definition DEFAULT_WEIGHTS_global (i : scorer_import) : option weights :=
  match i with Imported => Some DEFAULT_WEIGHTS | NotImported => None end.

(** ** route_planner.py: the planners *)

Record route_stop : Type := mk_stop {
  stop_poi : poi;
  distance_from_previous_km : R;
  stop_walking_time_minutes : R
}.

Record plan_state : Type := mk_state {
  st_route : list route_stop;
  st_visited_ids : gset string;
  st_current_position : coord;
  st_time_used : R;
  st_total_distance : R
}.

Record route_result : Type := mk_result {
  route : list route_stop;
  total_distance_km : R;
  total_time_minutes : R;
  walking_time_minutes : R;
  visit_time_minutes : Z;
  pois_visited : nat;
  time_remaining : R;
  start_coords : coord;
  return_to_start : bool;
  return_distance_km : R
}.

(** ['geo' not in poi or 'lat' not in poi['geo'] or 'lng' not in poi['geo']] *)
Definition missing_coords (p : poi) : bool :=
  match geo p with
  | None => true
  | Some g => negb (contains (lat g)) || negb (contains (lng g))
  end.

(** [(poi['geo']['lat'], poi['geo']['lng'])] *)
Definition poi_position (p : poi) : result coord :=
  let! g := getitem "geo" (geo p) in
  let! la := getitem "lat" (lat g) in
  let! ln := getitem "lng" (lng g) in
  Ok (la, ln).

(** Body of the scan of [plan_route]; the accumulator is
    [(nearest_poi, nearest_distance)]. *)
Definition nearest_step (current_position : coord) (visited_ids : gset string)
    (acc : option (poi * R)) (p : poi) : result (option (poi * R)) :=
  if bool_decide (id p ∈ visited_ids) then Ok acc
  else if missing_coords p then Ok acc
  else
    let! poi_coords := poi_position p in
    let distance := calculate_distance current_position poi_coords in
    let closer :=
      match acc with
      | None => true
      | Some (_, nearest_distance) => Rltb distance nearest_distance
      end in
    if closer then Ok (Some (p, distance)) else Ok acc.

Definition find_nearest (current_position : coord) (visited_ids : gset string)
    (candidate_pois : list poi) : result (option (poi * R)) :=
  for_each (nearest_step current_position visited_ids) None candidate_pois.

Definition initial_state (start_coords : coord) : plan_state :=
  mk_state [] ∅ start_coords 0 0.

(** Lines 158-168: the stop is appended and the state advanced. *)
Definition commit_stop (st : plan_state) (p : poi) (distance walking_time
    total_time_needed : R) : result plan_state :=
  let! pos := poi_position p in
  Ok (mk_state
        (st_route st ++ [mk_stop p distance walking_time])
        ({[ id p ]} ∪ st_visited_ids st)
        pos
        (st_time_used st + total_time_needed)
        (st_total_distance st + distance)).

(** The [while True] loop of [plan_route]. *)
Fixpoint route_loop (fuel : nat) (candidate_pois : list poi)
    (duration_minutes visit_time_per_poi : Z) (st : plan_state)
    : result plan_state :=
  match fuel with
  | O => OutOfFuel
  | S fuel' =>
    let! nearest :=
      find_nearest (st_current_position st) (st_visited_ids st) candidate_pois in
    match nearest with
    | None => Ok st
    | Some (nearest_poi, nearest_distance) =>
      let walking_time := estimate_walking_time nearest_distance in
      let total_time_needed := walking_time + IZR visit_time_per_poi in
      if Rgtb (st_time_used st + total_time_needed) (IZR duration_minutes)
      then Ok st
      else
        let! st' :=
          commit_stop st nearest_poi nearest_distance walking_time
            total_time_needed in
        route_loop fuel' candidate_pois duration_minutes visit_time_per_poi st'
    end
  end.

Definition sum_walking (r : list route_stop) : R :=
  foldr (fun stop acc => stop_walking_time_minutes stop + acc) 0 r.

(** Lines 170-196 (and 292-316): the return leg and the result dict. *)
Definition close_route (start_coords : coord) (duration_minutes
    visit_time_per_poi : Z) (return_to_start : bool) (st : plan_state)
    : route_result :=
  let return_distance := 0 in
  let return_time := 0 in
  let '(return_distance, return_time, total_distance, time_used) :=
    if return_to_start && (0 <? length (st_route st))%nat then
      let return_distance :=
        calculate_distance (st_current_position st) start_coords in
      let return_time := estimate_walking_time return_distance in
      if Rleb (st_time_used st + return_time) (IZR duration_minutes)
      then (return_distance, return_time,
            st_total_distance st + return_distance,
            st_time_used st + return_time)
      else (return_distance, return_time, st_total_distance st, st_time_used st)
    else (return_distance, return_time, st_total_distance st, st_time_used st) in
  let walking_time := sum_walking (st_route st) + return_time in
  let visit_time := (Z.of_nat (length (st_route st)) * visit_time_per_poi)%Z in
  mk_result
    (st_route st)
    (py_round total_distance 2)
    (py_round time_used 1)
    (py_round walking_time 1)
    visit_time
    (length (st_route st))
    (IZR duration_minutes - time_used)
    start_coords
    return_to_start
    (if return_to_start then py_round return_distance 2 else 0).

Definition plan_route (start_coords : coord) (candidate_pois : list poi)
    (duration_minutes visit_time_per_poi : Z) (return_to_start : bool)
    : result route_result :=
  let! st :=
    route_loop (S (length candidate_pois)) candidate_pois duration_minutes
      visit_time_per_poi (initial_state start_coords) in
  Ok (close_route start_coords duration_minutes visit_time_per_poi
        return_to_start st).

(** Body of the scan of [plan_route_with_preferences]; the accumulator is
    [(best_poi, best_score, best_distance)], [None] standing for
    [(None, -inf, 0)]. *)
Definition best_step (score_poi_fn : scorer) (interests : list string)
    (w : option weights) (current_position : coord)
    (visited_ids : gset string) (acc : option (poi * R * R)) (p : poi)
    : result (option (poi * R * R)) :=
  if bool_decide (id p ∈ visited_ids) then Ok acc
  else if missing_coords p then Ok acc
  else
    let! scored := score_poi_fn p interests current_position w in
    let better :=
      match acc with
      | None => true
      | Some (_, best_score, _) => Rgtb (score scored) best_score
      end in
    if better
    then Ok (Some (p, score scored, distance_km (components scored)))
    else Ok acc.

Definition find_best (score_poi_fn : scorer) (interests : list string)
    (w : option weights) (current_position : coord)
    (visited_ids : gset string) (candidate_pois : list poi)
    : result (option (poi * R * R)) :=
  for_each (best_step score_poi_fn interests w current_position visited_ids)
    None candidate_pois.

(** The [while True] loop of [plan_route_with_preferences]; the second
    component of the state is [poi_scores]. *)
Fixpoint pref_loop (fuel : nat) (score_poi_fn : scorer)
    (interests : list string) (w : option weights) (candidate_pois : list poi)
    (duration_minutes visit_time_per_poi : Z) (st : plan_state)
    (poi_scores : list R) : result (plan_state * list R) :=
  match fuel with
  | O => OutOfFuel
  | S fuel' =>
    let! best :=
      find_best score_poi_fn interests w (st_current_position st)
        (st_visited_ids st) candidate_pois in
    match best with
    | None => Ok (st, poi_scores)
    | Some (best_poi, best_score, best_distance) =>
      let walking_time := estimate_walking_time best_distance in
      let total_time_needed := walking_time + IZR visit_time_per_poi in
      if Rgtb (st_time_used st + total_time_needed) (IZR duration_minutes)
      then Ok (st, poi_scores)
      else
        let! st' :=
          commit_stop st best_poi best_distance walking_time
            total_time_needed in
        pref_loop fuel' score_poi_fn interests w candidate_pois
          duration_minutes visit_time_per_poi st' (poi_scores ++ [best_score])
    end
  end.

Record pref_result : Type := mk_pref_result {
  base_result : route_result;
  user_profile_used : string;
  poi_scores_of : list R
}.

Definition plan_route_with_preferences (i : scorer_import)
    (start_coords : coord) (candidate_pois : list poi) (duration_minutes : Z)
    (user_profile : string) (visit_time_per_poi : Z) (return_to_start : bool)
    (scoring_weights : option weights) : result pref_result :=
  match score_poi_global i with
  | None =>
    Raise (ImportError "poi_scorer module required for preference-based routing")
  | Some score_poi_fn =>
    let! interests := lookup_interests (USER_PROFILES_global i) user_profile in
    let w :=
      match scoring_weights with
      | Some w => Some w
      | None => DEFAULT_WEIGHTS_global i
      end in
    let! final :=
      pref_loop (S (length candidate_pois)) score_poi_fn interests w
        candidate_pois duration_minutes visit_time_per_poi
        (initial_state start_coords) [] in
    Ok (mk_pref_result
          (close_route start_coords duration_minutes visit_time_per_poi
             return_to_start (fst final))
          user_profile (snd final))
  end.

(** * The planners on untyped dicts

    The records above give every POI an ['id'] and numbers as coordinates.
    Python checks neither: a POI is whatever dict the caller passes, and the
    collector of this repository ([data_collection.process_poi]) writes
    ['geo': {'lat': None, 'lng': None}] for ways and relations.  Module [Raw]
    embeds the planners and [score_poi] once more on dicts in which every
    key the code reads may be absent, a coordinate may be JSON [null], and
    the weights are a dict that may lack keys.  A value that is present has
    the type the docstrings give it otherwise: ['id'] and ['name'] are
    strings, ['geo'] is a dict, tags and facts are lists of strings, weights
    and ratings are numbers.  The lookups come in the order of the source, so
    that the first exception is the one Python raises. *)

Module Raw.

(** A JSON value where the code expects a number. *)
Inductive value : Type :=
  | Number (x : R)
  | Null.

Record geo_dict : Type := mk_geo {
  lat : option value;
  lng : option value
}.

Record poi : Type := mk_poi {
  id : option string;
  name : option string;
  geo : option geo_dict;
  vibe_tags : option (list string);
  facts : option (list string);
  visual_cues : option (list string);
  source_reliability : option R
}.

(** The weights dict: the three keys the scorer reads, and whether the dict
    has keys besides them. *)
Record weights : Type := mk_weights {
  alpha : option R;
  beta : option R;
  delta : option R;
  other_keys : bool
}.

Definition DEFAULT_WEIGHTS : weights :=
  mk_weights (Some (6 / 10)) (Some (3 / 10)) (Some (1 / 10)) false.

(** Truth value of a dict: it is not empty. *)
Definition dict_truthy (w : weights) : bool :=
  contains (alpha w) || contains (beta w) || contains (delta w)
  || other_keys w.

(** A coordinate pair as the code passes it around: a tuple of two values
    that nothing looks at before [calculate_distance]. *)
Definition position : Type := (value * value)%type.

Definition of_coord (c : coord) : position := (Number (fst c), Number (snd c)).

(** A value used as a float: [math.radians(None)] and [None - x] raise
    [TypeError]. *)
Definition number (v : value) : result R :=
  match v with
  | Number x => Ok x
  | Null => Raise TypeError
  end.

(** [calculate_distance] on two tuples: the haversine distance of the record
    model when all four values are numbers. *)
Definition calculate_distance (coord1 coord2 : position) : result R :=
  let '(lat1, lng1) := coord1 in
  let '(lat2, lng2) := coord2 in
  let! lat1 := number lat1 in
  let! lat2 := number lat2 in
  let! lng2 := number lng2 in
  let! lng1 := number lng1 in
  Ok (calculate_distance (lat1, lng1) (lat2, lng2)).

(** ** poi_scorer.py *)

Definition calculate_interest_match (p : poi) (user_interests : list string) : R :=
  match vibe_tags p with
  | None => 0
  | Some tags =>
    if negb (truthy tags) then 0
    else
      let poi_tags := tag_set tags in
      let user_tags := tag_set user_interests in
      if bool_decide (poi_tags = ∅) || bool_decide (user_tags = ∅) then 0
      else
        let intersection := size (poi_tags ∩ user_tags) in
        let union := size (poi_tags ∪ user_tags) in
        if (0 <? union)%nat then INR intersection / INR union else 0
  end.

Definition calculate_popularity_score (p : poi) : R :=
  let score := 5 / 10 in
  let score :=
    match facts p with
    | Some f => if truthy f then score + 3 / 10 else score
    | None => score
    end in
  let score :=
    match visual_cues p with
    | Some v => if truthy v then score + 1 / 10 else score
    | None => score
    end in
  let score :=
    match source_reliability p with
    | Some r => Rmax score r
    | None => score
    end in
  Rmin score 1.

Record scored_poi : Type := mk_scored {
  scored_of : poi;
  score : R;
  components : components_dict
}.

(** [(poi['geo']['lat'], poi['geo']['lng'])] *)
Definition poi_position (p : poi) : result position :=
  let! g := getitem "geo" (geo p) in
  let! la := getitem "lat" (lat g) in
  let! ln := getitem "lng" (lng g) in
  Ok (la, ln).

Definition score_poi (p : poi) (user_interests : list string)
    (current_position : position) (w : option weights) : result scored_poi :=
  let w := match w with None => DEFAULT_WEIGHTS | Some w => w end in
  let! poi_coords := poi_position p in
  let! distance := calculate_distance current_position poi_coords in
  let interest_match := calculate_interest_match p user_interests in
  let popularity := calculate_popularity_score p in
  let distance_penalty := calculate_distance_penalty distance 2 in
  let! a := getitem "alpha" (alpha w) in
  let! b := getitem "beta" (beta w) in
  let! d := getitem "delta" (delta w) in
  let score := a * interest_match + b * popularity - d * distance_penalty in
  Ok (mk_scored p score
        (mk_components interest_match popularity distance distance_penalty)).

(** ** route_planner.py: module globals *)

Definition scorer : Type :=
  poi -> list string -> position -> option weights -> result scored_poi.

Definition score_poi_global (i : scorer_import) : option scorer :=
  match i with Imported => Some score_poi | NotImported => None end.

(** The empty dict when the import failed. *)
Definition DEFAULT_WEIGHTS_global (i : scorer_import) : weights :=
  match i with
  | Imported => DEFAULT_WEIGHTS
  | NotImported => mk_weights None None None false
  end.

(** ** route_planner.py: the planners *)

Record route_stop : Type := mk_stop {
  stop_poi : poi;
  distance_from_previous_km : R;
  stop_walking_time_minutes : R
}.

Record plan_state : Type := mk_state {
  st_route : list route_stop;
  st_visited_ids : gset string;
  st_current_position : position;
  st_time_used : R;
  st_total_distance : R
}.

Record route_result : Type := mk_result {
  route : list route_stop;
  total_distance_km : R;
  total_time_minutes : R;
  walking_time_minutes : R;
  visit_time_minutes : Z;
  pois_visited : nat;
  time_remaining : R;
  start_coords : coord;
  return_to_start : bool;
  return_distance_km : R
}.

(** ['geo' not in poi or 'lat' not in poi['geo'] or 'lng' not in poi['geo']] *)
Definition missing_coords (p : poi) : bool :=
  match geo p with
  | None => true
  | Some g => negb (contains (lat g)) || negb (contains (lng g))
  end.

(** Body of the scan of [plan_route], lines 132-144: [poi['id']] is read
    before the guard on the coordinates. *)
Definition nearest_step (current_position : position)
    (visited_ids : gset string) (acc : option (poi * R)) (p : poi)
    : result (option (poi * R)) :=
  let! poi_id := getitem "id" (id p) in
  if bool_decide (poi_id ∈ visited_ids) then Ok acc
  else if missing_coords p then Ok acc
  else
    let! poi_coords := poi_position p in
    let! distance := calculate_distance current_position poi_coords in
    let closer :=
      match acc with
      | None => true
      | Some (_, nearest_distance) => Rltb distance nearest_distance
      end in
    if closer then Ok (Some (p, distance)) else Ok acc.

Definition find_nearest (current_position : position)
    (visited_ids : gset string) (candidate_pois : list poi)
    : result (option (poi * R)) :=
  for_each (nearest_step current_position visited_ids) None candidate_pois.

Definition initial_state (start_coords : coord) : plan_state :=
  mk_state [] ∅ (of_coord start_coords) 0 0.

(** Lines 158-168. *)
Definition commit_stop (st : plan_state) (p : poi) (distance walking_time
    total_time_needed : R) : result plan_state :=
  let! poi_id := getitem "id" (id p) in
  let! pos := poi_position p in
  Ok (mk_state
        (st_route st ++ [mk_stop p distance walking_time])
        ({[ poi_id ]} ∪ st_visited_ids st)
        pos
        (st_time_used st + total_time_needed)
        (st_total_distance st + distance)).

Fixpoint route_loop (fuel : nat) (candidate_pois : list poi)
    (duration_minutes visit_time_per_poi : Z) (st : plan_state)
    : result plan_state :=
  match fuel with
  | O => OutOfFuel
  | S fuel' =>
    let! nearest :=
      find_nearest (st_current_position st) (st_visited_ids st) candidate_pois in
    match nearest with
    | None => Ok st
    | Some (nearest_poi, nearest_distance) =>
      let walking_time := estimate_walking_time nearest_distance in
      let total_time_needed := walking_time + IZR visit_time_per_poi in
      if Rgtb (st_time_used st + total_time_needed) (IZR duration_minutes)
      then Ok st
      else
        let! st' :=
          commit_stop st nearest_poi nearest_distance walking_time
            total_time_needed in
        route_loop fuel' candidate_pois duration_minutes visit_time_per_poi st'
    end
  end.

Definition sum_walking (r : list route_stop) : R :=
  foldr (fun stop acc => stop_walking_time_minutes stop + acc) 0 r.

(** Lines 170-180 (and 292-301): the return leg, as
    [(return_distance, return_time, total_distance, time_used)]. *)
Definition return_leg (start_coords : coord) (duration_minutes : Z)
    (return_to_start : bool) (st : plan_state) : result (R * R * R * R) :=
  if return_to_start && (0 <? length (st_route st))%nat then
    let! return_distance :=
      calculate_distance (st_current_position st) (of_coord start_coords) in
    let return_time := estimate_walking_time return_distance in
    if Rleb (st_time_used st + return_time) (IZR duration_minutes)
    then Ok (return_distance, return_time,
             st_total_distance st + return_distance,
             st_time_used st + return_time)
    else Ok (return_distance, return_time, st_total_distance st,
             st_time_used st)
  else Ok (0, 0, st_total_distance st, st_time_used st).

(** Lines 170-196 (and 292-316). *)
Definition close_route (start_coords : coord) (duration_minutes
    visit_time_per_poi : Z) (return_to_start : bool) (st : plan_state)
    : result route_result :=
  let! leg := return_leg start_coords duration_minutes return_to_start st in
  let '(return_distance, return_time, total_distance, time_used) := leg in
  let walking_time := sum_walking (st_route st) + return_time in
  let visit_time := (Z.of_nat (length (st_route st)) * visit_time_per_poi)%Z in
  Ok (mk_result
        (st_route st)
        (py_round total_distance 2)
        (py_round time_used 1)
        (py_round walking_time 1)
        visit_time
        (length (st_route st))
        (IZR duration_minutes - time_used)
        start_coords
        return_to_start
        (if return_to_start then py_round return_distance 2 else 0)).

Definition plan_route (start_coords : coord) (candidate_pois : list poi)
    (duration_minutes visit_time_per_poi : Z) (return_to_start : bool)
    : result route_result :=
  let! st :=
    route_loop (S (length candidate_pois)) candidate_pois duration_minutes
      visit_time_per_poi (initial_state start_coords) in
  close_route start_coords duration_minutes visit_time_per_poi
    return_to_start st.

(** Body of the scan of [plan_route_with_preferences], lines 253-265. *)
Definition best_step (score_poi_fn : scorer) (interests : list string)
    (w : option weights) (current_position : position)
    (visited_ids : gset string) (acc : option (poi * R * R)) (p : poi)
    : result (option (poi * R * R)) :=
  let! poi_id := getitem "id" (id p) in
  if bool_decide (poi_id ∈ visited_ids) then Ok acc
  else if missing_coords p then Ok acc
  else
    let! scored := score_poi_fn p interests current_position w in
    let better :=
      match acc with
      | None => true
      | Some (_, best_score, _) => Rgtb (score scored) best_score
      end in
    if better
    then Ok (Some (p, score scored, distance_km (components scored)))
    else Ok acc.

Definition find_best (score_poi_fn : scorer) (interests : list string)
    (w : option weights) (current_position : position)
    (visited_ids : gset string) (candidate_pois : list poi)
    : result (option (poi * R * R)) :=
  for_each (best_step score_poi_fn interests w current_position visited_ids)
    None candidate_pois.

Fixpoint pref_loop (fuel : nat) (score_poi_fn : scorer)
    (interests : list string) (w : option weights) (candidate_pois : list poi)
    (duration_minutes visit_time_per_poi : Z) (st : plan_state)
    (poi_scores : list R) : result (plan_state * list R) :=
  match fuel with
  | O => OutOfFuel
  | S fuel' =>
    let! best :=
      find_best score_poi_fn interests w (st_current_position st)
        (st_visited_ids st) candidate_pois in
    match best with
    | None => Ok (st, poi_scores)
    | Some (best_poi, best_score, best_distance) =>
      let walking_time := estimate_walking_time best_distance in
      let total_time_needed := walking_time + IZR visit_time_per_poi in
      if Rgtb (st_time_used st + total_time_needed) (IZR duration_minutes)
      then Ok (st, poi_scores)
      else
        let! st' :=
          commit_stop st best_poi best_distance walking_time
            total_time_needed in
        pref_loop fuel' score_poi_fn interests w candidate_pois
          duration_minutes visit_time_per_poi st' (poi_scores ++ [best_score])
    end
  end.

Record pref_result : Type := mk_pref_result {
  base_result : route_result;
  user_profile_used : string;
  poi_scores_of : list R
}.

(** [weights = scoring_weights if scoring_weights else DEFAULT_WEIGHTS]: an
    empty dict is replaced like [None]. *)
Definition effective_weights (i : scorer_import)
    (scoring_weights : option weights) : weights :=
  match scoring_weights with
  | Some w => if dict_truthy w then w else DEFAULT_WEIGHTS_global i
  | None => DEFAULT_WEIGHTS_global i
  end.

Definition plan_route_with_preferences (i : scorer_import)
    (start_coords : coord) (candidate_pois : list poi) (duration_minutes : Z)
    (user_profile : string) (visit_time_per_poi : Z) (return_to_start : bool)
    (scoring_weights : option weights) : result pref_result :=
  match score_poi_global i with
  | None =>
    Raise (ImportError "poi_scorer module required for preference-based routing")
  | Some score_poi_fn =>
    let! interests := lookup_interests (USER_PROFILES_global i) user_profile in
    let w := effective_weights i scoring_weights in
    let! final :=
      pref_loop (S (length candidate_pois)) score_poi_fn interests (Some w)
        candidate_pois duration_minutes visit_time_per_poi
        (initial_state start_coords) [] in
    let! res :=
      close_route start_coords duration_minutes visit_time_per_poi
        return_to_start (fst final) in
    Ok (mk_pref_result res user_profile (snd final))
  end.

(** ** route_planner.py: save_route *)

(** One entry of [output['route']]. *)
Record saved_stop : Type := mk_saved_stop {
  poi_id : string;
  poi_name : string;
  coordinates : geo_dict;
  saved_distance_from_previous_km : R;
  saved_walking_time_minutes : R
}.

(** Body of the loop of [save_route], lines 399-405. *)
Definition save_stop (out : list saved_stop) (stop : route_stop)
    : result (list saved_stop) :=
  let! i := getitem "id" (id (stop_poi stop)) in
  let! n := getitem "name" (name (stop_poi stop)) in
  let! g := getitem "geo" (geo (stop_poi stop)) in
  Ok (out ++ [mk_saved_stop i n g (distance_from_previous_km stop)
                (stop_walking_time_minutes stop)]).

(** The dict that [save_route] hands to [json.dump]. *)
Record saved_route : Type := mk_saved_route {
  generated_at : string;
  saved_total_distance_km : R;
  saved_total_time_minutes : R;
  saved_walking_time_total : R;
  saved_visit_time_minutes : Z;
  saved_pois_visited : nat;
  saved_time_remaining : R;
  saved_start_coords : coord;
  saved_return_to_start : bool;
  saved_stops : list saved_stop
}.

(** [save_route], up to the write of the file: [now] is the value of
    [datetime.now().isoformat()], and the result is the dict that is
    dumped. *)
Definition save_route (now : string) (route_result : route_result)
    : result saved_route :=
  let! stops := for_each save_stop [] (route route_result) in
  Ok (mk_saved_route now
        (total_distance_km route_result)
        (total_time_minutes route_result)
        (walking_time_minutes route_result)
        (visit_time_minutes route_result)
        (pois_visited route_result)
        (time_remaining route_result)
        (start_coords route_result)
        (return_to_start route_result)
        stops).

End Raw.

(** ** From dicts to records *)

(** The record of a dict: a [null] coordinate counts as absent, and a missing
    ['id'] or ['name'] reads as the empty string.  On well-formed dicts
    nothing is lost. *)
Definition typed_value (v : Raw.value) : option R :=
  match v with Raw.Number x => Some x | Raw.Null => None end.

Definition typed_geo (g : Raw.geo_dict) : geo_dict :=
  mk_geo (Raw.lat g ≫= typed_value) (Raw.lng g ≫= typed_value).

Definition typed_of (p : Raw.poi) : poi :=
  mk_poi (default EmptyString (Raw.id p)) (default EmptyString (Raw.name p))
    (typed_geo <$> Raw.geo p) (Raw.vibe_tags p) (Raw.facts p)
    (Raw.visual_cues p) (Raw.source_reliability p).

Definition typed_stop (stop : Raw.route_stop) : route_stop :=
  mk_stop (typed_of (Raw.stop_poi stop)) (Raw.distance_from_previous_km stop)
    (Raw.stop_walking_time_minutes stop).

Definition typed_result (res : Raw.route_result) : route_result :=
  mk_result (typed_stop <$> Raw.route res) (Raw.total_distance_km res)
    (Raw.total_time_minutes res) (Raw.walking_time_minutes res)
    (Raw.visit_time_minutes res) (Raw.pois_visited res)
    (Raw.time_remaining res) (Raw.start_coords res)
    (Raw.return_to_start res) (Raw.return_distance_km res).



Definition is_number (v : Raw.value) : bool :=
  match v with Raw.Number _ => true | Raw.Null => false end.

(** A well-formed POI dict: it has an ['id'], and if its ['geo'] has both
    ['lat'] and ['lng'] these are numbers. *)
Definition well_formed (p : Raw.poi) : bool :=
  contains (Raw.id p) &&
  match Raw.geo p with
  | Some g =>
    match Raw.lat g, Raw.lng g with
    | Some la, Some ln => is_number la && is_number ln
    | _, _ => true
    end
  | None => true
  end.


(** A state of the planners on dicts and the state on records it stands
    for. *)
Definition state_of (rst : Raw.plan_state) (st : plan_state) : Prop :=
  st_route st = typed_stop <$> Raw.st_route rst /\
  st_visited_ids st = Raw.st_visited_ids rst /\
  Raw.st_current_position rst = Raw.of_coord (st_current_position st) /\
  st_time_used st = Raw.st_time_used rst /\
  st_total_distance st = Raw.st_total_distance rst.

(** A selected candidate of a scan on dicts is well-formed and has
    coordinates. *)
Definition selectable (p : Raw.poi) : Prop :=
  well_formed p = true /\ Raw.missing_coords p = false.

(** The accumulators of the scans, and a scored POI, as records. *)
Definition typed_nearest (acc : option (Raw.poi * R)) : option (poi * R) :=
  (fun '(q, d) => (typed_of q, d)) <$> acc.



(** ** Sample dicts *)


(** A way as [process_poi] writes it: both coordinates [null]. *)
Definition way : Raw.poi :=
  Raw.mk_poi (Some "osm_way_1") (Some "Unnamed Historic")
    (Some (Raw.mk_geo (Some Raw.Null) (Some Raw.Null)))
    None (Some []) (Some []) (Some 0.8).

Definition raw_castle : Raw.poi :=
  Raw.mk_poi (Some "richmond_001") (Some "Richmond Castle")
    (Some (Raw.mk_geo (Some (Raw.Number 54.4039)) (Some (Raw.Number (-1.7394)))))
    (Some ["history"; "architecture"; "military"; "medieval"; "dramatic"])
    (Some ["Norman castle built in 1071"]) (Some []) (Some 0.9).


Definition raw_far_poi : Raw.poi :=
  Raw.mk_poi (Some "antimeridian") (Some "Antimeridian marker")
    (Some (Raw.mk_geo (Some (Raw.Number 0)) (Some (Raw.Number 180))))
    None None None None.

(** * Specification vocabulary *)

Global Instance R_eq_dec : EqDecision R := Req_dec_T.

(** ** Popularity *)

(** ['facts' in poi and poi['facts']] *)
Definition facts_present (p : poi) : bool :=
  match facts p with Some f => truthy f | None => false end.

(** ['visual_cues' in poi and poi['visual_cues']] *)
Definition visual_cues_present (p : poi) : bool :=
  match visual_cues p with Some v => truthy v | None => false end.

(** The heuristic estimate in the words of the specification: base 0.5,
    plus 0.3 for facts, plus a further 0.1 for visual cues. *)
Definition heuristic_estimate (has_facts has_cues : bool) : R :=
  5 / 10 + (if has_facts then 3 / 10 else 0) + (if has_cues then 1 / 10 else 0).

(** The popularity in the words of the specification: the maximum of the
    heuristic estimate and the quality hint, when there is one, clamped to
    at most 1. *)
Definition popularity_spec (has_facts has_cues : bool) (hint : option R) : R :=
  let running := heuristic_estimate has_facts has_cues in
  Rmin (match hint with Some q => Rmax running q | None => running end) 1.

(** ** Selection *)

(** A candidate the scans look at: not yet visited, with both coordinates. *)
Definition eligible (visited_ids : gset string) (p : poi) : Prop :=
  (id p ∉ visited_ids) /\ missing_coords p = false.

Global Instance eligible_dec visited_ids p : Decision (eligible visited_ids p).
Proof. unfold eligible. apply _. Defined.

(** [p] at distance [d] is the first candidate of [l] at minimal distance
    among the eligible ones: strictly closer than every eligible candidate
    in front of it, at least as close as every one behind it. *)
Definition nearest_first (current_position : coord)
    (visited_ids : gset string) (l : list poi) (p : poi) (d : R) : Prop :=
  exists l1 l2 c,
    l = l1 ++ p :: l2 /\ eligible visited_ids p /\
    poi_position p = Ok c /\ d = calculate_distance current_position c /\
    (forall q cq, q ∈ l1 -> eligible visited_ids q ->
                  poi_position q = Ok cq ->
                  d < calculate_distance current_position cq) /\
    (forall q cq, q ∈ l2 -> eligible visited_ids q ->
                  poi_position q = Ok cq ->
                  d <= calculate_distance current_position cq).

(** Candidates that a scan can still select. *)
Definition remaining (visited_ids : gset string) (l : list poi) : nat :=
  length (filter (eligible visited_ids) l).

(** The state after lines 158-168 for stop [p] at distance [d], reached at
    coordinates [c]. *)
Definition advance (visit_time_per_poi : Z) (st : plan_state) (p : poi)
    (d : R) (c : coord) : plan_state :=
  mk_state
    (st_route st ++ [mk_stop p d (estimate_walking_time d)])
    ({[ id p ]} ∪ st_visited_ids st)
    c
    (st_time_used st + (estimate_walking_time d + IZR visit_time_per_poi))
    (st_total_distance st + d).

(** The time after walking [d] km from state [st] and visiting. *)
Definition time_after (visit_time_per_poi : Z) (st : plan_state) (d : R) : R :=
  st_time_used st + (estimate_walking_time d + IZR visit_time_per_poi).

(** The loop has nothing more to add in state [st]: no candidate is left,
    or the nearest one does not fit the budget. *)
Definition exhausted (candidate_pois : list poi)
    (duration_minutes visit_time_per_poi : Z) (st : plan_state) : Prop :=
  (forall q, q ∈ candidate_pois -> ~ eligible (st_visited_ids st) q) \/
  (exists p d,
     nearest_first (st_current_position st) (st_visited_ids st)
       candidate_pois p d /\
     time_after visit_time_per_poi st d > IZR duration_minutes).

(** States the greedy policy can reach: from the initial state, each step
    appends the first nearest eligible candidate, provided it fits. *)
Inductive greedy_reachable (start_coords : coord) (candidate_pois : list poi)
    (duration_minutes visit_time_per_poi : Z) : plan_state -> Prop :=
  | reach_initial :
      greedy_reachable start_coords candidate_pois duration_minutes
        visit_time_per_poi (initial_state start_coords)
  | reach_advance (st : plan_state) (p : poi) (d : R) (c : coord) :
      greedy_reachable start_coords candidate_pois duration_minutes
        visit_time_per_poi st ->
      nearest_first (st_current_position st) (st_visited_ids st)
        candidate_pois p d ->
      poi_position p = Ok c ->
      time_after visit_time_per_poi st d <= IZR duration_minutes ->
      greedy_reachable start_coords candidate_pois duration_minutes
        visit_time_per_poi (advance visit_time_per_poi st p d c).

(** The clock after the first [k] stops of a route: the walking times of
    those stops plus [k] visits. *)
Definition clock_after (visit_time_per_poi : Z) (r : list route_stop)
    (k : nat) : R :=
  sum_walking (take k r) + IZR (Z.of_nat k * visit_time_per_poi).

(** ** Return leg *)

(** What a result [res] reports about the return leg from the final state
    [st] of the selection loop. *)
Definition return_leg_report (start_coords : coord) (duration_minutes : Z)
    (st : plan_state) (res : route_result) : Prop :=
  let return_distance :=
    calculate_distance (st_current_position st) start_coords in
  let return_time := estimate_walking_time return_distance in
  return_distance_km res = py_round return_distance 2 /\
  walking_time_minutes res =
    py_round (sum_walking (st_route st) + return_time) 1 /\
  (st_time_used st + return_time <= IZR duration_minutes ->
   total_distance_km res = py_round (st_total_distance st + return_distance) 2 /\
   total_time_minutes res = py_round (st_time_used st + return_time) 1) /\
  (st_time_used st + return_time > IZR duration_minutes ->
   total_distance_km res = py_round (st_total_distance st) 2 /\
   total_time_minutes res = py_round (st_time_used st) 1).

(** ** Ranking *)

(** Descending order of scores. *)
Definition score_ge (a b : scored_poi) : Prop := score b <= score a.

(** The candidates [rank_pois] scores. *)
Definition ranked_candidates (candidate_pois : list poi) : list poi :=
  filter (fun p => rank_skips p = false) candidate_pois.

(** Every candidate whose ['geo'] has ['lat'] also has ['lng']. *)
Definition lng_where_lat (p : poi) : bool :=
  rank_skips p || negb (missing_coords p).

(** ** Profiles *)

(** The interests of the default balanced profile, ['casual_tourist'], as the
    registry lists them. *)
Definition balanced_interests : list string :=
  ["history"; "architecture"; "scenic"; "culture"; "picturesque"].

(** ** Sample data *)

(** A run on which the return leg does not fit: one candidate half a turn
    around the equator, a budget that covers the way out but not the way
    back. *)
Definition far_poi : poi :=
  mk_poi "antimeridian" "Antimeridian marker"
    (Some (mk_geo (Some 0) (Some 180))) None None None None.

Definition castle : poi :=
  mk_poi "richmond_001" "Richmond Castle"
    (Some (mk_geo (Some 54.4039) (Some (-1.7394))))
    (Some ["history"; "architecture"; "military"; "medieval"; "dramatic"])
    (Some ["Norman castle built in 1071"]) (Some []) (Some 0.9).

Definition tower : poi :=
  mk_poi "richmond_002" "Greyfriars Tower"
    (Some (mk_geo (Some 54.4028) (Some (-1.7350))))
    (Some ["history"; "ruins"; "religious"; "haunted"]) None None None.

Definition unlocated : poi :=
  mk_poi "richmond_003" "Lost Well" None None None None None.

(** * Further definitions *)

Definition market : poi :=
  mk_poi "richmond_004" "Market Place"
    (Some (mk_geo (Some 54.40) (Some (-1.73)))) None None None None.

Definition obelisk : poi :=
  mk_poi "richmond_005" "Obelisk"
    (Some (mk_geo (Some 54.41) (Some (-1.73)))) None None None None.


(** ** Vocabulary of the further properties *)

(** The ids of the POIs of a route, in order. *)
Definition stop_ids (r : list route_stop) : list string :=
  (fun stop => id (stop_poi stop)) <$> r.

(** Sum of the legs of a route. *)
Definition sum_distance (r : list route_stop) : R :=
  foldr (fun stop acc => distance_from_previous_km stop + acc) 0 r.

(** The legs of a route chain: each stop records the distance from the
    position before it (the start, or the previous stop) to its own
    coordinates, and the walking time of that distance. *)
Fixpoint legs_chain (previous : coord) (r : list route_stop) : Prop :=
  match r with
  | [] => True
  | stop :: r' =>
    exists c,
      poi_position (stop_poi stop) = Ok c /\
      distance_from_previous_km stop = calculate_distance previous c /\
      stop_walking_time_minutes stop =
        estimate_walking_time (distance_from_previous_km stop) /\
      legs_chain c r'
  end.

(** The position at the end of a route that starts at [previous]. *)
Fixpoint route_end (previous : coord) (r : list route_stop) : coord :=
  match r with
  | [] => previous
  | stop :: r' =>
    route_end
      (match poi_position (stop_poi stop) with Ok c => c | _ => previous end)
      r'
  end.

(** States reached by appending stops, whatever the selection policy: each
    step takes an eligible candidate and records the distance from the
    current position to it. *)
Inductive walk_reachable (start_coords : coord) (candidate_pois : list poi)
    (visit_time_per_poi : Z) : plan_state -> Prop :=
  | walk_initial :
      walk_reachable start_coords candidate_pois visit_time_per_poi
        (initial_state start_coords)
  | walk_advance (st : plan_state) (p : poi) (c : coord) :
      walk_reachable start_coords candidate_pois visit_time_per_poi st ->
      p ∈ candidate_pois ->
      eligible (st_visited_ids st) p ->
      poi_position p = Ok c ->
      walk_reachable start_coords candidate_pois visit_time_per_poi
        (advance visit_time_per_poi st p
           (calculate_distance (st_current_position st) c) c).

(** [p] with score [s], at distance [d], is the first candidate of [l] of
    maximal score among the eligible ones: strictly better than every
    eligible candidate in front of it, at least as good as every one behind
    it. *)
Definition best_first (ints : list string) (w : option weights)
    (current_position : coord) (visited_ids : gset string) (l : list poi)
    (p : poi) (s d : R) : Prop :=
  exists l1 l2 sc,
    l = l1 ++ p :: l2 /\ eligible visited_ids p /\
    score_poi p ints current_position w = Ok sc /\
    s = score sc /\ d = distance_km (components sc) /\
    (forall q sq, q ∈ l1 -> eligible visited_ids q ->
                  score_poi q ints current_position w = Ok sq ->
                  score sq < s) /\
    (forall q sq, q ∈ l2 -> eligible visited_ids q ->
                  score_poi q ints current_position w = Ok sq ->
                  score sq <= s).

(** The preference loop has nothing more to add in state [st]. *)
Definition pref_exhausted (ints : list string) (w : option weights)
    (candidate_pois : list poi) (duration_minutes visit_time_per_poi : Z)
    (st : plan_state) : Prop :=
  (forall q, q ∈ candidate_pois -> ~ eligible (st_visited_ids st) q) \/
  (exists p s d,
     best_first ints w (st_current_position st) (st_visited_ids st)
       candidate_pois p s d /\
     time_after visit_time_per_poi st d > IZR duration_minutes).

(** States and score lists the preference policy can reach. *)
Inductive pref_reachable (ints : list string) (w : option weights)
    (start_coords : coord) (candidate_pois : list poi)
    (duration_minutes visit_time_per_poi : Z)
    : plan_state -> list R -> Prop :=
  | pref_initial :
      pref_reachable ints w start_coords candidate_pois duration_minutes
        visit_time_per_poi (initial_state start_coords) []
  | pref_advance (st : plan_state) (scores : list R) (p : poi) (s d : R)
      (c : coord) :
      pref_reachable ints w start_coords candidate_pois duration_minutes
        visit_time_per_poi st scores ->
      best_first ints w (st_current_position st) (st_visited_ids st)
        candidate_pois p s d ->
      poi_position p = Ok c ->
      time_after visit_time_per_poi st d <= IZR duration_minutes ->
      pref_reachable ints w start_coords candidate_pois duration_minutes
        visit_time_per_poi (advance visit_time_per_poi st p d c)
        (scores ++ [s]).

(** The books of a result without return leg balance: the legs chain from
    the start, the totals are the rounded sums over the stops, and what
    remains is the budget minus walking and visiting. *)
Definition route_accounts (start_coords : coord)
    (duration_minutes visit_time_per_poi : Z) (res : route_result) : Prop :=
  legs_chain start_coords (route res) /\
  pois_visited res = length (route res) /\
  visit_time_minutes res = (Z.of_nat (pois_visited res) * visit_time_per_poi)%Z /\
  total_distance_km res = py_round (sum_distance (route res)) 2 /\
  walking_time_minutes res = py_round (sum_walking (route res)) 1 /\
  total_time_minutes res =
    py_round (sum_walking (route res) + IZR (visit_time_minutes res)) 1 /\
  time_remaining res =
    IZR duration_minutes
    - (sum_walking (route res) + IZR (visit_time_minutes res)) /\
  return_distance_km res = 0.

(** The stops of a route are distinct candidates that have coordinates. *)
Definition distinct_located_stops (candidate_pois : list poi)
    (r : list route_stop) : Prop :=
  NoDup (stop_ids r) /\
  Forall (fun stop => stop_poi stop ∈ candidate_pois /\
                      missing_coords (stop_poi stop) = false) r.

(** The coordinates of the candidates that have them. *)
Definition located_coords (l : list poi) : list coord :=
  omap (fun p => match poi_position p with Ok c => Some c | _ => None end) l.

(** The start and all candidates lie within [radius] km of each other. *)
Definition within_radius (radius : R) (start_coords : coord)
    (candidate_pois : list poi) : Prop :=
  forall a b,
    a ∈ start_coords :: located_coords candidate_pois ->
    b ∈ located_coords candidate_pois ->
    calculate_distance a b <= radius.

(** A candidate the scans on dicts can select: it has an ['id'] and passes
    the guard on the coordinates. *)
Definition routable (candidate_pois : list Raw.poi) (p : Raw.poi) : Prop :=
  p ∈ candidate_pois /\ contains (Raw.id p) = true /\
  Raw.missing_coords p = false.

(** An entry of the saved route carries the id, name, coordinates and leg of
    its stop. *)
Definition saved_as (stop : Raw.route_stop) (saved : Raw.saved_stop) : Prop :=
  Raw.id (Raw.stop_poi stop) = Some (Raw.poi_id saved) /\
  Raw.name (Raw.stop_poi stop) = Some (Raw.poi_name saved) /\
  Raw.geo (Raw.stop_poi stop) = Some (Raw.coordinates saved) /\
  Raw.saved_distance_from_previous_km saved
  = Raw.distance_from_previous_km stop /\
  Raw.saved_walking_time_minutes saved = Raw.stop_walking_time_minutes stop.

(** Every stop of the route has a ['name']. *)
Definition stops_named (r : list Raw.route_stop) : bool :=
  forallb (fun stop => contains (Raw.name (Raw.stop_poi stop))) r.

(** The weights [score_poi] works with. *)
Definition weights_used (w : option weights) : weights :=
  match w with None => DEFAULT_WEIGHTS | Some w => w end.

(** Candidates with both coordinates. *)
Definition located (l : list poi) : list poi :=
  filter (fun p => missing_coords p = false) l.

(** A POI with its tags replaced. *)
Definition with_tags (p : poi) (tags : option (list string)) : poi :=
  mk_poi (id p) (name p) (geo p) tags (facts p) (visual_cues p)
    (source_reliability p).

(** * Properties *)

(** ** Rounding *)

Section Rounding.

Lemma round_half_even_le (y : R) (m : Z) :
  y <= IZR m -> (round_half_even y <= m)%Z.
Proof.
  intros Hy. destruct (base_Int_part y) as [Hlo Hhi].
  assert (Hf : (Int_part y <= m)%Z) by (apply le_IZR; lra).
  unfold round_half_even.
  destruct (Rlt_dec _ _) as [_ | Hd]; [exact Hf |].
  assert (Hlt : (Int_part y < m)%Z) by (apply lt_IZR; lra).
  destruct (Rlt_dec _ _); [lia |].
  destruct (Z.even _); lia.
Qed.

Lemma round_half_even_ge (y : R) (m : Z) :
  IZR m <= y -> (m <= round_half_even y)%Z.
Proof.
  intros Hy. destruct (base_Int_part y) as [Hlo Hhi].
  assert (Hf : (m - 1 < Int_part y)%Z).
  { apply lt_IZR. rewrite minus_IZR. lra. }
  unfold round_half_even.
  destruct (Rlt_dec _ _); [lia |].
  destruct (Rlt_dec _ _); [lia |].
  destruct (Z.even _); lia.
Qed.

Lemma pow10_pos (k : nat) : 0 < 10 ^ k.
Proof. apply pow_lt. lra. Qed.

Lemma scale_IZR (n : Z) (k : nat) :
  IZR n * 10 ^ k = IZR (n * 10 ^ Z.of_nat k).
Proof. rewrite mult_IZR. f_equal. apply pow_IZR. Qed.

(** Rounding never crosses an integer: an integer upper bound of [x] also
    bounds [round(x, k)]. *)
Lemma py_round_le (x : R) (n : Z) (k : nat) :
  x <= IZR n -> py_round x k <= IZR n.
Proof.
  intros Hx. pose proof (pow10_pos k) as Hk. unfold py_round.
  assert (Hs : x * 10 ^ k <= IZR (n * 10 ^ Z.of_nat k)).
  { rewrite <- scale_IZR. apply Rmult_le_compat_r; lra. }
  apply round_half_even_le, IZR_le in Hs. rewrite <- scale_IZR in Hs.
  apply Rmult_le_reg_r with (r := 10 ^ k); [exact Hk |].
  unfold Rdiv. rewrite Rmult_assoc, Rinv_l by lra. lra.
Qed.

Lemma py_round_ge (x : R) (n : Z) (k : nat) :
  IZR n <= x -> IZR n <= py_round x k.
Proof.
  intros Hx. pose proof (pow10_pos k) as Hk. unfold py_round.
  assert (Hs : IZR (n * 10 ^ Z.of_nat k) <= x * 10 ^ k).
  { rewrite <- scale_IZR. apply Rmult_le_compat_r; lra. }
  apply round_half_even_ge, IZR_le in Hs. rewrite <- scale_IZR in Hs.
  apply Rmult_le_reg_r with (r := 10 ^ k); [exact Hk |].
  unfold Rdiv. rewrite Rmult_assoc, Rinv_l by lra. lra.
Qed.

Lemma py_round_IZR (n : Z) (k : nat) : py_round (IZR n) k = IZR n.
Proof.
  apply Rle_antisym; [apply py_round_le | apply py_round_ge]; lra.
Qed.

End Rounding.

(** ** Geo distance *)

Section Geo.

Lemma sin_sqr_opp (x : R) : sin (- x) ^ 2 = sin x ^ 2.
Proof. rewrite sin_neg. ring. Qed.

Lemma radians_half_swap (x y : R) :
  radians (x - y) / 2 = - (radians (y - x) / 2).
Proof. unfold radians. field. Qed.

Lemma asin_nonneg (x : R) : 0 <= x -> 0 <= asin x.
Proof.
  intros Hx. pose proof PI2_RGT_0 as Hpi. unfold asin.
  destruct (Rle_dec x (-1)); [lra |].
  destruct (Rle_dec 1 x); [lra |].
  assert (Hs : 0 < sqrt (1 - x²)).
  { apply sqrt_lt_R0. unfold Rsqr. nra. }
  assert (Hq : 0 <= x / sqrt (1 - x²)).
  { apply Rmult_le_pos; [exact Hx |]. left. now apply Rinv_0_lt_compat. }
  destruct Hq as [Hq | Hq].
  - left. rewrite <- atan_0. now apply atan_increasing.
  - rewrite <- Hq, atan_0. lra.
Qed.

Lemma calculate_distance_nonneg (a b : coord) : 0 <= calculate_distance a b.
Proof.
  destruct a as [lat1 lng1], b as [lat2 lng2]. unfold calculate_distance.
  pose proof (asin_nonneg _ (sqrt_pos
    (sin (radians (lat2 - lat1) / 2) ^ 2 +
     cos (radians lat1) * cos (radians lat2) *
     sin (radians (lng2 - lng1) / 2) ^ 2))) as Ha.
  unfold EARTH_RADIUS_KM. lra.
Qed.

Lemma calculate_distance_sym (a b : coord) :
  calculate_distance a b = calculate_distance b a.
Proof.
  destruct a as [lat1 lng1], b as [lat2 lng2]. unfold calculate_distance.
  rewrite (radians_half_swap lat2 lat1), (radians_half_swap lng2 lng1).
  rewrite !sin_sqr_opp.
  now rewrite (Rmult_comm (cos (radians lat1)) (cos (radians lat2))).
Qed.

Lemma calculate_distance_same_lat_lng (la ln : R) :
  calculate_distance (la, ln) (la, ln) = 0.
Proof.
  unfold calculate_distance, radians.
  replace ((la - la) * (PI / 180) / 2) with 0 by field.
  replace ((ln - ln) * (PI / 180) / 2) with 0 by field.
  rewrite sin_0.
  replace (0 ^ 2 + cos (la * (PI / 180)) * cos (la * (PI / 180)) * 0 ^ 2)
    with 0 by ring.
  rewrite sqrt_0, asin_0. ring.
Qed.

Lemma calculate_distance_self (a : coord) : calculate_distance a a = 0.
Proof. destruct a. apply calculate_distance_same_lat_lng. Qed.


(** Two coordinate pairs on the north pole. *)
Lemma calculate_distance_pole (ln1 ln2 : R) :
  calculate_distance (90, ln1) (90, ln2) = 0.
Proof.
  unfold calculate_distance, radians.
  replace ((90 - 90) * (PI / 180) / 2) with 0 by field.
  replace (90 * (PI / 180)) with (PI / 2) by field.
  rewrite sin_0, cos_PI2.
  replace (0 ^ 2 + 0 * 0 * sin ((ln2 - ln1) * (PI / 180) / 2) ^ 2)
    with 0 by ring.
  rewrite sqrt_0, asin_0. ring.
Qed.

End Geo.

(** C9 (amended). The great-circle distance is symmetric in its two arguments
    and vanishes on every pair of equal coordinates. *)
Theorem calculate_distance_symmetric_and_zero_on_equal (a b : coord) :
  calculate_distance a b = calculate_distance b a /\
  calculate_distance a a = 0.
Proof.
  split; [apply calculate_distance_sym | apply calculate_distance_self].
Qed.

(** C9 (as stated, refuted). Distance zero does not force equal coordinate
    pairs.  At latitude 90 the longitude term is multiplied by
    [cos (radians 90) = 0], so two pairs that differ only in longitude, here
    (90, 0) and (90, 1e-150), are at distance 0. *)
Lemma distance_zero_iff_equal_fails :
  ~ (calculate_distance (90, 0) (90, 1e-150) = 0 <->
     ((90, 0) : coord) = (90, 1e-150)).
Proof.
  intros [Hzero _]. specialize (Hzero (calculate_distance_pole 0 1e-150)).
  injection Hzero as Hlng. lra.
Qed.

(** ** Popularity *)

Section Popularity.

Lemma heuristic_estimate_range (f c : bool) :
  5 / 10 <= heuristic_estimate f c <= 9 / 10.
Proof. unfold heuristic_estimate. destruct f, c; lra. Qed.

Lemma calculate_popularity_score_spec (p : poi) :
  calculate_popularity_score p =
  popularity_spec (facts_present p) (visual_cues_present p)
    (source_reliability p).
Proof.
  unfold calculate_popularity_score, popularity_spec, heuristic_estimate,
    facts_present, visual_cues_present.
  destruct (facts p) as [f |], (visual_cues p) as [v |];
    try destruct (truthy f); try destruct (truthy v);
    destruct (source_reliability p) as [q |];
    match goal with
    | |- Rmin (Rmax ?a _) 1 = Rmin (Rmax ?b _) 1 => replace b with a by lra
    | |- Rmin ?a 1 = Rmin ?b 1 => replace b with a by lra
    end; reflexivity.
Qed.

End Popularity.

(** C5. [calculate_popularity_score] is the specified computation: 0.5, plus
    0.3 with facts, plus 0.1 with visual cues, then the maximum with the
    quality hint if there is one, then clamped to at most 1.  The result lies
    in [0, 1], and it is never below the heuristic estimate, which is the
    score of the same POI without hint, so the hint can only raise it. *)
Theorem calculate_popularity_score_correct (p : poi) :
  calculate_popularity_score p =
    popularity_spec (facts_present p) (visual_cues_present p)
      (source_reliability p) /\
  0 <= calculate_popularity_score p <= 1 /\
  heuristic_estimate (facts_present p) (visual_cues_present p)
    <= calculate_popularity_score p /\
  calculate_popularity_score
    (mk_poi (id p) (name p) (geo p) (vibe_tags p) (facts p) (visual_cues p)
       None) =
  heuristic_estimate (facts_present p) (visual_cues_present p).
Proof.
  assert (Hnohint :
    calculate_popularity_score
      (mk_poi (id p) (name p) (geo p) (vibe_tags p) (facts p) (visual_cues p)
         None) =
    heuristic_estimate (facts_present p) (visual_cues_present p)).
  { rewrite calculate_popularity_score_spec. unfold popularity_spec.
    cbn [source_reliability].
    change (facts_present (mk_poi _ _ _ _ (facts p) _ _))
      with (facts_present p).
    change (visual_cues_present (mk_poi _ _ _ _ _ (visual_cues p) _))
      with (visual_cues_present p).
    pose proof (heuristic_estimate_range (facts_present p)
                  (visual_cues_present p)).
    unfold Rmin. destruct (Rle_dec _ 1); lra. }
  rewrite Hnohint.
  rewrite calculate_popularity_score_spec. unfold popularity_spec.
  pose proof (heuristic_estimate_range (facts_present p)
                (visual_cues_present p)) as Hh.
  set (h := heuristic_estimate _ _) in *.
  repeat split.
  - destruct (source_reliability p) as [q |];
      [unfold Rmax; destruct (Rle_dec h q) |];
      unfold Rmin; destruct (Rle_dec _ 1); lra.
  - apply Rmin_r.
  - destruct (source_reliability p) as [q |];
      [unfold Rmax; destruct (Rle_dec h q) |];
      unfold Rmin; destruct (Rle_dec _ 1); lra.
Qed.

(** ** The candidate scan of the nearest-neighbour planner *)

Lemma Rltb_true (x y : R) : Rltb x y = true <-> x < y.
Proof. unfold Rltb. destruct (Rlt_dec x y); split; (easy || lra). Qed.

Lemma Rltb_false (x y : R) : Rltb x y = false <-> y <= x.
Proof. unfold Rltb. destruct (Rlt_dec x y); split; (easy || lra). Qed.

Lemma Rleb_true (x y : R) : Rleb x y = true <-> x <= y.
Proof. unfold Rleb. destruct (Rle_dec x y); split; (easy || lra). Qed.

Lemma Rleb_false (x y : R) : Rleb x y = false <-> y < x.
Proof. unfold Rleb. destruct (Rle_dec x y); split; (easy || lra). Qed.

Lemma poi_position_ok (p : poi) :
  missing_coords p = false -> exists c, poi_position p = Ok c.
Proof.
  unfold missing_coords, poi_position.
  destruct (geo p) as [[[la |] [ln |]] |]; simpl; try discriminate.
  intros _. now exists (la, ln).
Qed.

Lemma poi_position_missing (p : poi) (c : coord) :
  poi_position p = Ok c -> missing_coords p = false.
Proof.
  unfold missing_coords, poi_position.
  destruct (geo p) as [[[la |] [ln |]] |]; simpl; try discriminate. easy.
Qed.

Section NearestScan.

Variable current_position : coord.
Variable visited_ids : gset string.

Local Abbreviation dist c := (calculate_distance current_position c).

Lemma nearest_step_skip (acc : option (poi * R)) (p : poi) :
  ~ eligible visited_ids p ->
  nearest_step current_position visited_ids acc p = Ok acc.
Proof.
  unfold eligible, nearest_step. intros Hne.
  case_bool_decide; [reflexivity |].
  destruct (missing_coords p); [reflexivity |]. tauto.
Qed.

Lemma nearest_step_take (acc : option (poi * R)) (p : poi) (c : coord) :
  eligible visited_ids p -> poi_position p = Ok c ->
  nearest_step current_position visited_ids acc p =
  Ok (match acc with
      | None => Some (p, dist c)
      | Some (p0, d0) => if Rltb (dist c) d0 then Some (p, dist c) else acc
      end).
Proof.
  unfold eligible, nearest_step. intros [Hv Hm] Hc.
  rewrite bool_decide_eq_false_2 by exact Hv. rewrite Hm, Hc. simpl.
  destruct acc as [[p0 d0] |]; [destruct (Rltb _ _) |]; reflexivity.
Qed.

Lemma nearest_first_cons (x : poi) (l : list poi) (p : poi) (d : R) :
  nearest_first current_position visited_ids l p d ->
  (forall cx, eligible visited_ids x -> poi_position x = Ok cx -> d < dist cx) ->
  nearest_first current_position visited_ids (x :: l) p d.
Proof.
  intros (l1 & l2 & c & -> & He & Hc & Hd & Hfront & Hback) Hx.
  exists (x :: l1), l2, c. split_and!; try done.
  intros q cq [-> | Hq]%elem_of_cons Hel Hpos; eauto.
Qed.

Lemma for_each_nearest (l : list poi) (acc : option (poi * R)) :
  exists r,
    for_each (nearest_step current_position visited_ids) acc l = Ok r /\
    ((r = acc /\
      forall q cq, q ∈ l -> eligible visited_ids q -> poi_position q = Ok cq ->
        match acc with None => False | Some (_, d0) => d0 <= dist cq end) \/
     (exists p d, r = Some (p, d) /\ nearest_first current_position visited_ids l p d /\
        match acc with None => True | Some (_, d0) => d < d0 end)).
Proof.
  revert acc. induction l as [| x l IH]; intros acc; simpl.
  - exists acc. split; [reflexivity |]. left. split; [reflexivity |].
    intros q cq Hq. now apply elem_of_nil in Hq.
  - destruct (decide (eligible visited_ids x)) as [Hel | Hnel].
    + destruct (poi_position_ok x (proj2 Hel)) as [c Hc].
      rewrite (nearest_step_take acc x c Hel Hc). simpl.
      assert (Hsame : forall cq, poi_position x = Ok cq -> dist cq = dist c).
      { intros cq Hq. rewrite Hc in Hq. now injection Hq as ->. }
      set (acc' := match acc with
                   | None => Some (x, dist c)
                   | Some (_, d0) =>
                     if Rltb (dist c) d0 then Some (x, dist c) else acc
                   end).
      assert (Hacc' :
        (acc' = Some (x, dist c) /\
         match acc with None => True | Some (_, d0) => dist c < d0 end) \/
        (acc' = acc /\ exists p0 d0, acc = Some (p0, d0) /\ d0 <= dist c)).
      { subst acc'. destruct acc as [[p0 d0] |]; [| now left].
        destruct (Rltb (dist c) d0) eqn:Hlt.
        - left. now apply Rltb_true in Hlt.
        - right. apply Rltb_false in Hlt. eauto. }
      clearbody acc'.
      destruct (IH acc') as (r & Hr & Hspec). exists r. split; [exact Hr |].
      destruct Hacc' as [[-> Hcl] | [-> (p0 & d0 & -> & Hge)]].
      * right. destruct Hspec as [[-> Hall] | (p & d & -> & Hnf & Hlt)].
        -- exists x, (dist c). split; [reflexivity |]. split; [| exact Hcl].
           exists [], l, c. split_and!; try done.
           all: intros q cq Hq; try (now apply elem_of_nil in Hq); eauto.
        -- exists p, d. split; [reflexivity |]. split.
           ++ apply nearest_first_cons; [exact Hnf |].
              intros cx _ Hcx. rewrite (Hsame cx Hcx). exact Hlt.
           ++ destruct acc as [[p0 d0] |]; [lra | exact I].
      * destruct Hspec as [[-> Hall] | (p & d & -> & Hnf & Hlt)].
        -- left. split; [reflexivity |].
           intros q cq [-> | Hq]%elem_of_cons Hqe Hqc.
           ++ rewrite (Hsame cq Hqc). exact Hge.
           ++ exact (Hall q cq Hq Hqe Hqc).
        -- right. exists p, d. split; [reflexivity |]. split; [| exact Hlt].
           apply nearest_first_cons; [exact Hnf |].
           intros cx _ Hcx. rewrite (Hsame cx Hcx). lra.
    + rewrite (nearest_step_skip acc x Hnel). simpl.
      destruct (IH acc) as (r & Hr & Hspec). exists r. split; [exact Hr |].
      destruct Hspec as [[-> Hall] | (p & d & -> & Hnf & Hlt)].
      * left. split; [reflexivity |].
        intros q cq [-> | Hq]%elem_of_cons Hqe Hqc; [contradiction |].
        exact (Hall q cq Hq Hqe Hqc).
      * right. exists p, d. split; [reflexivity |]. split; [| exact Hlt].
        apply nearest_first_cons; [exact Hnf |]. intros cx Hx. contradiction.
Qed.

(** The scan never raises; it finds nothing exactly when no candidate is
    eligible, and otherwise the first candidate at minimal distance. *)
Lemma find_nearest_spec (l : list poi) :
  (find_nearest current_position visited_ids l = Ok None /\
   forall q, q ∈ l -> ~ eligible visited_ids q) \/
  (exists p d, find_nearest current_position visited_ids l = Ok (Some (p, d)) /\
               nearest_first current_position visited_ids l p d).
Proof.
  unfold find_nearest.
  destruct (for_each_nearest l None) as (r & -> & [[-> Hall] | Hsome]).
  - left. split; [reflexivity |]. intros q Hq Hel.
    destruct (poi_position_ok q (proj2 Hel)) as [cq Hcq]. eauto.
  - right. destruct Hsome as (p & d & -> & Hnf & _). eauto.
Qed.

End NearestScan.

(** ** The selection loop of the nearest-neighbour planner *)

Lemma remaining_decreases (visited_ids : gset string) (l : list poi) (p : poi) :
  p ∈ l -> eligible visited_ids p ->
  (remaining ({[ id p ]} ∪ visited_ids) l < remaining visited_ids l)%nat.
Proof.
  intros Hin Hel. unfold remaining.
  rewrite <- (list_filter_filter_l (eligible ({[ id p ]} ∪ visited_ids))
                (eligible visited_ids)).
  - apply length_filter_lt with (x := p).
    + apply list_elem_of_filter. now split.
    + intros [Hnot _]. set_solver.
  - intros x [Hx Hm]. split; [set_solver | exact Hm].
Qed.

Lemma remaining_le_length (visited_ids : gset string) (l : list poi) :
  (remaining visited_ids l <= length l)%nat.
Proof. apply length_filter. Qed.

Lemma nearest_first_elem (cur : coord) (vis : gset string) (l : list poi)
    (p : poi) (d : R) :
  nearest_first cur vis l p d -> p ∈ l /\ eligible vis p /\ 0 <= d.
Proof.
  intros (l1 & l2 & c & -> & Hel & _ & -> & _). split_and!; [| done |].
  - set_solver.
  - apply calculate_distance_nonneg.
Qed.

Lemma commit_stop_advance (v : Z) (st : plan_state) (p : poi) (d : R) (c : coord) :
  poi_position p = Ok c ->
  commit_stop st p d (estimate_walking_time d)
    (estimate_walking_time d + IZR v) = Ok (advance v st p d c).
Proof. intros Hc. unfold commit_stop. now rewrite Hc. Qed.

Section RouteLoop.

Variable candidate_pois : list poi.
Variables duration_minutes visit_time_per_poi : Z.

(** One iteration of the loop, case by case. *)
Lemma route_loop_step (fuel : nat) (st : plan_state) :
  ((forall q, q ∈ candidate_pois -> ~ eligible (st_visited_ids st) q) /\
   route_loop (S fuel) candidate_pois duration_minutes visit_time_per_poi st
   = Ok st) \/
  (exists p d c,
     nearest_first (st_current_position st) (st_visited_ids st)
       candidate_pois p d /\
     poi_position p = Ok c /\
     ((time_after visit_time_per_poi st d > IZR duration_minutes /\
       route_loop (S fuel) candidate_pois duration_minutes
         visit_time_per_poi st = Ok st) \/
      (time_after visit_time_per_poi st d <= IZR duration_minutes /\
       route_loop (S fuel) candidate_pois duration_minutes
         visit_time_per_poi st =
       route_loop fuel candidate_pois duration_minutes visit_time_per_poi
         (advance visit_time_per_poi st p d c)))).
Proof.
  destruct (find_nearest_spec (st_current_position st) (st_visited_ids st)
              candidate_pois) as [[Hnone Hall] | (p & d & Hsome & Hnf)].
  - left. split; [exact Hall |]. simpl. now rewrite Hnone.
  - right. pose proof Hnf as (l1 & l2 & c & _ & _ & Hc & _).
    exists p, d, c. split; [exact Hnf |]. split; [exact Hc |].
    simpl. rewrite Hsome. simpl. unfold Rgtb, time_after.
    destruct (Rltb _ _) eqn:Hcmp.
    + left. apply Rltb_true in Hcmp. split; [lra | reflexivity].
    + right. apply Rltb_false in Hcmp. split; [lra |].
      now rewrite (commit_stop_advance _ _ _ _ c Hc).
Qed.

Section Invariant.

Variable Inv : plan_state -> Prop.

Hypothesis Inv_advance : forall st p d c,
  Inv st ->
  nearest_first (st_current_position st) (st_visited_ids st)
    candidate_pois p d ->
  poi_position p = Ok c ->
  time_after visit_time_per_poi st d <= IZR duration_minutes ->
  Inv (advance visit_time_per_poi st p d c).

(** With more fuel than selectable candidates the loop returns a state;
    an invariant of the committed steps holds of it, and the loop has
    nothing more to add there. *)
Lemma route_loop_inv (fuel : nat) (st : plan_state) :
  (remaining (st_visited_ids st) candidate_pois < fuel)%nat ->
  Inv st ->
  exists st',
    route_loop fuel candidate_pois duration_minutes visit_time_per_poi st
    = Ok st' /\ Inv st' /\ exhausted candidate_pois duration_minutes visit_time_per_poi st'.
Proof.
  revert st. induction fuel as [| fuel IH]; intros st Hfuel Hinv; [lia |].
  destruct (route_loop_step fuel st)
    as [[Hall ->] | (p & d & c & Hnf & Hc & [[Hgt ->] | [Hle ->]])].
  - exists st. split_and!; [done | done | now left].
  - exists st. split_and!; [done | done | right; eauto].
  - apply IH.
    + destruct (nearest_first_elem _ _ _ _ _ Hnf) as (Hin & Hel & _).
      pose proof (remaining_decreases _ _ _ Hin Hel). simpl. lia.
    + now apply Inv_advance.
Qed.

End Invariant.

End RouteLoop.

(** ** Results of the nearest-neighbour planner *)

Lemma plan_route_fuel (start_coords : coord) (candidate_pois : list poi) :
  (remaining (st_visited_ids (initial_state start_coords)) candidate_pois
   < S (length candidate_pois))%nat.
Proof. pose proof (remaining_le_length ∅ candidate_pois). simpl. lia. Qed.

Lemma plan_route_of_loop (start_coords : coord) (candidate_pois : list poi)
    (duration_minutes visit_time_per_poi : Z) (return_to_start : bool)
    (st : plan_state) :
  route_loop (S (length candidate_pois)) candidate_pois duration_minutes
    visit_time_per_poi (initial_state start_coords) = Ok st ->
  plan_route start_coords candidate_pois duration_minutes visit_time_per_poi
    return_to_start =
  Ok (close_route start_coords duration_minutes visit_time_per_poi
        return_to_start st).
Proof. intros Hloop. unfold plan_route. now rewrite Hloop. Qed.

Lemma close_route_route (start_coords : coord) (d v : Z) (r : bool)
    (st : plan_state) :
  route (close_route start_coords d v r st) = st_route st /\
  pois_visited (close_route start_coords d v r st) = length (st_route st).
Proof.
  unfold close_route.
  destruct (r && _); [destruct (Rleb _ _) |]; split; reflexivity.
Qed.

Lemma close_route_time (start_coords : coord) (d v : Z) (r : bool)
    (st : plan_state) :
  st_time_used st <= IZR d ->
  total_time_minutes (close_route start_coords d v r st) <= IZR d /\
  0 <= time_remaining (close_route start_coords d v r st).
Proof.
  intros Hst. unfold close_route.
  destruct (r && _); [destruct (Rleb _ _) eqn:Hfit |]; simpl;
    try apply Rleb_true in Hfit; (split; [apply py_round_le |]); lra.
Qed.

Lemma sum_walking_snoc (r : list route_stop) (stop : route_stop) :
  sum_walking (r ++ [stop]) = sum_walking r + stop_walking_time_minutes stop.
Proof.
  unfold sum_walking. induction r as [| x r IH]; simpl; [lra |].
  rewrite IH. lra.
Qed.

Lemma clock_after_prefix (v : Z) (r : list route_stop) (stop : route_stop)
    (k : nat) :
  (k <= length r)%nat -> clock_after v (r ++ [stop]) k = clock_after v r k.
Proof. intros Hk. unfold clock_after. now rewrite take_app_le. Qed.

Lemma clock_after_snoc (v : Z) (r : list route_stop) (stop : route_stop) :
  clock_after v (r ++ [stop]) (S (length r)) =
  clock_after v r (length r) + (stop_walking_time_minutes stop + IZR v).
Proof.
  unfold clock_after.
  rewrite (take_ge (r ++ [stop])) by (rewrite length_app; simpl; lia).
  rewrite (take_ge r) by lia.
  rewrite sum_walking_snoc, Nat2Z.inj_succ, Z.mul_succ_l, plus_IZR. lra.
Qed.

(** C1 (amended). For a duration budget that is not negative, and every start
    position, candidate list, visit time and return flag, [plan_route]
    returns a result whose [total_time_minutes] is at most the budget and
    whose [time_remaining] is not negative; and the clock never passed the
    budget on the way: after each stop of the returned route, the walking
    times of the stops so far plus one visit time for each of them are at
    most the budget. *)
Theorem plan_route_within_budget (start_coords : coord)
    (candidate_pois : list poi) (duration_minutes visit_time_per_poi : Z)
    (return_to_start : bool) :
  (0 <= duration_minutes)%Z ->
  exists res,
    plan_route start_coords candidate_pois duration_minutes visit_time_per_poi
      return_to_start = Ok res /\
    total_time_minutes res <= IZR duration_minutes /\
    0 <= time_remaining res /\
    forall k, (k <= length (route res))%nat ->
      clock_after visit_time_per_poi (route res) k <= IZR duration_minutes.
Proof.
  intros Hd.
  destruct (route_loop_inv candidate_pois duration_minutes visit_time_per_poi
              (fun st =>
                 st_time_used st =
                   clock_after visit_time_per_poi (st_route st)
                     (length (st_route st)) /\
                 forall k, (k <= length (st_route st))%nat ->
                   clock_after visit_time_per_poi (st_route st) k
                   <= IZR duration_minutes))
    with (fuel := S (length candidate_pois))
         (st := initial_state start_coords)
    as (st & Hloop & [Hclock Hall] & _).
  - intros st p d c [Hclock Hall] _ _ Hfit. unfold time_after in Hfit.
    simpl st_route. rewrite length_app. simpl length.
    replace (length (st_route st) + 1)%nat with (S (length (st_route st)))
      by lia.
    rewrite clock_after_snoc. simpl stop_walking_time_minutes.
    split; [simpl; lra |].
    intros k Hk. destruct (decide (k = S (length (st_route st)))) as [-> | Hne].
    + rewrite clock_after_snoc. simpl stop_walking_time_minutes. lra.
    + rewrite clock_after_prefix by lia. apply Hall. lia.
  - apply plan_route_fuel.
  - apply IZR_le in Hd. unfold clock_after. simpl. split.
    + rewrite Z.mul_0_l. unfold sum_walking. simpl. lra.
    + intros k Hk. replace k with 0%nat by lia.
      rewrite take_0, Z.mul_0_l. unfold sum_walking. simpl. lra.
  - eexists. split; [exact (plan_route_of_loop _ _ _ _ _ _ Hloop) |].
    assert (Hinv : st_time_used st <= IZR duration_minutes).
    { rewrite Hclock. now apply Hall. }
    destruct (close_route_time start_coords duration_minutes
                visit_time_per_poi return_to_start st Hinv) as [Htot Hrem].
    destruct (close_route_route start_coords duration_minutes
                visit_time_per_poi return_to_start st) as [-> _].
    split_and!; [exact Htot | exact Hrem | exact Hall].
Qed.

Lemma plan_route_within_budget_witness :
  (0 <= 30)%Z /\
  exists res,
    plan_route (54.4025, -1.7367)
      [mk_poi "richmond_001" "Richmond Castle"
         (Some (mk_geo (Some 54.4039) (Some (-1.7394)))) None None None None]
      30 5 false = Ok res /\
    total_time_minutes res <= IZR 30 /\ 0 <= time_remaining res /\
    forall k, (k <= length (route res))%nat ->
      clock_after 5 (route res) k <= IZR 30.
Proof.
  split; [lia |]. apply plan_route_within_budget. lia.
Defined.

(** C1 (as stated, refuted). With a budget of -1 and no candidates the
    reported total time is 0, above the budget. *)
Lemma plan_route_negative_budget_exceeded :
  exists res,
    plan_route (0, 0) [] (-1) 5 false = Ok res /\
    ~ total_time_minutes res <= IZR (-1).
Proof.
  eexists. split; [reflexivity |]. simpl.
  change 0 with (IZR 0). rewrite py_round_IZR. lra.
Qed.

(** C2. The route of [plan_route] is built greedily: it is the route of a
    state reached from the start by steps that each take the eligible
    unvisited candidate at minimal distance from the current position (the
    first such candidate in input order, strictly closer than every eligible
    one before it) and only when it fits the budget; and the loop stops in
    that state for good, either with no eligible candidate left or as soon as
    the nearest one would exceed the budget. *)
Theorem plan_route_greedy_nearest (start_coords : coord)
    (candidate_pois : list poi) (duration_minutes visit_time_per_poi : Z)
    (return_to_start : bool) :
  exists st,
    plan_route start_coords candidate_pois duration_minutes visit_time_per_poi
      return_to_start =
    Ok (close_route start_coords duration_minutes visit_time_per_poi
          return_to_start st) /\
    greedy_reachable start_coords candidate_pois duration_minutes
      visit_time_per_poi st /\
    exhausted candidate_pois duration_minutes visit_time_per_poi st.
Proof.
  destruct (route_loop_inv candidate_pois duration_minutes visit_time_per_poi
              (greedy_reachable start_coords candidate_pois duration_minutes
                 visit_time_per_poi))
    with (fuel := S (length candidate_pois))
         (st := initial_state start_coords) as (st & Hloop & Hreach & Hstop).
  - intros st p d c Hst Hnf Hc Hfit. now apply reach_advance.
  - apply plan_route_fuel.
  - apply reach_initial.
  - exists st. split_and!; [exact (plan_route_of_loop _ _ _ _ _ _ Hloop) | done | done].
Qed.

Lemma advance_route_length (v : Z) (st : plan_state) (p : poi) (d : R)
    (c : coord) :
  length (st_route (advance v st p d c)) = S (length (st_route st)).
Proof. simpl. rewrite length_app. simpl. lia. Qed.

(** [plan_route] returns for every input. *)
Lemma plan_route_total (start_coords : coord)
    (candidate_pois : list poi) (duration_minutes visit_time_per_poi : Z)
    (return_to_start : bool) :
  exists res,
    plan_route start_coords candidate_pois duration_minutes
      visit_time_per_poi return_to_start = Ok res /\
    pois_visited res = length (route res) /\
    (length (route res) <= length candidate_pois)%nat.
Proof.
  destruct (route_loop_inv candidate_pois duration_minutes
              visit_time_per_poi
              (fun st => (length (st_route st)
                          + remaining (st_visited_ids st) candidate_pois
                          <= length candidate_pois)%nat))
    with (fuel := S (length candidate_pois))
         (st := initial_state start_coords) as (st & Hloop & Hinv & _).
  - intros st p d c Hst Hnf _ _.
    destruct (nearest_first_elem _ _ _ _ _ Hnf) as (Hin & Hel & _).
    pose proof (remaining_decreases _ _ _ Hin Hel).
    rewrite advance_route_length. simpl st_visited_ids. lia.
  - apply plan_route_fuel.
  - pose proof (remaining_le_length ∅ candidate_pois). simpl. lia.
  - eexists. split; [exact (plan_route_of_loop _ _ _ _ _ _ Hloop) |].
    destruct (close_route_route start_coords duration_minutes
                visit_time_per_poi return_to_start st) as [-> ->].
    split; [reflexivity | lia].
Qed.


(** ** The preference-scored planner *)

Lemma score_poi_ok (p : poi) (ints : list string) (cur : coord)
    (w : option weights) (c : coord) :
  poi_position p = Ok c ->
  exists s,
    score_poi p ints cur w = Ok s /\ scored_of s = p /\
    distance_km (components s) = calculate_distance cur c.
Proof.
  unfold poi_position, score_poi.
  destruct (geo p) as [[[la |] [ln |]] |]; simpl; try discriminate.
  intros [= <-]. eexists. split; [reflexivity |]. split; reflexivity.
Qed.

Section BestScan.

Variables (ints : list string) (w : option weights).
Variables (current_position : coord) (visited_ids : gset string).

Lemma best_step_skip (acc : option (poi * R * R)) (p : poi) :
  ~ eligible visited_ids p ->
  best_step score_poi ints w current_position visited_ids acc p = Ok acc.
Proof.
  unfold eligible, best_step. intros Hne.
  case_bool_decide; [reflexivity |].
  destruct (missing_coords p); [reflexivity |]. tauto.
Qed.

Lemma best_step_take (acc : option (poi * R * R)) (p : poi) :
  eligible visited_ids p ->
  exists s d,
    0 <= d /\
    best_step score_poi ints w current_position visited_ids acc p =
    Ok (match acc with
        | None => Some (p, s, d)
        | Some (_, best_score, _) =>
          if Rgtb s best_score then Some (p, s, d) else acc
        end).
Proof.
  intros [Hv Hm]. destruct (poi_position_ok p Hm) as [c Hc].
  destruct (score_poi_ok p ints current_position w c Hc)
    as (s & Hs & _ & Hd).
  exists (score s), (distance_km (components s)).
  split; [rewrite Hd; apply calculate_distance_nonneg |].
  unfold best_step. rewrite bool_decide_eq_false_2 by exact Hv.
  rewrite Hm, Hs. simpl.
  destruct acc as [[[p0 s0] d0] |]; [destruct (Rgtb _ _) |]; reflexivity.
Qed.

(** The scan never raises, and what it selects is an eligible candidate. *)
Lemma for_each_best (l : list poi) (acc : option (poi * R * R)) :
  exists r,
    for_each (best_step score_poi ints w current_position visited_ids) acc l
    = Ok r /\
    (r = acc \/
     exists p s d, r = Some (p, s, d) /\ p ∈ l /\
                   eligible visited_ids p /\ 0 <= d).
Proof.
  revert acc. induction l as [| x l IH]; intros acc; simpl.
  - exists acc. split; [reflexivity | now left].
  - destruct (decide (eligible visited_ids x)) as [Hel | Hnel].
    + destruct (best_step_take acc x Hel) as (s & d & Hd & ->). simpl.
      match goal with
      | |- context [for_each _ ?a l] => destruct (IH a) as (r & Hr & Hspec)
      end.
      exists r. split; [exact Hr |].
      destruct Hspec as [-> | (p & s' & d' & -> & Hin & Hp & Hd')].
      * destruct acc as [[[p0 s0] d0] |]; [destruct (Rgtb _ _) |];
          try (now left); right; exists x, s, d; split_and!; try done;
          apply elem_of_cons; now left.
      * right. exists p, s', d'. split_and!; try done.
        apply elem_of_cons. now right.
    + rewrite (best_step_skip acc x Hnel). simpl.
      destruct (IH acc) as (r & Hr & Hspec). exists r. split; [exact Hr |].
      destruct Hspec as [-> | (p & s' & d' & -> & Hin & Hp & Hd')];
        [now left |].
      right. exists p, s', d'. split_and!; try done.
      apply elem_of_cons. now right.
Qed.

Lemma find_best_spec (l : list poi) :
  find_best score_poi ints w current_position visited_ids l = Ok None \/
  exists p s d,
    find_best score_poi ints w current_position visited_ids l
    = Ok (Some (p, s, d)) /\
    p ∈ l /\ eligible visited_ids p /\ 0 <= d.
Proof.
  unfold find_best.
  destruct (for_each_best l None) as (r & -> & [-> | Hsome]);
    [now left | right].
  destruct Hsome as (p & s & d & -> & H). eauto.
Qed.

End BestScan.

(** With more fuel than selectable candidates the preference loop returns. *)
Lemma pref_loop_total (ints : list string) (w : option weights)
    (candidate_pois : list poi) (duration_minutes visit_time_per_poi : Z)
    (fuel : nat) (st : plan_state) (poi_scores : list R) :
  (remaining (st_visited_ids st) candidate_pois < fuel)%nat ->
  exists st' poi_scores',
    pref_loop fuel score_poi ints w candidate_pois duration_minutes
      visit_time_per_poi st poi_scores = Ok (st', poi_scores').
Proof.
  revert st poi_scores.
  induction fuel as [| fuel IH]; intros st poi_scores Hfuel; [lia |].
  simpl.
  destruct (find_best_spec ints w (st_current_position st)
              (st_visited_ids st) candidate_pois)
    as [-> | (p & s & d & -> & Hin & Hel & Hd)]; simpl; [eauto |].
  destruct (Rgtb _ _); [eauto |].
  destruct (poi_position_ok p (proj2 Hel)) as [c Hc].
  rewrite (commit_stop_advance _ _ _ _ c Hc). simpl.
  apply IH. pose proof (remaining_decreases _ _ _ Hin Hel). simpl. lia.
Qed.

Lemma lookup_casual_tourist :
  USER_PROFILES !! "casual_tourist" =
  Some (mk_profile
          ["history"; "architecture"; "scenic"; "culture"; "picturesque"]
          "Balanced mix of popular tourist attractions").
Proof. vm_compute. reflexivity. Qed.

Lemma lookup_interests_unknown (user_profile : string) :
  USER_PROFILES !! user_profile = None ->
  lookup_interests USER_PROFILES user_profile =
  lookup_interests USER_PROFILES "casual_tourist".
Proof.
  intros Hnone. unfold lookup_interests.
  now rewrite Hnone, lookup_casual_tourist.
Qed.

Lemma lookup_interests_registry (user_profile : string) :
  exists ints, lookup_interests USER_PROFILES user_profile = Ok ints.
Proof.
  unfold lookup_interests.
  destruct (USER_PROFILES !! user_profile) as [pr |]; [eauto |].
  rewrite lookup_casual_tourist. simpl. eauto.
Qed.

(** With the scorer imported the preference planner returns for every
    input. *)
Lemma plan_route_with_preferences_total (start_coords : coord)
    (candidate_pois : list poi) (duration_minutes : Z) (user_profile : string)
    (visit_time_per_poi : Z) (return_to_start : bool)
    (scoring_weights : option weights) :
  exists pres,
    plan_route_with_preferences Imported start_coords candidate_pois
      duration_minutes user_profile visit_time_per_poi return_to_start
      scoring_weights = Ok pres /\
    user_profile_used pres = user_profile.
Proof.
  unfold plan_route_with_preferences.
  cbn [score_poi_global USER_PROFILES_global DEFAULT_WEIGHTS_global].
  destruct (lookup_interests_registry user_profile) as [ints ->].
  cbn [bind].
  match goal with
  | |- context [pref_loop ?f _ ?i ?w _ _ _ ?st ?sc] =>
    destruct (pref_loop_total i w candidate_pois duration_minutes
                visit_time_per_poi f st sc) as (st' & sc' & ->)
  end; [apply plan_route_fuel |].
  cbn [bind]. eauto.
Qed.

(** ** Dicts and records agree on well-formed input *)

Lemma well_formed_id (p : Raw.poi) :
  well_formed p = true -> Raw.id p = Some (id (typed_of p)).
Proof.
  unfold well_formed. destruct (Raw.id p) as [i |] eqn:Hid; [| discriminate].
  intros _. unfold typed_of. cbn. now rewrite Hid.
Qed.

Lemma missing_coords_typed (p : Raw.poi) :
  well_formed p = true ->
  missing_coords (typed_of p) = Raw.missing_coords p.
Proof.
  unfold well_formed, missing_coords, Raw.missing_coords, typed_of. cbn.
  destruct (Raw.id p); [| discriminate]. cbn.
  destruct (Raw.geo p) as [[[[x |] |] [[y |] |]] |]; cbn;
    try reflexivity; discriminate.
Qed.

Lemma poi_position_typed (p : Raw.poi) :
  selectable p ->
  exists c,
    Raw.poi_position p = Ok (Raw.of_coord c) /\
    poi_position (typed_of p) = Ok c.
Proof.
  intros [Hwf Hm]. revert Hwf Hm.
  unfold well_formed, Raw.missing_coords, Raw.poi_position, poi_position,
    typed_of. cbn.
  destruct (Raw.id p); [| discriminate]. cbn.
  destruct (Raw.geo p) as [[[[x |] |] [[y |] |]] |]; cbn;
    try discriminate.
  intros _ _. now exists (x, y).
Qed.

Lemma calculate_distance_typed (a b : coord) :
  Raw.calculate_distance (Raw.of_coord a) (Raw.of_coord b) =
  Ok (calculate_distance a b).
Proof. now destruct a, b. Qed.


Lemma nearest_step_typed (cur : coord) (vis : gset string)
    (acc : option (Raw.poi * R)) (p : Raw.poi) :
  well_formed p = true ->
  (forall q d, acc = Some (q, d) -> selectable q) ->
  exists acc',
    Raw.nearest_step (Raw.of_coord cur) vis acc p = Ok acc' /\
    nearest_step cur vis (typed_nearest acc) (typed_of p)
    = Ok (typed_nearest acc') /\
    (forall q d, acc' = Some (q, d) -> selectable q).
Proof.
  intros Hwf Hacc. unfold Raw.nearest_step, nearest_step.
  rewrite (well_formed_id p Hwf). cbn [getitem bind].
  destruct (bool_decide _); [eauto |].
  rewrite (missing_coords_typed p Hwf).
  destruct (Raw.missing_coords p) eqn:Hm; [eauto |].
  destruct (poi_position_typed p (conj Hwf Hm)) as (c & -> & ->).
  cbn [bind]. rewrite calculate_distance_typed. cbn [bind].
  assert (Hp : forall q d, Some (p, calculate_distance cur c) = Some (q, d) ->
                           selectable q).
  { intros q d [= <- _]. now split. }
  destruct acc as [[q d] |]; cbn [typed_nearest fmap option_fmap option_map].
  - destruct (Rltb _ _); eauto.
  - eauto.
Qed.

Lemma find_nearest_typed (cur : coord) (vis : gset string)
    (l : list Raw.poi) (acc : option (Raw.poi * R)) :
  forallb well_formed l = true ->
  (forall q d, acc = Some (q, d) -> selectable q) ->
  exists acc',
    for_each (Raw.nearest_step (Raw.of_coord cur) vis) acc l = Ok acc' /\
    for_each (nearest_step cur vis) (typed_nearest acc) (typed_of <$> l)
    = Ok (typed_nearest acc') /\
    (forall q d, acc' = Some (q, d) -> selectable q).
Proof.
  revert acc. induction l as [| x l IH]; intros acc Hall Hacc; [eauto |].
  cbn [forallb] in Hall. apply andb_true_iff in Hall as [Hx Hl].
  destruct (nearest_step_typed cur vis acc x Hx Hacc)
    as (acc1 & Hraw & Htyped & Hacc1).
  cbn [for_each fmap list_fmap]. rewrite Hraw, Htyped. cbn [bind].
  now apply IH.
Qed.

Lemma commit_stop_typed (rst : Raw.plan_state) (st : plan_state)
    (p : Raw.poi) (d wt t : R) :
  state_of rst st -> selectable p ->
  exists rst' st',
    Raw.commit_stop rst p d wt t = Ok rst' /\
    commit_stop st (typed_of p) d wt t = Ok st' /\
    state_of rst' st'.
Proof.
  intros (Hroute & Hvis & Hpos & Htime & Hdist) Hsel.
  unfold Raw.commit_stop, commit_stop.
  rewrite (well_formed_id p (proj1 Hsel)).
  destruct (poi_position_typed p Hsel) as (c & -> & ->).
  cbn [getitem bind]. eexists _, _. split; [reflexivity |].
  split; [reflexivity |].
  unfold state_of. cbn. rewrite fmap_app, Hroute, Hvis, Htime, Hdist.
  split_and!; reflexivity.
Qed.

Lemma route_loop_typed (fuel : nat) (candidate_pois : list Raw.poi)
    (duration_minutes visit_time_per_poi : Z) (rst : Raw.plan_state)
    (st : plan_state) :
  forallb well_formed candidate_pois = true ->
  state_of rst st ->
  match
    route_loop fuel (typed_of <$> candidate_pois) duration_minutes
      visit_time_per_poi st
  with
  | Ok st' =>
    exists rst',
      Raw.route_loop fuel candidate_pois duration_minutes visit_time_per_poi
        rst = Ok rst' /\
      state_of rst' st'
  | Raise e =>
    Raw.route_loop fuel candidate_pois duration_minutes visit_time_per_poi rst
    = Raise e
  | OutOfFuel =>
    Raw.route_loop fuel candidate_pois duration_minutes visit_time_per_poi rst
    = OutOfFuel
  end.
Proof.
  intros Hall. revert rst st.
  induction fuel as [| fuel IH]; intros rst st Hst; [reflexivity |].
  pose proof Hst as (Hroute & Hvis & Hpos & Htime & Hdist).
  cbn [route_loop Raw.route_loop]. unfold find_nearest, Raw.find_nearest.
  destruct (find_nearest_typed (st_current_position st) (st_visited_ids st)
              candidate_pois None Hall) as (acc & Hraw & Htyped & Hacc);
    [discriminate |].
  rewrite Hpos, <- Hvis, Hraw. cbn [typed_nearest fmap option_fmap option_map] in Htyped.
  rewrite Htyped. cbn [bind].
  destruct acc as [[q d] |]; cbn [typed_nearest fmap option_fmap option_map];
    [| eauto].
  rewrite <- Htime. destruct (Rgtb _ _); [eauto |].
  destruct (commit_stop_typed rst st q d (estimate_walking_time d)
              (estimate_walking_time d + IZR visit_time_per_poi) Hst
              (Hacc q d eq_refl)) as (rst' & st' & -> & -> & Hst').
  cbn [bind]. now apply IH.
Qed.

Lemma sum_walking_typed (r : list Raw.route_stop) :
  sum_walking (typed_stop <$> r) = Raw.sum_walking r.
Proof.
  unfold sum_walking, Raw.sum_walking.
  induction r as [| x r IH]; [reflexivity |]. cbn. now rewrite <- IH.
Qed.

Lemma close_route_typed (start_coords : coord) (duration_minutes
    visit_time_per_poi : Z) (return_to_start : bool) (rst : Raw.plan_state)
    (st : plan_state) :
  state_of rst st ->
  exists rres,
    Raw.close_route start_coords duration_minutes visit_time_per_poi
      return_to_start rst = Ok rres /\
    Raw.route rres = Raw.st_route rst /\
    typed_result rres =
    close_route start_coords duration_minutes visit_time_per_poi
      return_to_start st.
Proof.
  intros (Hroute & Hvis & Hpos & Htime & Hdist).
  unfold Raw.close_route, Raw.return_leg, close_route.
  rewrite Hroute, Htime, Hdist, Hpos, length_fmap, sum_walking_typed,
    calculate_distance_typed.
  destruct (return_to_start && _); cbn [bind];
    [destruct (Rleb _ _) |]; eexists; split_and!; reflexivity.
Qed.

Lemma initial_state_typed (start_coords : coord) :
  state_of (Raw.initial_state start_coords) (initial_state start_coords).
Proof. unfold state_of. cbn. split_and!; reflexivity. Qed.

(** On well-formed candidates the planner on dicts returns, and its result is
    the result of the planner on records. *)
Lemma plan_route_typed (start_coords : coord) (candidate_pois : list Raw.poi)
    (duration_minutes visit_time_per_poi : Z) (return_to_start : bool) :
  forallb well_formed candidate_pois = true ->
  exists rres,
    Raw.plan_route start_coords candidate_pois duration_minutes
      visit_time_per_poi return_to_start = Ok rres /\
    plan_route start_coords (typed_of <$> candidate_pois) duration_minutes
      visit_time_per_poi return_to_start = Ok (typed_result rres).
Proof.
  intros Hall.
  destruct (plan_route_total start_coords (typed_of <$> candidate_pois)
              duration_minutes visit_time_per_poi return_to_start)
    as (res & Hres & _).
  pose proof (route_loop_typed (S (length candidate_pois)) candidate_pois
                duration_minutes visit_time_per_poi
                (Raw.initial_state start_coords) (initial_state start_coords)
                Hall (initial_state_typed start_coords)) as Hloop.
  unfold plan_route in Hres |- *. unfold Raw.plan_route.
  rewrite length_fmap in Hres |- *.
  destruct (route_loop _ _ _ _ _) as [st | e |]; try discriminate.
  destruct Hloop as (rst & -> & Hst). cbn [bind].
  destruct (close_route_typed start_coords duration_minutes
              visit_time_per_poi return_to_start rst st Hst)
    as (rres & -> & _ & <-).
  now exists rres.
Qed.















(** C8. A profile name that is not in the registry is not an error: the
    profile lookup succeeds with the interests of ['casual_tourist'] (history,
    architecture, scenic, culture, picturesque).  [rank_pois] scores, sorts
    and slices with these interests, so it returns what it returns for
    ['casual_tourist'].  [plan_route_with_preferences] runs its selection
    loop with these interests and behaves as for ['casual_tourist'], only
    echoing the given name in its result; with the scorer imported it returns
    a result.  On untyped dicts too the planner does with the unknown name
    what it does with ['casual_tourist']: whatever it raises there does not
    come from the name. *)
Theorem unknown_profile_falls_back (user_profile : string)
    (i : scorer_import) (start_coords current_position : coord)
    (candidate_pois : list poi) (duration_minutes visit_time_per_poi : Z)
    (return_to_start : bool) (w : option weights) (top_n : option Z)
    (candidate_dicts : list Raw.poi) (weights_dict : option Raw.weights) :
  USER_PROFILES !! user_profile = None ->
  lookup_interests USER_PROFILES user_profile = Ok balanced_interests /\
  rank_pois candidate_pois user_profile current_position w top_n =
  (let! scored_pois :=
     for_each (rank_step balanced_interests current_position w) []
       candidate_pois in
   match top_n with
   | Some n => Ok (slice_to (sort_by_score_desc scored_pois) n)
   | None => Ok (sort_by_score_desc scored_pois)
   end) /\
  rank_pois candidate_pois user_profile current_position w top_n =
  rank_pois candidate_pois "casual_tourist" current_position w top_n /\
  plan_route_with_preferences Imported start_coords candidate_pois
    duration_minutes user_profile visit_time_per_poi return_to_start w =
  (let! final :=
     pref_loop (S (length candidate_pois)) score_poi balanced_interests
       (match w with Some w => Some w | None => Some DEFAULT_WEIGHTS end)
       candidate_pois duration_minutes visit_time_per_poi
       (initial_state start_coords) [] in
   Ok (mk_pref_result
         (close_route start_coords duration_minutes visit_time_per_poi
            return_to_start (fst final))
         user_profile (snd final))) /\
  plan_route_with_preferences i start_coords candidate_pois duration_minutes
    user_profile visit_time_per_poi return_to_start w =
  match
    plan_route_with_preferences i start_coords candidate_pois
      duration_minutes "casual_tourist" visit_time_per_poi return_to_start w
  with
  | Ok pres =>
    Ok (mk_pref_result (base_result pres) user_profile (poi_scores_of pres))
  | Raise e => Raise e
  | OutOfFuel => OutOfFuel
  end /\
  (exists pres,
     plan_route_with_preferences Imported start_coords candidate_pois
       duration_minutes user_profile visit_time_per_poi return_to_start w
     = Ok pres /\
     user_profile_used pres = user_profile) /\
  Raw.plan_route_with_preferences i start_coords candidate_dicts
    duration_minutes user_profile visit_time_per_poi return_to_start
    weights_dict =
  match
    Raw.plan_route_with_preferences i start_coords candidate_dicts
      duration_minutes "casual_tourist" visit_time_per_poi return_to_start
      weights_dict
  with
  | Ok pres =>
    Ok (Raw.mk_pref_result (Raw.base_result pres) user_profile
          (Raw.poi_scores_of pres))
  | Raise e => Raise e
  | OutOfFuel => OutOfFuel
  end.
Proof.
  intros Hnone.
  assert (Hlookup :
    lookup_interests USER_PROFILES user_profile = Ok balanced_interests).
  { unfold lookup_interests. now rewrite Hnone, lookup_casual_tourist. }
  split_and!.
  - exact Hlookup.
  - unfold rank_pois. now rewrite Hlookup.
  - unfold rank_pois. now rewrite (lookup_interests_unknown _ Hnone).
  - unfold plan_route_with_preferences.
    cbn [score_poi_global USER_PROFILES_global DEFAULT_WEIGHTS_global].
    now rewrite Hlookup.
  - unfold plan_route_with_preferences. destruct i; [| reflexivity].
    cbn [score_poi_global USER_PROFILES_global DEFAULT_WEIGHTS_global].
    rewrite (lookup_interests_unknown _ Hnone).
    destruct (lookup_interests USER_PROFILES "casual_tourist")
      as [ints | e |]; cbn [bind]; try reflexivity.
    destruct (pref_loop _ _ _ _ _ _ _ _ _) as [[st sc] | e |]; reflexivity.
  - apply plan_route_with_preferences_total.
  - unfold Raw.plan_route_with_preferences. destruct i; [| reflexivity].
    cbn [Raw.score_poi_global USER_PROFILES_global].
    rewrite (lookup_interests_unknown _ Hnone).
    destruct (lookup_interests USER_PROFILES "casual_tourist")
      as [ints | e |]; cbn [bind]; try reflexivity.
    destruct (Raw.pref_loop _ _ _ _ _ _ _ _ _) as [[st sc] | e |];
      cbn [bind]; try reflexivity.
    destruct (Raw.close_route _ _ _ _ _) as [res | e |]; reflexivity.
Qed.

Lemma unknown_profile_falls_back_witness :
  USER_PROFILES !! "foodie" = None /\
  lookup_interests USER_PROFILES "foodie" =
  Ok ["history"; "architecture"; "scenic"; "culture"; "picturesque"] /\
  rank_pois [castle; unlocated; tower] "foodie" (54.4025, -1.7367) None None =
  (let! scored_pois :=
     for_each (rank_step balanced_interests (54.4025, -1.7367) None) []
       [castle; unlocated; tower] in
   Ok (sort_by_score_desc scored_pois)) /\
  exists pres,
    plan_route_with_preferences Imported (54.4025, -1.7367)
      [castle; unlocated; tower] 45 "foodie" 5 false None = Ok pres /\
    user_profile_used pres = "foodie".
Proof.
  assert (Hnone : USER_PROFILES !! "foodie" = None)
    by (vm_compute; reflexivity).
  destruct (unknown_profile_falls_back "foodie" Imported (54.4025, -1.7367)
              (54.4025, -1.7367) [castle; unlocated; tower] 45 5 false None
              None [raw_castle; way] None Hnone)
    as (Hlookup & Hrank & _ & _ & _ & Hplan & _).
  split_and!; [exact Hnone | exact Hlookup | exact Hrank | exact Hplan].
Defined.

(** ** The return leg *)

Lemma close_route_return_leg (start_coords : coord) (d v : Z)
    (st : plan_state) :
  st_route st <> [] ->
  return_leg_report start_coords d st (close_route start_coords d v true st).
Proof.
  intros Hne. unfold return_leg_report, close_route.
  destruct (st_route st) as [| stop0 stops] eqn:Hroute; [contradiction |].
  cbn [andb length Nat.ltb Nat.leb].
  destruct (Rleb _ _) eqn:Hfit;
    [apply Rleb_true in Hfit | apply Rleb_false in Hfit];
    cbn; split_and!; try reflexivity; intros; (lra || (split; reflexivity)).
Qed.

(** The return leg in both planners.  With [return_to_start] set and at least
    one stop in the route, the leg is added to [total_distance_km] and
    [total_time_minutes] exactly when the time used plus the return walking
    time is within the budget; [return_distance_km] and
    [walking_time_minutes] are computed from the leg in either case. *)
Lemma return_leg_accounting (i : scorer_import) (start_coords : coord)
    (candidate_pois : list poi) (duration_minutes : Z) (user_profile : string)
    (visit_time_per_poi : Z) (scoring_weights : option weights) :
  (forall res,
     plan_route start_coords candidate_pois duration_minutes
       visit_time_per_poi true = Ok res ->
     route res <> [] ->
     exists st,
       route_loop (S (length candidate_pois)) candidate_pois duration_minutes
         visit_time_per_poi (initial_state start_coords) = Ok st /\
       return_leg_report start_coords duration_minutes st res) /\
  (forall pres,
     plan_route_with_preferences i start_coords candidate_pois
       duration_minutes user_profile visit_time_per_poi true scoring_weights
     = Ok pres ->
     route (base_result pres) <> [] ->
     exists ints w st poi_scores,
       pref_loop (S (length candidate_pois)) score_poi ints w candidate_pois
         duration_minutes visit_time_per_poi (initial_state start_coords) []
       = Ok (st, poi_scores) /\
       return_leg_report start_coords duration_minutes st (base_result pres)).
Proof.
  split.
  - intros res. unfold plan_route.
    destruct (route_loop _ _ _ _ _) as [st | e |]; cbn [bind];
      try discriminate.
    intros [= <-] Hne. exists st. split; [reflexivity |].
    apply close_route_return_leg.
    now rewrite (proj1 (close_route_route _ _ _ _ _)) in Hne.
  - intros pres. unfold plan_route_with_preferences.
    destruct i; cbn [score_poi_global]; [| discriminate].
    destruct (lookup_interests _ _) as [ints | e |]; cbn [bind];
      try discriminate.
    destruct (pref_loop _ _ _ _ _ _ _ _ _) as [[st sc] | e |] eqn:Hloop;
      cbn [bind]; try discriminate.
    intros [= <-] Hne. cbn [base_result fst] in *.
    eexists _, _, st, sc. split; [exact Hloop |].
    apply close_route_return_leg.
    now rewrite (proj1 (close_route_route _ _ _ _ _)) in Hne.
Qed.

Lemma half_turn_distance : calculate_distance (0, 0) (0, 180) = 6371 * PI.
Proof.
  unfold calculate_distance, radians, EARTH_RADIUS_KM.
  replace ((0 - 0) * (PI / 180) / 2) with 0 by field.
  replace ((180 - 0) * (PI / 180) / 2) with (PI / 2) by field.
  replace (0 * (PI / 180)) with 0 by field.
  rewrite sin_0, sin_PI2, cos_0.
  replace (0 ^ 2 + 1 * 1 * 1 ^ 2) with 1 by ring.
  rewrite sqrt_1, asin_1. field.
Qed.

Lemma far_run_loop :
  route_loop 2 [far_poi] 305808 0 (initial_state (0, 0)) =
  Ok (advance 0 (initial_state (0, 0)) far_poi (6371 * PI) (0, 180)).
Proof.
  assert (Hfirst :
    find_nearest (0, 0) ∅ [far_poi] = Ok (Some (far_poi, 6371 * PI))).
  { unfold find_nearest. cbn [for_each].
    rewrite (nearest_step_take (0, 0) ∅ None far_poi (0, 180));
      [| split; [set_solver | reflexivity] | reflexivity].
    cbn [bind]. now rewrite half_turn_distance. }
  assert (Hsecond :
    find_nearest (0, 180) ({[ id far_poi ]} ∪ ∅) [far_poi] = Ok None).
  { unfold find_nearest. cbn [for_each].
    rewrite nearest_step_skip by (intros [Hn _]; set_solver). reflexivity. }
  assert (Hfit :
    Rgtb (0 + (estimate_walking_time (6371 * PI) + IZR 0)) (IZR 305808)
    = false).
  { apply Rltb_false. unfold estimate_walking_time, WALKING_SPEED_KMH.
    pose proof PI_4. lra. }
  cbn [route_loop initial_state st_current_position st_visited_ids
       st_time_used].
  rewrite Hfirst. cbn [bind]. rewrite Hfit.
  rewrite (commit_stop_advance 0 _ far_poi _ (0, 180)) by reflexivity.
  cbn [bind advance initial_state st_current_position st_visited_ids].
  now rewrite Hsecond.
Qed.

Lemma far_run :
  plan_route (0, 0) [far_poi] 305808 0 true =
  Ok (close_route (0, 0) 305808 0 true
        (advance 0 (initial_state (0, 0)) far_poi (6371 * PI) (0, 180))).
Proof. apply plan_route_of_loop. exact far_run_loop. Qed.

(** C3. A run on which the code departs from the claim: start (0, 0), one POI
    half a turn around the equator, a budget of 305808 minutes, no visit
    time, return requested.  The way out is committed; the way back does not
    fit and is left out of [total_distance_km] and [total_time_minutes]; yet
    [return_distance_km] is not 0, and [walking_time_minutes] counts the way
    back and is larger than [total_time_minutes]. *)
Theorem unfit_return_leg_is_reported :
  exists st res,
    route_loop 2 [far_poi] 305808 0 (initial_state (0, 0)) = Ok st /\
    plan_route (0, 0) [far_poi] 305808 0 true = Ok res /\
    route res <> [] /\
    st_time_used st
      + estimate_walking_time
          (calculate_distance (st_current_position st) (0, 0))
      > IZR 305808 /\
    total_distance_km res = py_round (st_total_distance st) 2 /\
    total_time_minutes res = py_round (st_time_used st) 1 /\
    return_distance_km res <> 0 /\
    total_time_minutes res < walking_time_minutes res.
Proof.
  eexists _, _. split; [exact far_run_loop |]. split; [exact far_run |].
  assert (Hback : calculate_distance (0, 180) (0, 0) = 6371 * PI).
  { rewrite calculate_distance_sym. exact half_turn_distance. }
  assert (Hover :
    st_time_used (advance 0 (initial_state (0, 0)) far_poi (6371 * PI) (0, 180))
    + estimate_walking_time (6371 * PI) > IZR 305808).
  { cbn [advance st_time_used initial_state].
    unfold estimate_walking_time, WALKING_SPEED_KMH.
    pose proof PI2_1. lra. }
  destruct (close_route_return_leg (0, 0) 305808 0
              (advance 0 (initial_state (0, 0)) far_poi (6371 * PI) (0, 180)))
    as (Hret & Hwalk & _ & Hunfit).
  { simpl. discriminate. }
  cbn [advance st_current_position] in Hret, Hwalk, Hunfit.
  rewrite Hback in Hret, Hwalk, Hunfit.
  destruct (Hunfit Hover) as [Hdist Htime].
  split_and!.
  - rewrite (proj1 (close_route_route _ _ _ _ _)). simpl. discriminate.
  - cbn [advance st_current_position]. rewrite Hback. exact Hover.
  - exact Hdist.
  - exact Htime.
  - rewrite Hret. pose proof (py_round_ge (6371 * PI) 1 2) as Hge.
    pose proof PI2_1. lra.
  - rewrite Htime, Hwalk.
    cbn [advance st_time_used st_route initial_state app sum_walking foldr
         stop_walking_time_minutes].
    pose proof PI_4 as Hhi. pose proof PI2_3_2 as Hlo.
    pose proof (py_round_le (0 + (estimate_walking_time (6371 * PI) + IZR 0))
                  305808 1) as Hle.
    pose proof (py_round_ge
                  (estimate_walking_time (6371 * PI) + 0
                   + estimate_walking_time (6371 * PI)) 458712 1) as Hge.
    unfold estimate_walking_time, WALKING_SPEED_KMH in *.
    lra.
Qed.

(** ** Ranking *)

Section Ranking.

Lemma insert_desc_perm (x : scored_poi) (l : list scored_poi) :
  insert_desc x l ≡ₚ x :: l.
Proof.
  induction l as [| y l IH]; simpl; [reflexivity |].
  destruct (Rltb _ _); [| reflexivity].
  rewrite IH. apply Permutation_swap.
Qed.

Lemma sort_by_score_desc_perm (l : list scored_poi) :
  sort_by_score_desc l ≡ₚ l.
Proof.
  induction l as [| x l IH]; simpl; [reflexivity |].
  now rewrite insert_desc_perm, IH.
Qed.

Lemma insert_desc_sorted (x : scored_poi) (l : list scored_poi) :
  StronglySorted score_ge l -> StronglySorted score_ge (insert_desc x l).
Proof.
  induction 1 as [| y l Hs IH Hall]; simpl.
  - repeat constructor.
  - destruct (Rltb (score x) (score y)) eqn:Hcmp.
    + apply Rltb_true in Hcmp. constructor; [exact IH |].
      rewrite insert_desc_perm. constructor; [| exact Hall].
      unfold score_ge. lra.
    + apply Rltb_false in Hcmp. constructor.
      * now constructor.
      * constructor; [exact Hcmp |].
        eapply Forall_impl; [exact Hall |].
        unfold score_ge. intros z Hz. lra.
Qed.

Lemma sort_by_score_desc_sorted (l : list scored_poi) :
  StronglySorted score_ge (sort_by_score_desc l).
Proof.
  induction l as [| x l IH]; simpl; [constructor |].
  now apply insert_desc_sorted.
Qed.

(** Stability: entries of equal score keep their input order. *)
Lemma insert_desc_stable (v : R) (x : scored_poi) (l : list scored_poi) :
  filter (fun s => score s = v) (insert_desc x l) =
  filter (fun s => score s = v) (x :: l).
Proof.
  induction l as [| y l IH]; simpl; [reflexivity |].
  destruct (Rltb (score x) (score y)) eqn:Hcmp; [| reflexivity].
  apply Rltb_true in Hcmp.
  rewrite (filter_cons _ y (insert_desc x l)), IH.
  rewrite !filter_cons.
  destruct (decide (score y = v)), (decide (score x = v));
    try reflexivity. lra.
Qed.

Lemma sort_by_score_desc_stable (v : R) (l : list scored_poi) :
  filter (fun s => score s = v) (sort_by_score_desc l) =
  filter (fun s => score s = v) l.
Proof.
  induction l as [| x l IH]; simpl; [reflexivity |].
  rewrite insert_desc_stable, !filter_cons, IH. reflexivity.
Qed.

Lemma StronglySorted_take {A : Type} (rel : A -> A -> Prop) (k : nat)
    (l : list A) :
  StronglySorted rel l -> StronglySorted rel (take k l).
Proof.
  intros Hs. revert k. induction Hs as [| x l Hs IH Hall]; intros [| k];
    simpl; try constructor; [apply IH |].
  now apply Forall_take.
Qed.

Lemma slice_to_sorted (n : Z) (l : list scored_poi) :
  StronglySorted score_ge l -> StronglySorted score_ge (slice_to l n).
Proof.
  intros Hs. unfold slice_to.
  destruct (0 <=? n)%Z; now apply StronglySorted_take.
Qed.

Lemma slice_to_length {A : Type} (n : Z) (l : list A) :
  (0 <= n)%Z -> (Z.of_nat (length (slice_to l n)) <= n)%Z.
Proof.
  intros Hn. unfold slice_to.
  rewrite (proj2 (Z.leb_le 0 n) Hn), length_take. lia.
Qed.

Variables (ints : list string) (current_position : coord).
Variable w : option weights.

Lemma for_each_rank (l : list poi) (acc : list scored_poi) :
  forallb lng_where_lat l = true ->
  exists scored,
    for_each (rank_step ints current_position w) acc l = Ok (acc ++ scored) /\
    Forall2 (fun p s => score_poi p ints current_position w = Ok s)
      (ranked_candidates l) scored.
Proof.
  revert acc. induction l as [| x l IH]; intros acc Hall; simpl.
  - exists []. rewrite app_nil_r. split; [reflexivity | constructor].
  - simpl in Hall. apply andb_prop in Hall as [Hx Hl].
    unfold ranked_candidates. rewrite filter_cons.
    unfold rank_step at 1. unfold lng_where_lat in Hx.
    destruct (rank_skips x) eqn:Hskip.
    + cbn [bind].
      destruct (IH acc Hl) as (scored & Hrun & Hsc).
      exists scored. rewrite decide_False by congruence. now split.
    + simpl in Hx. apply negb_true_iff in Hx.
      destruct (poi_position_ok x Hx) as [c Hc].
      destruct (score_poi_ok x ints current_position w c Hc)
        as (s & Hs & _).
      rewrite Hs. cbn [bind].
      destruct (IH (acc ++ [s]) Hl) as (scored & Hrun & Hsc).
      exists (s :: scored). rewrite decide_True by reflexivity.
      split; [| now constructor].
      rewrite Hrun. now rewrite <- app_assoc.
Qed.

End Ranking.

(** What [rank_pois] returns when no candidate has a latitude without a
    longitude. *)
Lemma rank_pois_spec (candidate_pois : list poi) (user_profile : string)
    (current_position : coord) (w : option weights) (top_n : option Z) :
  forallb lng_where_lat candidate_pois = true ->
  exists ints scored full ranked,
    lookup_interests USER_PROFILES user_profile = Ok ints /\
    Forall2 (fun p s => score_poi p ints current_position w = Ok s)
      (ranked_candidates candidate_pois) scored /\
    full = sort_by_score_desc scored /\
    rank_pois candidate_pois user_profile current_position w top_n
    = Ok ranked /\
    ranked = match top_n with Some n => slice_to full n | None => full end.
Proof.
  intros Hall.
  destruct (lookup_interests_registry user_profile) as [ints Hints].
  destruct (for_each_rank ints current_position w candidate_pois [] Hall)
    as (scored & Hrun & Hsc).
  exists ints, scored, (sort_by_score_desc scored).
  eexists. split_and!; try done.
  unfold rank_pois. rewrite Hints. cbn [bind]. rewrite Hrun. cbn [bind app].
  destruct top_n; reflexivity.
Qed.

(** C4 (amended). When every candidate whose ['geo'] has ['lat'] also has
    ['lng'], [rank_pois] scores every candidate that has coordinates, in
    input order, and returns them sorted by descending score with entries of
    equal score in input order.  Without [top_n] all of them are returned;
    with [top_n] the result is the slice [[:top_n]] of that list, still
    sorted, of length at most [top_n] when [top_n] is not negative. *)
Theorem rank_pois_sorted_stable (candidate_pois : list poi)
    (user_profile : string) (current_position : coord) (w : option weights)
    (top_n : option Z) :
  forallb lng_where_lat candidate_pois = true ->
  exists ints scored full ranked,
    lookup_interests USER_PROFILES user_profile = Ok ints /\
    Forall2 (fun p s => score_poi p ints current_position w = Ok s)
      (ranked_candidates candidate_pois) scored /\
    full ≡ₚ scored /\
    StronglySorted score_ge full /\
    (forall v, filter (fun s => score s = v) full
               = filter (fun s => score s = v) scored) /\
    rank_pois candidate_pois user_profile current_position w top_n
    = Ok ranked /\
    StronglySorted score_ge ranked /\
    match top_n with
    | None => ranked = full
    | Some n =>
      ranked = slice_to full n /\
      ((0 <= n)%Z -> (Z.of_nat (length ranked) <= n)%Z)
    end.
Proof.
  intros Hall.
  destruct (rank_pois_spec candidate_pois user_profile current_position w
              top_n Hall)
    as (ints & scored & full & ranked & Hints & Hsc & -> & Hrun & ->).
  exists ints, scored, (sort_by_score_desc scored).
  eexists. split_and!; try done.
  - apply sort_by_score_desc_perm.
  - apply sort_by_score_desc_sorted.
  - intros v. apply sort_by_score_desc_stable.
  - destruct top_n; [apply slice_to_sorted |];
      apply sort_by_score_desc_sorted.
  - destruct top_n as [n |]; [| reflexivity].
    split; [reflexivity | apply slice_to_length].
Qed.

Lemma rank_pois_sorted_stable_witness :
  forallb lng_where_lat [castle; unlocated; tower] = true /\
  exists ints scored full ranked,
    lookup_interests USER_PROFILES "history_lover" = Ok ints /\
    Forall2 (fun p s => score_poi p ints (54.4025, -1.7367) None = Ok s)
      (ranked_candidates [castle; unlocated; tower]) scored /\
    full ≡ₚ scored /\
    StronglySorted score_ge full /\
    (forall v, filter (fun s => score s = v) full
               = filter (fun s => score s = v) scored) /\
    rank_pois [castle; unlocated; tower] "history_lover" (54.4025, -1.7367)
      None (Some 1%Z) = Ok ranked /\
    StronglySorted score_ge ranked /\
    ranked = slice_to full 1 /\
    ((0 <= 1)%Z -> (Z.of_nat (length ranked) <= 1)%Z).
Proof.
  split; [reflexivity |].
  apply (rank_pois_sorted_stable [castle; unlocated; tower] "history_lover"
           (54.4025, -1.7367) None (Some 1%Z)).
  reflexivity.
Defined.

(** C4 (as stated, refuted). A negative [top_n] is a slice bound counted from
    the end: with two candidates and [top_n = -1] one entry is returned,
    which is more than [top_n]. *)
Lemma rank_pois_negative_top_n :
  exists ranked,
    rank_pois [castle; tower] "history_lover" (54.4025, -1.7367) None
      (Some (-1)%Z) = Ok ranked /\
    length ranked = 1%nat /\
    ~ (Z.of_nat (length ranked) <= -1)%Z.
Proof.
  destruct (rank_pois_spec [castle; tower] "history_lover"
              (54.4025, -1.7367) None (Some (-1)%Z) eq_refl)
    as (ints & scored & full & ranked & _ & Hsc & -> & Hrun & ->).
  exists (slice_to (sort_by_score_desc scored) (-1)).
  split; [exact Hrun |].
  assert (Hlen : length (sort_by_score_desc scored) = 2%nat).
  { rewrite (Permutation_length (sort_by_score_desc_perm scored)).
    now rewrite <- (Forall2_length _ _ _ Hsc). }
  assert (Hone : length (slice_to (sort_by_score_desc scored) (-1)) = 1%nat).
  { unfold slice_to. cbn [Z.leb Z.compare]. rewrite length_take, Hlen.
    reflexivity. }
  split; [exact Hone | rewrite Hone; lia].
Qed.

(** C10. A candidate whose ['geo'] has ['lat'] but no ['lng'] passes the
    filter of [rank_pois] and makes the call raise [KeyError] from the
    lookup of ['lng'] in [score_poi], whatever follows it in the list; the
    planners' filter excludes the same candidate, and [plan_route] returns an
    empty route for it. *)
Theorem rank_pois_missing_lng_raises (pid nm : string) (la : R)
    (tags fs cues : option (list string)) (hint : option R)
    (rest : list poi) (user_profile : string) (current_position : coord)
    (w : option weights) (top_n : option Z) (start_coords : coord)
    (duration_minutes visit_time_per_poi : Z) (return_to_start : bool) :
  let p := mk_poi pid nm (Some (mk_geo (Some la) None)) tags fs cues hint in
  rank_skips p = false /\
  score_poi p (match lookup_interests USER_PROFILES user_profile with
               | Ok ints => ints
               | _ => []
               end) current_position w = Raise (KeyError "lng") /\
  rank_pois (p :: rest) user_profile current_position w top_n
  = Raise (KeyError "lng") /\
  missing_coords p = true /\
  exists res,
    plan_route start_coords [p] duration_minutes visit_time_per_poi
      return_to_start = Ok res /\
    route res = [].
Proof.
  intros p. split_and!; try reflexivity.
  - unfold rank_pois.
    destruct (lookup_interests_registry user_profile) as [ints ->].
    reflexivity.
  - eexists. split.
    + unfold plan_route. cbn [route_loop length]. unfold find_nearest.
      cbn [for_each].
      rewrite nearest_step_skip by (intros [_ Hm]; discriminate Hm).
      reflexivity.
    + apply close_route_route.
Qed.

(** * Further properties *)

#[local] Set Warnings "-clear-no-such-hyp".

(** ** Geo distance: bounds and meridians *)

(** X1. The distance is never negative and never more than half the
    circumference of the sphere. *)
Theorem calculate_distance_bounds (a b : coord) :
  0 <= calculate_distance a b <= EARTH_RADIUS_KM * PI.
Proof.
  split; [apply calculate_distance_nonneg |].
  destruct a as [lat1 lng1], b as [lat2 lng2]. unfold calculate_distance.
  match goal with
  | |- context [asin ?x] => pose proof (asin_bound x) as [_ Hup]
  end.
  unfold EARTH_RADIUS_KM. lra.
Qed.

Lemma asin_abs_sin (u : R) :
  - (PI / 2) <= u <= PI / 2 -> asin (Rabs (sin u)) = Rabs u.
Proof.
  intros [Hlo Hhi]. pose proof PI_RGT_0.
  destruct (Rle_dec 0 u) as [Hpos | Hneg].
  - rewrite (Rabs_pos_eq u) by exact Hpos.
    rewrite Rabs_pos_eq by (apply sin_ge_0; lra).
    apply asin_sin. lra.
  - rewrite (Rabs_left u) by lra.
    assert (Hs : 0 <= sin (- u)) by (apply sin_ge_0; lra).
    rewrite sin_neg in Hs.
    rewrite Rabs_left1 by lra. rewrite <- sin_neg.
    apply asin_sin. lra.
Qed.

Lemma meridian_distance (lat1 lat2 ln : R) :
  -180 <= lat2 - lat1 <= 180 ->
  calculate_distance (lat1, ln) (lat2, ln) =
  EARTH_RADIUS_KM * Rabs (radians (lat2 - lat1)).
Proof.
  intros [Hlo Hhi]. unfold calculate_distance.
  replace (radians (ln - ln) / 2) with 0 by (unfold radians; field).
  rewrite sin_0.
  replace (sin (radians (lat2 - lat1) / 2) ^ 2 +
           cos (radians lat1) * cos (radians lat2) * 0 ^ 2)
    with (Rsqr (sin (radians (lat2 - lat1) / 2))) by (unfold Rsqr; ring).
  rewrite sqrt_Rsqr_abs.
  assert (Hk : 0 < PI / 180) by (pose proof PI_RGT_0; lra).
  assert (Hu : - (PI / 2) <= radians (lat2 - lat1) / 2 <= PI / 2).
  { unfold radians. set (k := PI / 180) in *.
    replace (PI / 2) with (180 * k / 2) by (subst k; field). split; nra. }
  rewrite (asin_abs_sin _ Hu).
  replace (radians (lat2 - lat1)) with (2 * (radians (lat2 - lat1) / 2))
    at 2 by field.
  rewrite Rabs_mult, (Rabs_pos_eq 2) by lra. ring.
Qed.

(** X2. Between two points of the same longitude whose latitudes are at most
    180 degrees apart, the distance is the radius times the latitude
    difference in radians. *)
Theorem calculate_distance_along_meridian (lat1 lat2 ln : R) :
  -180 <= lat2 - lat1 <= 180 ->
  calculate_distance (lat1, ln) (lat2, ln) =
  EARTH_RADIUS_KM * Rabs (radians (lat2 - lat1)).
Proof. apply meridian_distance. Qed.

Lemma calculate_distance_along_meridian_witness :
  -180 <= 54.5 - 54.4 <= 180 /\
  calculate_distance (54.4, -1.7) (54.5, -1.7) =
  EARTH_RADIUS_KM * Rabs (radians (54.5 - 54.4)).
Proof.
  split; [lra |]. apply calculate_distance_along_meridian. lra.
Defined.

(** ** Interest match *)

Lemma calculate_interest_match_some (p : poi) (tags ints : list string) :
  vibe_tags p = Some tags ->
  calculate_interest_match p ints =
  if bool_decide (tag_set tags = ∅) || bool_decide (tag_set ints = ∅) then 0
  else INR (size (tag_set tags ∩ tag_set ints))
       / INR (size (tag_set tags ∪ tag_set ints)).
Proof.
  intros Htags. unfold calculate_interest_match. rewrite Htags.
  destruct tags as [| t tags]; [reflexivity |]. cbn [truthy negb].
  destruct (bool_decide (tag_set (t :: tags) = ∅)) eqn:Hempty;
    [reflexivity |].
  cbn [orb]. destruct (bool_decide (tag_set ints = ∅)); [reflexivity |].
  apply bool_decide_eq_false_1 in Hempty.
  assert (Hpos : (0 < size (tag_set (t :: tags) ∪ tag_set ints))%nat).
  { apply Nat.neq_0_lt_0. intros Hz. apply size_empty_inv in Hz.
    apply Hempty. set_solver. }
  now rewrite (proj2 (Nat.ltb_lt _ _) Hpos).
Qed.

Lemma jaccard_range (A B : gset string) :
  A <> ∅ -> 0 <= INR (size (A ∩ B)) / INR (size (A ∪ B)) <= 1.
Proof.
  intros Hne.
  assert (Hpos : (0 < size (A ∪ B))%nat).
  { apply Nat.neq_0_lt_0. intros Hz. apply size_empty_inv in Hz.
    apply Hne. set_solver. }
  assert (Hle : (size (A ∩ B) <= size (A ∪ B))%nat)
    by (apply subseteq_size; set_solver).
  apply lt_INR in Hpos. apply le_INR in Hle. simpl in Hpos.
  pose proof (pos_INR (size (A ∩ B))).
  split.
  - apply Rmult_le_pos; [lra |]. left. now apply Rinv_0_lt_compat.
  - apply Rmult_le_reg_r with (r := INR (size (A ∪ B))); [lra |].
    unfold Rdiv. rewrite Rmult_assoc, Rinv_l by lra. lra.
Qed.

Lemma interest_match_range (p : poi) (ints : list string) :
  0 <= calculate_interest_match p ints <= 1.
Proof.
  destruct (vibe_tags p) as [tags |] eqn:Htags.
  - rewrite (calculate_interest_match_some p tags ints Htags).
    destruct (bool_decide (tag_set tags = ∅)) eqn:Hempty; [simpl; lra |].
    cbn [orb]. destruct (bool_decide (tag_set ints = ∅)); [lra |].
    apply jaccard_range. now apply bool_decide_eq_false_1 in Hempty.
  - unfold calculate_interest_match. rewrite Htags. lra.
Qed.

(** X4. The interest match is a number between 0 and 1. *)
Theorem calculate_interest_match_range (p : poi) (ints : list string) :
  0 <= calculate_interest_match p ints <= 1.
Proof. apply interest_match_range. Qed.

(** X5. The interest match is positive exactly when the POI has a tag that,
    lower-cased, is also a lower-cased interest; a POI without tags, an empty
    interest list, or disjoint tags give 0. *)
Theorem calculate_interest_match_positive_iff (p : poi) (ints : list string) :
  0 < calculate_interest_match p ints <->
  exists tags t,
    vibe_tags p = Some tags /\ t ∈ tag_set tags /\ t ∈ tag_set ints.
Proof.
  split.
  - destruct (vibe_tags p) as [tags |] eqn:Htags.
    + rewrite (calculate_interest_match_some p tags ints Htags).
      destruct (_ || _); [lra |]. intros Hpos.
      assert (Hsize : (0 < size (tag_set tags ∩ tag_set ints))%nat).
      { apply Nat.neq_0_lt_0. intros Hz. rewrite Hz in Hpos.
        unfold Rdiv in Hpos. rewrite Rmult_0_l in Hpos. lra. }
      apply size_pos_elem_of in Hsize as [t Ht].
      exists tags, t. set_solver.
    + unfold calculate_interest_match. rewrite Htags. lra.
  - intros (tags & t & Htags & HtA & HtB).
    rewrite (calculate_interest_match_some p tags ints Htags).
    rewrite bool_decide_eq_false_2 by set_solver.
    rewrite bool_decide_eq_false_2 by set_solver. cbn [orb].
    assert (Hinter : (0 < size (tag_set tags ∩ tag_set ints))%nat).
    { apply Nat.neq_0_lt_0. intros Hz. apply size_empty_inv in Hz.
      set_solver. }
    assert (Hunion : (0 < size (tag_set tags ∪ tag_set ints))%nat).
    { apply Nat.neq_0_lt_0. intros Hz. apply size_empty_inv in Hz.
      set_solver. }
    apply lt_INR in Hinter, Hunion. simpl in Hinter, Hunion.
    now apply Rdiv_lt_0_compat.
Qed.

(** X6. The interest match is 1 exactly when the POI has tags and its
    lower-cased tag set equals the lower-cased interest set. *)
Theorem calculate_interest_match_one_iff (p : poi) (ints : list string) :
  calculate_interest_match p ints = 1 <->
  exists tags,
    vibe_tags p = Some tags /\ tag_set tags <> ∅ /\
    tag_set tags = tag_set ints.
Proof.
  split.
  - destruct (vibe_tags p) as [tags |] eqn:Htags.
    + rewrite (calculate_interest_match_some p tags ints Htags).
      destruct (bool_decide (tag_set tags = ∅)) eqn:Hempty; [simpl; lra |].
      cbn [orb]. destruct (bool_decide (tag_set ints = ∅)); [lra |].
      apply bool_decide_eq_false_1 in Hempty. intros Hone.
      exists tags. split_and!; try done.
      assert (Hunion : (0 < size (tag_set tags ∪ tag_set ints))%nat).
      { apply Nat.neq_0_lt_0. intros Hz. apply size_empty_inv in Hz.
        set_solver. }
      assert (Heq : INR (size (tag_set tags ∩ tag_set ints))
                    = INR (size (tag_set tags ∪ tag_set ints))).
      { apply lt_INR in Hunion. simpl in Hunion.
        apply Rmult_eq_reg_r
          with (r := / INR (size (tag_set tags ∪ tag_set ints)));
          [| apply Rinv_neq_0_compat; lra].
        rewrite Rinv_r by lra. exact Hone. }
      apply INR_eq in Heq.
      assert (Hsets : tag_set tags ∩ tag_set ints
                      ≡ tag_set tags ∪ tag_set ints).
      { apply set_subseteq_size_equiv; [set_solver | lia]. }
      apply leibniz_equiv. set_solver.
    + unfold calculate_interest_match. rewrite Htags. lra.
  - intros (tags & Htags & Hne & Heq).
    rewrite (calculate_interest_match_some p tags ints Htags).
    rewrite <- Heq. rewrite bool_decide_eq_false_2 by exact Hne. cbn [orb].
    replace (tag_set tags ∩ tag_set tags) with (tag_set tags)
      by (apply leibniz_equiv; set_solver).
    replace (tag_set tags ∪ tag_set tags) with (tag_set tags)
      by (apply leibniz_equiv; set_solver).
    assert (Hpos : (0 < size (tag_set tags))%nat).
    { apply Nat.neq_0_lt_0. intros Hz. apply size_empty_inv in Hz.
      apply Hne. now apply leibniz_equiv. }
    apply lt_INR in Hpos. simpl in Hpos. field. lra.
Qed.

Lemma lower_ascii_idem (c : ascii) : lower_ascii (lower_ascii c) = lower_ascii c.
Proof. destruct c as [[] [] [] [] [] [] [] []]; reflexivity. Qed.

Lemma lower_idem (s : string) : lower (lower s) = lower s.
Proof.
  induction s as [| c s IH]; simpl; [reflexivity |].
  now rewrite lower_ascii_idem, IH.
Qed.

Lemma tag_set_lower (l : list string) : tag_set (lower <$> l) = tag_set l.
Proof.
  unfold tag_set. f_equal. rewrite <- list_fmap_compose.
  apply list_fmap_ext. intros _ s _. apply lower_idem.
Qed.

(** X7. Matching ignores letter case: lower-casing the tags of the POI and the
    interests does not change the interest match. *)
Theorem calculate_interest_match_ignores_case (p : poi)
    (tags ints : list string) :
  vibe_tags p = Some tags ->
  calculate_interest_match (with_tags p (Some (lower <$> tags)))
    (lower <$> ints) =
  calculate_interest_match p ints.
Proof.
  intros Htags.
  rewrite (calculate_interest_match_some p tags ints Htags).
  rewrite (calculate_interest_match_some
             (with_tags p (Some (lower <$> tags))) (lower <$> tags)
             (lower <$> ints)) by reflexivity.
  now rewrite !tag_set_lower.
Qed.

Lemma calculate_interest_match_ignores_case_witness :
  calculate_interest_match
    (with_tags castle (Some (lower <$> ["History"; "MEDIEVAL"])))
    (lower <$> ["history"; "Medieval"; "military"]) =
  calculate_interest_match (with_tags castle (Some ["History"; "MEDIEVAL"]))
    ["history"; "Medieval"; "military"].
Proof.
  apply (calculate_interest_match_ignores_case
           (with_tags castle (Some ["History"; "MEDIEVAL"]))
           ["History"; "MEDIEVAL"] ["history"; "Medieval"; "military"]).
  reflexivity.
Defined.

(** ** Scoring one POI *)

Lemma calculate_distance_penalty_range (d m : R) :
  0 < m -> 0 <= d -> 0 <= calculate_distance_penalty d m <= 1.
Proof.
  intros Hm Hd. unfold calculate_distance_penalty.
  assert (0 <= d / m).
  { apply Rmult_le_pos; [exact Hd |]. left. now apply Rinv_0_lt_compat. }
  unfold Rmin. destruct (Rle_dec (d / m) 1); lra.
Qed.

Lemma calculate_popularity_score_range (p : poi) :
  5 / 10 <= calculate_popularity_score p <= 1.
Proof.
  rewrite calculate_popularity_score_spec. unfold popularity_spec.
  pose proof (heuristic_estimate_range (facts_present p)
                (visual_cues_present p)) as Hh.
  set (h := heuristic_estimate _ _) in *.
  destruct (source_reliability p) as [q |];
    [unfold Rmax; destruct (Rle_dec h q) |];
    unfold Rmin; destruct (Rle_dec _ 1); lra.
Qed.


(** X9. With weights that are not negative, a score lies between [-delta] and
    [alpha + beta]; its components are an interest match in [0, 1], a
    popularity in [0.5, 1], a distance that is not negative and a distance
    penalty in [0, 1], and the score is their weighted combination. *)
Theorem score_poi_bounds (p : poi) (ints : list string)
    (current_position : coord) (w : option weights) (s : scored_poi) :
  0 <= alpha (weights_used w) -> 0 <= beta (weights_used w) ->
  0 <= delta (weights_used w) ->
  score_poi p ints current_position w = Ok s ->
  - delta (weights_used w) <= score s
    <= alpha (weights_used w) + beta (weights_used w) /\
  0 <= interest_match (components s) <= 1 /\
  5 / 10 <= popularity (components s) <= 1 /\
  0 <= distance_km (components s) /\
  0 <= distance_penalty (components s) <= 1 /\
  score s =
    alpha (weights_used w) * interest_match (components s)
    + beta (weights_used w) * popularity (components s)
    - delta (weights_used w) * distance_penalty (components s).
Proof.
  intros Ha Hb Hd. unfold score_poi.
  destruct (geo p) as [[[la |] [ln |]] |]; cbn [getitem bind];
    try discriminate.
  intros [= <-]. cbn [score components interest_match popularity distance_km
                      distance_penalty].
  fold (weights_used w).
  pose proof (interest_match_range p ints) as Hi.
  pose proof (calculate_popularity_score_range p) as Hp.
  pose proof (calculate_distance_nonneg current_position (la, ln)) as Hdist.
  pose proof (calculate_distance_penalty_range _ 2 ltac:(lra) Hdist) as Hpen.
  split_and!; try lra; try reflexivity; nra.
Qed.

Lemma score_poi_bounds_witness :
  exists s,
    score_poi castle ["history"; "medieval"] (54.4025, -1.7367) None = Ok s /\
    - delta DEFAULT_WEIGHTS <= score s
      <= alpha DEFAULT_WEIGHTS + beta DEFAULT_WEIGHTS.
Proof.
  eexists. split; [reflexivity |].
  apply (score_poi_bounds castle ["history"; "medieval"] (54.4025, -1.7367)
           None); [simpl; lra | simpl; lra | simpl; lra | reflexivity].
Defined.

(** ** The candidate scan of the preference planner *)

Section BestScanSpec.

Variables (ints : list string) (w : option weights).
Variables (current_position : coord) (visited_ids : gset string).

Lemma best_step_scored (acc : option (poi * R * R)) (p : poi)
    (sc : scored_poi) :
  eligible visited_ids p ->
  score_poi p ints current_position w = Ok sc ->
  best_step score_poi ints w current_position visited_ids acc p =
  Ok (match acc with
      | None => Some (p, score sc, distance_km (components sc))
      | Some (_, s0, _) =>
        if Rgtb (score sc) s0
        then Some (p, score sc, distance_km (components sc))
        else acc
      end).
Proof.
  intros [Hv Hm] Hs. unfold best_step.
  rewrite bool_decide_eq_false_2 by exact Hv. rewrite Hm, Hs. cbn [bind].
  destruct acc as [[[p0 s0] d0] |]; [destruct (Rgtb _ _) |]; reflexivity.
Qed.

Lemma best_first_cons (x : poi) (l : list poi) (p : poi) (s d : R) :
  best_first ints w current_position visited_ids l p s d ->
  (forall sx, eligible visited_ids x ->
              score_poi x ints current_position w = Ok sx -> score sx < s) ->
  best_first ints w current_position visited_ids (x :: l) p s d.
Proof.
  intros (l1 & l2 & sc & -> & He & Hs & Hsc & Hd & Hfront & Hback) Hx.
  exists (x :: l1), l2, sc. split_and!; try done.
  intros q sq [-> | Hq]%elem_of_cons Hel Hq'; eauto.
Qed.

Lemma for_each_best_spec (l : list poi) (acc : option (poi * R * R)) :
  exists r,
    for_each (best_step score_poi ints w current_position visited_ids) acc l
    = Ok r /\
    ((r = acc /\
      forall q sq, q ∈ l -> eligible visited_ids q ->
        score_poi q ints current_position w = Ok sq ->
        match acc with None => False | Some (_, s0, _) => score sq <= s0 end)
     \/
     (exists p s d, r = Some (p, s, d) /\
        best_first ints w current_position visited_ids l p s d /\
        match acc with None => True | Some (_, s0, _) => s0 < s end)).
Proof.
  revert acc. induction l as [| x l IH]; intros acc; cbn [for_each].
  - exists acc. split; [reflexivity |]. left. split; [reflexivity |].
    intros q sq Hq. now apply elem_of_nil in Hq.
  - destruct (decide (eligible visited_ids x)) as [Hel | Hnel].
    + destruct (poi_position_ok x (proj2 Hel)) as [c Hc].
      destruct (score_poi_ok x ints current_position w c Hc)
        as (sx & Hsx & _ & _).
      rewrite (best_step_scored acc x sx Hel Hsx). cbn [bind].
      assert (Hsame : forall sq,
                score_poi x ints current_position w = Ok sq -> sq = sx).
      { intros sq Hq. rewrite Hsx in Hq. now injection Hq as ->. }
      set (taken := Some (x, score sx, distance_km (components sx))).
      set (acc' := match acc with
                   | None => taken
                   | Some (_, s0, _) =>
                     if Rgtb (score sx) s0 then taken else acc
                   end).
      assert (Hacc' :
        (acc' = taken /\
         match acc with None => True | Some (_, s0, _) => s0 < score sx end)
        \/
        (acc' = acc /\
         exists p0 s0 d0, acc = Some (p0, s0, d0) /\ score sx <= s0)).
      { subst acc'. destruct acc as [[[p0 s0] d0] |]; [| now left].
        unfold Rgtb. destruct (Rltb s0 (score sx)) eqn:Hlt.
        - left. now apply Rltb_true in Hlt.
        - right. apply Rltb_false in Hlt. eauto 6. }
      clearbody acc'.
      destruct (IH acc') as (r & Hr & Hspec). exists r. split; [exact Hr |].
      destruct Hacc' as [[-> Hcl] | [-> (p0 & s0 & d0 & -> & Hge)]].
      * right. subst taken.
        destruct Hspec as [[-> Hall] | (p & s & d & -> & Hbf & Hlt)].
        -- exists x, (score sx), (distance_km (components sx)).
           split; [reflexivity |]. split; [| exact Hcl].
           exists [], l, sx. split_and!; try done.
           all: intros q sq Hq; try (now apply elem_of_nil in Hq); eauto.
        -- exists p, s, d. split; [reflexivity |]. split.
           ++ apply best_first_cons; [exact Hbf |].
              intros sq _ Hq. rewrite (Hsame sq Hq). exact Hlt.
           ++ destruct acc as [[[p0 s0] d0] |]; [lra | exact I].
      * destruct Hspec as [[-> Hall] | (p & s & d & -> & Hbf & Hlt)].
        -- left. split; [reflexivity |].
           intros q sq [-> | Hq]%elem_of_cons Hqe Hqs.
           ++ rewrite (Hsame sq Hqs). exact Hge.
           ++ exact (Hall q sq Hq Hqe Hqs).
        -- right. exists p, s, d. split; [reflexivity |]. split; [| exact Hlt].
           apply best_first_cons; [exact Hbf |].
           intros sq _ Hq. rewrite (Hsame sq Hq). lra.
    + rewrite (best_step_skip ints w current_position visited_ids acc x Hnel).
      cbn [bind].
      destruct (IH acc) as (r & Hr & Hspec). exists r. split; [exact Hr |].
      destruct Hspec as [[-> Hall] | (p & s & d & -> & Hbf & Hlt)].
      * left. split; [reflexivity |].
        intros q sq [-> | Hq]%elem_of_cons Hqe Hqs; [contradiction |].
        exact (Hall q sq Hq Hqe Hqs).
      * right. exists p, s, d. split; [reflexivity |]. split; [| exact Hlt].
        apply best_first_cons; [exact Hbf |]. intros sx Hx. contradiction.
Qed.

Lemma find_best_first (l : list poi) :
  (find_best score_poi ints w current_position visited_ids l = Ok None /\
   forall q, q ∈ l -> ~ eligible visited_ids q) \/
  (exists p s d,
     find_best score_poi ints w current_position visited_ids l
     = Ok (Some (p, s, d)) /\
     best_first ints w current_position visited_ids l p s d).
Proof.
  unfold find_best.
  destruct (for_each_best_spec l None) as (r & -> & [[-> Hall] | Hsome]).
  - left. split; [reflexivity |]. intros q Hq Hel.
    destruct (poi_position_ok q (proj2 Hel)) as [cq Hcq].
    destruct (score_poi_ok q ints current_position w cq Hcq) as (sq & Hsq & _).
    eauto.
  - right. destruct Hsome as (p & s & d & -> & Hbf & _). eauto.
Qed.

Lemma best_first_elem (l : list poi) (p : poi) (s d : R) :
  best_first ints w current_position visited_ids l p s d ->
  p ∈ l /\ eligible visited_ids p /\
  exists c, poi_position p = Ok c /\
            d = calculate_distance current_position c.
Proof.
  intros (l1 & l2 & sc & -> & Hel & Hsc & _ & -> & _).
  split_and!; [set_solver | done |].
  destruct (poi_position_ok p (proj2 Hel)) as [c Hc]. exists c.
  split; [exact Hc |].
  destruct (score_poi_ok p ints current_position w c Hc) as (s' & Hs' & _ & Hd).
  rewrite Hsc in Hs'. now injection Hs' as ->.
Qed.

End BestScanSpec.

(** ** The selection loop of the preference planner *)

Section PrefLoop.

Variables (ints : list string) (w : option weights).
Variable candidate_pois : list poi.
Variables duration_minutes visit_time_per_poi : Z.
Variable Inv : plan_state -> list R -> Prop.

Hypothesis Inv_advance : forall st scores p s d c,
  Inv st scores ->
  best_first ints w (st_current_position st) (st_visited_ids st)
    candidate_pois p s d ->
  poi_position p = Ok c ->
  time_after visit_time_per_poi st d <= IZR duration_minutes ->
  Inv (advance visit_time_per_poi st p d c) (scores ++ [s]).

Lemma pref_loop_inv (fuel : nat) (st : plan_state) (scores : list R) :
  (remaining (st_visited_ids st) candidate_pois < fuel)%nat ->
  Inv st scores ->
  exists st' scores',
    pref_loop fuel score_poi ints w candidate_pois duration_minutes
      visit_time_per_poi st scores = Ok (st', scores') /\
    Inv st' scores' /\
    pref_exhausted ints w candidate_pois duration_minutes visit_time_per_poi
      st'.
Proof.
  revert st scores.
  induction fuel as [| fuel IH]; intros st scores Hfuel Hinv; [lia |].
  cbn [pref_loop].
  destruct (find_best_first ints w (st_current_position st)
              (st_visited_ids st) candidate_pois)
    as [[-> Hall] | (p & s & d & -> & Hbf)]; cbn [bind].
  - exists st, scores. split_and!; [done | done | now left].
  - unfold Rgtb. destruct (Rltb _ _) eqn:Hcmp.
    + apply Rltb_true in Hcmp.
      exists st, scores. split_and!; [done | done |].
      right. exists p, s, d. split; [exact Hbf |]. unfold time_after. lra.
    + apply Rltb_false in Hcmp.
      destruct (best_first_elem _ _ _ _ _ _ _ _ Hbf)
        as (Hin & Hel & c & Hc & _).
      rewrite (commit_stop_advance _ _ _ _ c Hc). cbn [bind].
      apply IH.
      * pose proof (remaining_decreases _ _ _ Hin Hel). simpl. lia.
      * apply Inv_advance; try done; unfold time_after; lra.
Qed.

End PrefLoop.

(** The final state of [plan_route]. *)
Lemma plan_route_final_state (start_coords : coord)
    (candidate_pois : list poi) (duration_minutes visit_time_per_poi : Z)
    (return_to_start : bool) :
  exists st,
    plan_route start_coords candidate_pois duration_minutes visit_time_per_poi
      return_to_start =
    Ok (close_route start_coords duration_minutes visit_time_per_poi
          return_to_start st) /\
    greedy_reachable start_coords candidate_pois duration_minutes
      visit_time_per_poi st /\
    exhausted candidate_pois duration_minutes visit_time_per_poi st.
Proof.
  destruct (route_loop_inv candidate_pois duration_minutes visit_time_per_poi
              (greedy_reachable start_coords candidate_pois duration_minutes
                 visit_time_per_poi))
    with (fuel := S (length candidate_pois))
         (st := initial_state start_coords) as (st & Hloop & Hreach & Hstop).
  - intros st p d c Hst Hnf Hc Hfit. now apply reach_advance.
  - apply plan_route_fuel.
  - apply reach_initial.
  - exists st. split_and!; [exact (plan_route_of_loop _ _ _ _ _ _ Hloop) | done | done].
Qed.

(** The final state of [plan_route_with_preferences]. *)
Lemma plan_route_with_preferences_final_state (start_coords : coord)
    (candidate_pois : list poi) (duration_minutes : Z) (user_profile : string)
    (visit_time_per_poi : Z) (return_to_start : bool)
    (scoring_weights : option weights) :
  exists ints st scores,
    lookup_interests USER_PROFILES user_profile = Ok ints /\
    plan_route_with_preferences Imported start_coords candidate_pois
      duration_minutes user_profile visit_time_per_poi return_to_start
      scoring_weights =
    Ok (mk_pref_result
          (close_route start_coords duration_minutes visit_time_per_poi
             return_to_start st)
          user_profile scores) /\
    pref_reachable ints (Some (weights_used scoring_weights)) start_coords
      candidate_pois duration_minutes visit_time_per_poi st scores /\
    pref_exhausted ints (Some (weights_used scoring_weights)) candidate_pois
      duration_minutes visit_time_per_poi st.
Proof.
  destruct (lookup_interests_registry user_profile) as [ints Hints].
  destruct (pref_loop_inv ints (Some (weights_used scoring_weights))
              candidate_pois duration_minutes visit_time_per_poi
              (pref_reachable ints (Some (weights_used scoring_weights))
                 start_coords candidate_pois duration_minutes
                 visit_time_per_poi))
    with (fuel := S (length candidate_pois))
         (st := initial_state start_coords) (scores := @nil R)
    as (st & scores & Hloop & Hreach & Hstop).
  - intros st scores p s d c Hst Hbf Hc Hfit. now apply pref_advance.
  - apply plan_route_fuel.
  - apply pref_initial.
  - exists ints, st, scores. split_and!; try done.
    unfold plan_route_with_preferences.
    cbn [score_poi_global USER_PROFILES_global DEFAULT_WEIGHTS_global].
    rewrite Hints. cbn [bind].
    replace (match scoring_weights with
             | Some w => Some w
             | None => Some DEFAULT_WEIGHTS
             end) with (Some (weights_used scoring_weights))
      by (now destruct scoring_weights).
    rewrite Hloop. reflexivity.
Qed.

(** ** What every route looks like *)

Lemma route_end_snoc (previous : coord) (r : list route_stop)
    (stop : route_stop) (c : coord) :
  poi_position (stop_poi stop) = Ok c ->
  route_end previous (r ++ [stop]) = c.
Proof.
  intros Hc. revert previous. induction r as [| s0 r IH]; intros previous;
    simpl; [now rewrite Hc | apply IH].
Qed.

Lemma legs_chain_snoc (previous : coord) (r : list route_stop)
    (stop : route_stop) (c : coord) :
  legs_chain previous r ->
  poi_position (stop_poi stop) = Ok c ->
  distance_from_previous_km stop = calculate_distance (route_end previous r) c ->
  stop_walking_time_minutes stop =
    estimate_walking_time (distance_from_previous_km stop) ->
  legs_chain previous (r ++ [stop]).
Proof.
  revert previous. induction r as [| s0 r IH]; intros previous Hchain Hc Hd Hw.
  - simpl in *. exists c. split_and!; done.
  - simpl in Hchain, Hd. destruct Hchain as (c0 & Hc0 & Hd0 & Hw0 & Hrest).
    rewrite Hc0 in Hd. simpl. exists c0. split_and!; try done.
    now apply IH.
Qed.

Lemma sum_distance_snoc (r : list route_stop) (stop : route_stop) :
  sum_distance (r ++ [stop]) = sum_distance r + distance_from_previous_km stop.
Proof.
  unfold sum_distance. induction r as [| s0 r IH]; simpl; [lra |].
  rewrite IH. lra.
Qed.

Lemma greedy_reachable_walk (start_coords : coord) (candidate_pois : list poi)
    (duration_minutes visit_time_per_poi : Z) (st : plan_state) :
  greedy_reachable start_coords candidate_pois duration_minutes
    visit_time_per_poi st ->
  walk_reachable start_coords candidate_pois visit_time_per_poi st.
Proof.
  induction 1 as [| st p d c _ IH Hnf Hc _]; [constructor |].
  destruct (nearest_first_elem _ _ _ _ _ Hnf) as (Hin & Hel & _).
  destruct Hnf as (_ & _ & c' & _ & _ & Hc' & -> & _).
  rewrite Hc in Hc'. injection Hc' as <-.
  now constructor.
Qed.

Lemma pref_reachable_walk (ints : list string) (w : option weights)
    (start_coords : coord) (candidate_pois : list poi)
    (duration_minutes visit_time_per_poi : Z) (st : plan_state)
    (scores : list R) :
  pref_reachable ints w start_coords candidate_pois duration_minutes
    visit_time_per_poi st scores ->
  walk_reachable start_coords candidate_pois visit_time_per_poi st /\
  length scores = length (st_route st) /\
  ((0 <= duration_minutes)%Z -> st_time_used st <= IZR duration_minutes).
Proof.
  induction 1 as [| st scores p s d c _ (IH & Hlen & Htime) Hbf Hc Hfit].
  - split_and!; [constructor | reflexivity |]. intros Hd. simpl.
    now apply IZR_le.
  - destruct (best_first_elem _ _ _ _ _ _ _ _ Hbf)
      as (Hin & Hel & c' & Hc' & ->).
    rewrite Hc in Hc'. injection Hc' as <-.
    split_and!; [now constructor | | intros _; exact Hfit].
    rewrite advance_route_length, length_app. simpl. lia.
Qed.

Lemma walk_reachable_stops (start_coords : coord) (candidate_pois : list poi)
    (visit_time_per_poi : Z) (st : plan_state) :
  walk_reachable start_coords candidate_pois visit_time_per_poi st ->
  st_visited_ids st = list_to_set (stop_ids (st_route st)) /\
  NoDup (stop_ids (st_route st)) /\
  Forall (fun stop => stop_poi stop ∈ candidate_pois /\
                      missing_coords (stop_poi stop) = false) (st_route st).
Proof.
  induction 1 as [| st p c _ (Hvis & Hnd & Hall) Hin [Hnew Hloc] Hc].
  - split_and!; [reflexivity | constructor | constructor].
  - cbn [advance st_route st_visited_ids]. unfold stop_ids in *.
    rewrite fmap_app. cbn [fmap list_fmap stop_poi].
    split_and!.
    + rewrite Hvis, list_to_set_snoc_L. apply leibniz_equiv. set_solver.
    + apply NoDup_app. split_and!; [exact Hnd | | apply NoDup_singleton].
      intros x Hx ->%list_elem_of_singleton.
      apply Hnew. rewrite Hvis. now apply elem_of_list_to_set.
    + apply Forall_app. split; [exact Hall |]. now repeat constructor.
Qed.

Lemma walk_reachable_accounts (start_coords : coord)
    (candidate_pois : list poi) (visit_time_per_poi : Z) (st : plan_state) :
  walk_reachable start_coords candidate_pois visit_time_per_poi st ->
  st_current_position st = route_end start_coords (st_route st) /\
  legs_chain start_coords (st_route st) /\
  st_total_distance st = sum_distance (st_route st) /\
  st_time_used st =
    sum_walking (st_route st)
    + IZR (Z.of_nat (length (st_route st)) * visit_time_per_poi).
Proof.
  induction 1 as [| st p c _ (Hpos & Hchain & Hdist & Htime) Hin Hel Hc].
  - cbn [initial_state st_route st_current_position st_total_distance
         st_time_used length route_end legs_chain].
    split_and!; try done. unfold sum_walking. cbn [foldr].
    change (Z.of_nat 0) with 0%Z. rewrite Z.mul_0_l. lra.
  - cbn [advance st_route st_current_position st_total_distance st_time_used].
    split_and!.
    + symmetry. now apply route_end_snoc.
    + apply legs_chain_snoc with (c := c); try done.
      cbn [distance_from_previous_km]. now rewrite Hpos.
    + rewrite sum_distance_snoc, Hdist. reflexivity.
    + rewrite sum_walking_snoc, Htime, length_app.
      cbn [stop_walking_time_minutes length].
      rewrite !mult_IZR, Nat2Z.inj_add, plus_IZR.
      change (IZR (Z.of_nat 1)) with 1. ring.
Qed.

(** X10. With the scorer imported, the route of [plan_route_with_preferences]
    is built greedily by score: each step takes the eligible unvisited
    candidate of maximal score from the current position (the first such in
    input order) and only when it fits the budget; the loop stops for good
    when no candidate is left or the best one would exceed the budget; and
    [poi_scores] has one score per stop. *)
Theorem plan_route_with_preferences_greedy_best (start_coords : coord)
    (candidate_pois : list poi) (duration_minutes : Z) (user_profile : string)
    (visit_time_per_poi : Z) (return_to_start : bool)
    (scoring_weights : option weights) :
  exists ints st pres,
    lookup_interests USER_PROFILES user_profile = Ok ints /\
    plan_route_with_preferences Imported start_coords candidate_pois
      duration_minutes user_profile visit_time_per_poi return_to_start
      scoring_weights = Ok pres /\
    base_result pres =
      close_route start_coords duration_minutes visit_time_per_poi
        return_to_start st /\
    pref_reachable ints (Some (weights_used scoring_weights)) start_coords
      candidate_pois duration_minutes visit_time_per_poi st
      (poi_scores_of pres) /\
    pref_exhausted ints (Some (weights_used scoring_weights)) candidate_pois
      duration_minutes visit_time_per_poi st /\
    length (poi_scores_of pres) = length (route (base_result pres)).
Proof.
  destruct (plan_route_with_preferences_final_state start_coords
              candidate_pois duration_minutes user_profile visit_time_per_poi
              return_to_start scoring_weights)
    as (ints & st & scores & Hints & Hrun & Hreach & Hstop).
  exists ints, st. eexists. split_and!; try done.
  cbn [poi_scores_of base_result].
  rewrite (proj1 (close_route_route _ _ _ _ _)).
  now destruct (pref_reachable_walk _ _ _ _ _ _ _ _ Hreach) as (_ & -> & _).
Qed.

(** X11. With the scorer imported and a budget that is not negative, the result
    of [plan_route_with_preferences] stays within the budget. *)
Theorem plan_route_with_preferences_within_budget (start_coords : coord)
    (candidate_pois : list poi) (duration_minutes : Z) (user_profile : string)
    (visit_time_per_poi : Z) (return_to_start : bool)
    (scoring_weights : option weights) :
  (0 <= duration_minutes)%Z ->
  exists pres,
    plan_route_with_preferences Imported start_coords candidate_pois
      duration_minutes user_profile visit_time_per_poi return_to_start
      scoring_weights = Ok pres /\
    total_time_minutes (base_result pres) <= IZR duration_minutes /\
    0 <= time_remaining (base_result pres).
Proof.
  intros Hd.
  destruct (plan_route_with_preferences_final_state start_coords
              candidate_pois duration_minutes user_profile visit_time_per_poi
              return_to_start scoring_weights)
    as (ints & st & scores & _ & Hrun & Hreach & _).
  eexists. split; [exact Hrun |]. cbn [base_result].
  apply close_route_time.
  destruct (pref_reachable_walk _ _ _ _ _ _ _ _ Hreach) as (_ & _ & Htime).
  now apply Htime.
Qed.

Lemma plan_route_with_preferences_within_budget_witness :
  (0 <= 45)%Z /\
  exists pres,
    plan_route_with_preferences Imported (54.4025, -1.7367)
      [castle; unlocated; tower] 45 "history_lover" 5 true None = Ok pres /\
    total_time_minutes (base_result pres) <= IZR 45 /\
    0 <= time_remaining (base_result pres).
Proof.
  split; [lia |]. apply plan_route_with_preferences_within_budget. lia.
Defined.

(** X12. In the route of either planner no POI id occurs twice, and every stop
    is one of the candidates and has both coordinates. *)
Theorem routes_visit_distinct_located_candidates (start_coords : coord)
    (candidate_pois : list poi) (duration_minutes : Z) (user_profile : string)
    (visit_time_per_poi : Z) (return_to_start : bool)
    (scoring_weights : option weights) :
  (exists res,
     plan_route start_coords candidate_pois duration_minutes
       visit_time_per_poi return_to_start = Ok res /\
     distinct_located_stops candidate_pois (route res)) /\
  (exists pres,
     plan_route_with_preferences Imported start_coords candidate_pois
       duration_minutes user_profile visit_time_per_poi return_to_start
       scoring_weights = Ok pres /\
     distinct_located_stops candidate_pois (route (base_result pres))).
Proof.
  split.
  - destruct (plan_route_final_state start_coords candidate_pois
                duration_minutes visit_time_per_poi return_to_start)
      as (st & Hrun & Hreach & _).
    eexists. split; [exact Hrun |].
    rewrite (proj1 (close_route_route _ _ _ _ _)).
    apply greedy_reachable_walk, walk_reachable_stops in Hreach.
    unfold distinct_located_stops. tauto.
  - destruct (plan_route_with_preferences_final_state start_coords
                candidate_pois duration_minutes user_profile
                visit_time_per_poi return_to_start scoring_weights)
      as (ints & st & scores & _ & Hrun & Hreach & _).
    eexists. split; [exact Hrun |]. cbn [base_result].
    rewrite (proj1 (close_route_route _ _ _ _ _)).
    apply pref_reachable_walk in Hreach as (Hwalk & _).
    apply walk_reachable_stops in Hwalk.
    unfold distinct_located_stops. tauto.
Qed.

Lemma close_route_accounts (start_coords : coord) (candidate_pois : list poi)
    (duration_minutes visit_time_per_poi : Z) (st : plan_state) :
  walk_reachable start_coords candidate_pois visit_time_per_poi st ->
  route_accounts start_coords duration_minutes visit_time_per_poi
    (close_route start_coords duration_minutes visit_time_per_poi false st).
Proof.
  intros Hwalk.
  destruct (walk_reachable_accounts _ _ _ _ Hwalk)
    as (_ & Hchain & Hdist & Htime).
  unfold route_accounts, close_route.
  cbn [andb route pois_visited visit_time_minutes total_distance_km
       walking_time_minutes total_time_minutes time_remaining
       return_distance_km].
  rewrite Rplus_0_r, Hdist, Htime. split_and!; reflexivity || exact Hchain.
Qed.

(** X13. Without return leg the books of either planner balance: each stop
    records the distance from the position before it and the walking time of
    that distance, [total_distance_km] and [walking_time_minutes] are the
    rounded sums over the stops, [visit_time_minutes] is the visit time times
    the number of stops, [total_time_minutes] is the rounded sum of walking
    and visiting, and [time_remaining] is the budget minus that sum. *)
Theorem routes_account_for_every_leg (start_coords : coord)
    (candidate_pois : list poi) (duration_minutes : Z) (user_profile : string)
    (visit_time_per_poi : Z) (scoring_weights : option weights) :
  (exists res,
     plan_route start_coords candidate_pois duration_minutes
       visit_time_per_poi false = Ok res /\
     route_accounts start_coords duration_minutes visit_time_per_poi res) /\
  (exists pres,
     plan_route_with_preferences Imported start_coords candidate_pois
       duration_minutes user_profile visit_time_per_poi false
       scoring_weights = Ok pres /\
     route_accounts start_coords duration_minutes visit_time_per_poi
       (base_result pres)).
Proof.
  split.
  - destruct (plan_route_final_state start_coords candidate_pois
                duration_minutes visit_time_per_poi false)
      as (st & Hrun & Hreach & _).
    eexists. split; [exact Hrun |].
    eapply close_route_accounts, greedy_reachable_walk, Hreach.
  - destruct (plan_route_with_preferences_final_state start_coords
                candidate_pois duration_minutes user_profile
                visit_time_per_poi false scoring_weights)
      as (ints & st & scores & _ & Hrun & Hreach & _).
    eexists. split; [exact Hrun |]. cbn [base_result].
    eapply close_route_accounts.
    exact (proj1 (pref_reachable_walk _ _ _ _ _ _ _ _ Hreach)).
Qed.

(** ** How the route depends on the budget and on the candidates *)

Lemma commit_stop_route (st st' : plan_state) (p : poi) (d wt t : R) :
  commit_stop st p d wt t = Ok st' ->
  st_route st' = st_route st ++ [mk_stop p d wt].
Proof.
  unfold commit_stop. destruct (poi_position p) as [c | e |]; cbn [bind];
    try discriminate.
  now intros [= <-].
Qed.

Lemma route_loop_extends (candidate_pois : list poi)
    (duration_minutes visit_time_per_poi : Z) (fuel : nat)
    (st st' : plan_state) :
  route_loop fuel candidate_pois duration_minutes visit_time_per_poi st
  = Ok st' ->
  st_route st `prefix_of` st_route st'.
Proof.
  revert st. induction fuel as [| fuel IH]; intros st; cbn [route_loop];
    [discriminate |].
  destruct (find_nearest _ _ _) as [[[p d] |] | e |]; cbn [bind];
    try discriminate; [| now intros [= <-]].
  destruct (Rgtb _ _); [now intros [= <-] |].
  destruct (commit_stop _ _ _ _ _) as [st1 | e |] eqn:Hcommit; cbn [bind];
    try discriminate.
  intros Hloop. apply IH in Hloop. apply commit_stop_route in Hcommit.
  rewrite Hcommit in Hloop.
  etransitivity; [| exact Hloop]. now apply prefix_app_r.
Qed.

Lemma route_loop_budget_mono (candidate_pois : list poi)
    (d1 d2 visit_time_per_poi : Z) (fuel : nat) (st st1 st2 : plan_state) :
  (d1 <= d2)%Z ->
  route_loop fuel candidate_pois d1 visit_time_per_poi st = Ok st1 ->
  route_loop fuel candidate_pois d2 visit_time_per_poi st = Ok st2 ->
  st_route st1 `prefix_of` st_route st2.
Proof.
  intros Hle%IZR_le. revert st.
  induction fuel as [| fuel IH]; intros st; cbn [route_loop];
    [discriminate |].
  destruct (find_nearest _ _ _) as [[[p d] |] | e |]; cbn [bind];
    try discriminate; [| now intros [= <-] [= <-]].
  unfold Rgtb.
  destruct (Rltb (IZR d1) _) eqn:H1.
  - intros [= <-] H2.
    destruct (Rltb (IZR d2) _) eqn:H2'; [now injection H2 as <- |].
    destruct (commit_stop _ _ _ _ _) as [st' | e |] eqn:Hcommit;
      cbn [bind] in H2; try discriminate.
    apply route_loop_extends in H2. apply commit_stop_route in Hcommit.
    rewrite Hcommit in H2. etransitivity; [| exact H2].
    now apply prefix_app_r.
  - apply Rltb_false in H1.
    rewrite (proj2 (Rltb_false (IZR d2) _)) by lra.
    destruct (commit_stop _ _ _ _ _) as [st' | e |]; cbn [bind];
      try discriminate.
    apply IH.
Qed.

(** X14. A larger budget only extends the route: for budgets [d1 <= d2] the
    route planned for [d1] is a prefix of the route planned for [d2]. *)
Theorem plan_route_budget_monotone (start_coords : coord)
    (candidate_pois : list poi) (d1 d2 visit_time_per_poi : Z)
    (return_to_start : bool) :
  (d1 <= d2)%Z ->
  exists r1 r2,
    plan_route start_coords candidate_pois d1 visit_time_per_poi
      return_to_start = Ok r1 /\
    plan_route start_coords candidate_pois d2 visit_time_per_poi
      return_to_start = Ok r2 /\
    route r1 `prefix_of` route r2 /\
    (pois_visited r1 <= pois_visited r2)%nat.
Proof.
  intros Hle.
  destruct (route_loop_inv candidate_pois d1 visit_time_per_poi
              (fun _ => True)) with (fuel := S (length candidate_pois))
    (st := initial_state start_coords) as (st1 & Hloop1 & _);
    [done | apply plan_route_fuel | done |].
  destruct (route_loop_inv candidate_pois d2 visit_time_per_poi
              (fun _ => True)) with (fuel := S (length candidate_pois))
    (st := initial_state start_coords) as (st2 & Hloop2 & _);
    [done | apply plan_route_fuel | done |].
  pose proof (route_loop_budget_mono _ _ _ _ _ _ _ _ Hle Hloop1 Hloop2)
    as Hprefix.
  eexists _, _.
  split; [exact (plan_route_of_loop _ _ _ _ _ _ Hloop1) |].
  split; [exact (plan_route_of_loop _ _ _ _ _ _ Hloop2) |].
  destruct (close_route_route start_coords d1 visit_time_per_poi
              return_to_start st1) as [-> ->].
  destruct (close_route_route start_coords d2 visit_time_per_poi
              return_to_start st2) as [-> ->].
  split; [exact Hprefix | now apply prefix_length].
Qed.

Lemma plan_route_budget_monotone_witness :
  (30 <= 60)%Z /\
  exists r1 r2,
    plan_route (54.4025, -1.7367) [castle; unlocated; tower] 30 5 false
    = Ok r1 /\
    plan_route (54.4025, -1.7367) [castle; unlocated; tower] 60 5 false
    = Ok r2 /\
    route r1 `prefix_of` route r2 /\
    (pois_visited r1 <= pois_visited r2)%nat.
Proof.
  split; [lia |]. apply plan_route_budget_monotone. lia.
Defined.

Lemma for_each_nearest_located (cur : coord) (vis : gset string)
    (l : list poi) (acc : option (poi * R)) :
  for_each (nearest_step cur vis) acc (located l) =
  for_each (nearest_step cur vis) acc l.
Proof.
  revert acc. unfold located. induction l as [| x l IH]; intros acc;
    [reflexivity |].
  rewrite filter_cons. destruct (decide (missing_coords x = false)) as [Hx | Hx].
  - cbn [for_each]. destruct (nearest_step cur vis acc x); cbn [bind];
      [apply IH | reflexivity | reflexivity].
  - cbn [for_each]. rewrite nearest_step_skip by (intros [_ Hm]; contradiction).
    cbn [bind]. apply IH.
Qed.

Lemma route_loop_located (candidate_pois : list poi)
    (duration_minutes visit_time_per_poi : Z) (fuel : nat) (st : plan_state) :
  route_loop fuel (located candidate_pois) duration_minutes
    visit_time_per_poi st =
  route_loop fuel candidate_pois duration_minutes visit_time_per_poi st.
Proof.
  revert st. induction fuel as [| fuel IH]; intros st; cbn [route_loop];
    [reflexivity |].
  unfold find_nearest. rewrite for_each_nearest_located.
  destruct (for_each _ _ _) as [[[p d] |] | e |]; cbn [bind];
    try reflexivity.
  destruct (Rgtb _ _); [reflexivity |].
  destruct (commit_stop _ _ _ _ _); cbn [bind]; [apply IH | done | done].
Qed.

Lemma route_loop_more_fuel (candidate_pois : list poi)
    (duration_minutes visit_time_per_poi : Z) (fuel fuel' : nat)
    (st st' : plan_state) :
  (fuel <= fuel')%nat ->
  route_loop fuel candidate_pois duration_minutes visit_time_per_poi st
  = Ok st' ->
  route_loop fuel' candidate_pois duration_minutes visit_time_per_poi st
  = Ok st'.
Proof.
  revert fuel' st. induction fuel as [| fuel IH]; intros fuel' st Hle;
    cbn [route_loop]; [discriminate |].
  destruct fuel' as [| fuel']; [lia |]. cbn [route_loop].
  destruct (find_nearest _ _ _) as [[[p d] |] | e |]; cbn [bind];
    try done.
  destruct (Rgtb _ _); [done |].
  destruct (commit_stop _ _ _ _ _); cbn [bind]; try done.
  apply IH. lia.
Qed.

(** X15. Candidates without coordinates are ignored: [plan_route] returns the
    same result with them removed from the candidate list. *)
Theorem plan_route_ignores_unlocated (start_coords : coord)
    (candidate_pois : list poi) (duration_minutes visit_time_per_poi : Z)
    (return_to_start : bool) :
  plan_route start_coords (located candidate_pois) duration_minutes
    visit_time_per_poi return_to_start =
  plan_route start_coords candidate_pois duration_minutes visit_time_per_poi
    return_to_start.
Proof.
  destruct (route_loop_inv (located candidate_pois) duration_minutes
              visit_time_per_poi (fun _ => True))
    with (fuel := S (length (located candidate_pois)))
         (st := initial_state start_coords) as (st & Hloop & _);
    [done | apply plan_route_fuel | done |].
  unfold plan_route. rewrite Hloop.
  apply route_loop_more_fuel with (fuel' := S (length candidate_pois))
    in Hloop; [| pose proof (length_filter
                   (fun p => missing_coords p = false) candidate_pois);
                 unfold located; lia].
  rewrite route_loop_located in Hloop. now rewrite Hloop.
Qed.

(** X16. A single candidate with coordinates that fits the budget gives a route
    of one stop, whose recorded distance is the distance from the start. *)
Theorem plan_route_single_candidate (start_coords : coord) (p : poi)
    (c : coord) (duration_minutes visit_time_per_poi : Z)
    (return_to_start : bool) :
  poi_position p = Ok c ->
  estimate_walking_time (calculate_distance start_coords c)
    + IZR visit_time_per_poi <= IZR duration_minutes ->
  exists res,
    plan_route start_coords [p] duration_minutes visit_time_per_poi
      return_to_start = Ok res /\
    route res =
      [mk_stop p (calculate_distance start_coords c)
         (estimate_walking_time (calculate_distance start_coords c))] /\
    pois_visited res = 1%nat.
Proof.
  intros Hc Hfit.
  assert (Hel : eligible ∅ p).
  { split; [set_solver | now apply poi_position_missing in Hc]. }
  assert (Hloop :
    route_loop 2 [p] duration_minutes visit_time_per_poi
      (initial_state start_coords) =
    Ok (advance visit_time_per_poi (initial_state start_coords) p
          (calculate_distance start_coords c) c)).
  { cbn [route_loop initial_state st_current_position st_visited_ids
         st_time_used].
    unfold find_nearest at 1. cbn [for_each].
    rewrite (nearest_step_take start_coords ∅ None p c Hel Hc). cbn [bind].
    unfold Rgtb. rewrite (proj2 (Rltb_false _ _)) by lra.
    rewrite (commit_stop_advance visit_time_per_poi _ p _ c Hc).
    cbn [bind advance initial_state st_current_position st_visited_ids].
    unfold find_nearest. cbn [for_each].
    rewrite nearest_step_skip by (intros [Hn _]; set_solver).
    reflexivity. }
  eexists. split; [exact (plan_route_of_loop _ _ _ _ _ _ Hloop) |].
  destruct (close_route_route start_coords duration_minutes
              visit_time_per_poi return_to_start
              (advance visit_time_per_poi (initial_state start_coords) p
                 (calculate_distance start_coords c) c)) as [-> ->].
  split; reflexivity.
Qed.

Lemma plan_route_single_candidate_witness :
  exists res,
    plan_route (0, 180) [far_poi] 10 5 false = Ok res /\
    route res =
      [mk_stop far_poi (calculate_distance (0, 180) (0, 180))
         (estimate_walking_time (calculate_distance (0, 180) (0, 180)))] /\
    pois_visited res = 1%nat.
Proof.
  apply (plan_route_single_candidate (0, 180) far_poi (0, 180) 10 5 false).
  - reflexivity.
  - rewrite calculate_distance_self.
    unfold estimate_walking_time, WALKING_SPEED_KMH. lra.
Defined.

(** ** Saving a route *)

Lemma nearest_step_routable (candidate_pois : list Raw.poi)
    (cur : Raw.position) (vis : gset string) (acc acc' : option (Raw.poi * R))
    (p : Raw.poi) :
  p ∈ candidate_pois ->
  (forall q d, acc = Some (q, d) -> routable candidate_pois q) ->
  Raw.nearest_step cur vis acc p = Ok acc' ->
  forall q d, acc' = Some (q, d) -> routable candidate_pois q.
Proof.
  intros Hp Hacc. unfold Raw.nearest_step.
  destruct (Raw.id p) as [i |] eqn:Hid; cbn [getitem bind]; [| discriminate].
  destruct (bool_decide _); [now intros [= <-] |].
  destruct (Raw.missing_coords p) eqn:Hm; [now intros [= <-] |].
  destruct (Raw.poi_position p) as [c | e |]; cbn [bind]; try discriminate.
  destruct (Raw.calculate_distance cur c) as [d0 | e |]; cbn [bind];
    try discriminate.
  assert (Hnew : forall q d, Some (p, d0) = Some (q, d) ->
                             routable candidate_pois q).
  { intros q d [= <- _]. unfold routable. now rewrite Hid. }
  destruct acc as [[q0 d1] |]; [destruct (Rltb _ _) |]; now intros [= <-].
Qed.

Lemma find_nearest_routable (candidate_pois : list Raw.poi)
    (cur : Raw.position) (vis : gset string) (l : list Raw.poi)
    (acc acc' : option (Raw.poi * R)) :
  (forall x, x ∈ l -> x ∈ candidate_pois) ->
  (forall q d, acc = Some (q, d) -> routable candidate_pois q) ->
  for_each (Raw.nearest_step cur vis) acc l = Ok acc' ->
  forall q d, acc' = Some (q, d) -> routable candidate_pois q.
Proof.
  revert acc. induction l as [| x l IH]; intros acc Hl Hacc.
  - now intros [= <-].
  - cbn [for_each].
    destruct (Raw.nearest_step cur vis acc x) as [acc1 | e |] eqn:Hstep;
      cbn [bind]; try discriminate.
    apply IH; [intros y Hy; apply Hl; set_solver |].
    eapply nearest_step_routable; [| exact Hacc | exact Hstep].
    apply Hl. set_solver.
Qed.

Lemma commit_stop_route_snoc (st st' : Raw.plan_state) (p : Raw.poi)
    (d wt t : R) :
  Raw.commit_stop st p d wt t = Ok st' ->
  Raw.st_route st' = Raw.st_route st ++ [Raw.mk_stop p d wt].
Proof.
  unfold Raw.commit_stop.
  destruct (Raw.id p); cbn [getitem bind]; [| discriminate].
  destruct (Raw.poi_position p); cbn [bind]; try discriminate.
  now intros [= <-].
Qed.

Lemma route_loop_routable (fuel : nat) (candidate_pois : list Raw.poi)
    (duration_minutes visit_time_per_poi : Z) (st st' : Raw.plan_state) :
  Raw.route_loop fuel candidate_pois duration_minutes visit_time_per_poi st
  = Ok st' ->
  Forall (fun stop => routable candidate_pois (Raw.stop_poi stop))
    (Raw.st_route st) ->
  Forall (fun stop => routable candidate_pois (Raw.stop_poi stop))
    (Raw.st_route st').
Proof.
  revert st. induction fuel as [| fuel IH]; intros st; [discriminate |].
  cbn [Raw.route_loop]. unfold Raw.find_nearest.
  destruct (for_each _ _ _) as [acc | e |] eqn:Hscan; cbn [bind];
    try discriminate.
  destruct acc as [[q d] |]; [| now intros [= <-]].
  destruct (Rgtb _ _); [now intros [= <-] |].
  destruct (Raw.commit_stop _ _ _ _ _) as [st1 | e |] eqn:Hcommit;
    cbn [bind]; try discriminate.
  intros Hloop Hst. apply (IH st1 Hloop).
  rewrite (commit_stop_route_snoc _ _ _ _ _ _ Hcommit).
  apply Forall_app. split; [exact Hst |]. apply Forall_singleton. cbn.
  eapply find_nearest_routable; [| | exact Hscan | reflexivity];
    [auto | discriminate].
Qed.

Lemma close_route_keeps_route (start_coords : coord) (d v : Z) (r : bool)
    (st : Raw.plan_state) (res : Raw.route_result) :
  Raw.close_route start_coords d v r st = Ok res ->
  Raw.route res = Raw.st_route st /\
  Raw.pois_visited res = length (Raw.st_route st).
Proof.
  unfold Raw.close_route.
  destruct (Raw.return_leg _ _ _ _) as [[[[rd rt] td] tu] | e |]; cbn [bind];
    try discriminate.
  now intros [= <-].
Qed.

Lemma plan_route_routable (start_coords : coord)
    (candidate_pois : list Raw.poi) (duration_minutes visit_time_per_poi : Z)
    (return_to_start : bool) (res : Raw.route_result) :
  Raw.plan_route start_coords candidate_pois duration_minutes
    visit_time_per_poi return_to_start = Ok res ->
  Forall (fun stop => routable candidate_pois (Raw.stop_poi stop))
    (Raw.route res) /\
  Raw.pois_visited res = length (Raw.route res).
Proof.
  unfold Raw.plan_route.
  destruct (Raw.route_loop _ _ _ _ _) as [st | e |] eqn:Hloop; cbn [bind];
    try discriminate.
  intros Hclose.
  destruct (close_route_keeps_route _ _ _ _ _ _ Hclose) as [Hroute Hlen].
  rewrite Hroute, Hlen. split; [| reflexivity].
  apply (route_loop_routable _ _ _ _ _ _ Hloop). constructor.
Qed.

Lemma for_each_save_stop (candidate_pois : list Raw.poi)
    (r : list Raw.route_stop) (acc : list Raw.saved_stop) :
  Forall (fun stop => routable candidate_pois (Raw.stop_poi stop)) r ->
  if stops_named r
  then exists out,
         for_each Raw.save_stop acc r = Ok (acc ++ out) /\
         Forall2 saved_as r out
  else for_each Raw.save_stop acc r = Raise (KeyError "name").
Proof.
  revert acc. induction r as [| stop r IH]; intros acc Hr.
  - exists []. cbn. now rewrite app_nil_r.
  - apply Forall_cons in Hr as [(_ & Hid & Hm) Hr].
    cbn [stops_named forallb for_each]. unfold Raw.save_stop at 1 3.
    unfold Raw.missing_coords in Hm.
    destruct (Raw.id (Raw.stop_poi stop)) as [i |] eqn:Hi; [| discriminate].
    destruct (Raw.geo (Raw.stop_poi stop)) as [g |] eqn:Hg; [| discriminate].
    destruct (Raw.name (Raw.stop_poi stop)) as [n |] eqn:Hn;
      cbn [getitem bind contains andb]; [| reflexivity].
    specialize (IH (acc ++
      [Raw.mk_saved_stop i n g (Raw.distance_from_previous_km stop)
         (Raw.stop_walking_time_minutes stop)]) Hr).
    fold (stops_named r). destruct (stops_named r).
    + destruct IH as (out & -> & Hout). eexists (_ :: out).
      rewrite <- app_assoc. split; [reflexivity |].
      constructor; [| exact Hout]. unfold saved_as. cbn. now rewrite Hi, Hn, Hg.
    + exact IH.
Qed.

(** X17. [save_route] on a result of [plan_route]: when every stop of the
    route has a ['name'], the dict handed to [json.dump] carries the time
    stamp, the totals of the result, and one entry for each stop, in order,
    with the id, name and coordinates of its POI and its leg; when some stop
    has no ['name'], [save_route] raises [KeyError] for ['name']. *)
Theorem save_route_of_plan_route (now : string) (start_coords : coord)
    (candidate_pois : list Raw.poi) (duration_minutes visit_time_per_poi : Z)
    (return_to_start : bool) (res : Raw.route_result) :
  Raw.plan_route start_coords candidate_pois duration_minutes
    visit_time_per_poi return_to_start = Ok res ->
  if stops_named (Raw.route res)
  then exists out,
         Raw.save_route now res = Ok out /\
         Raw.generated_at out = now /\
         Forall2 saved_as (Raw.route res) (Raw.saved_stops out) /\
         Raw.saved_pois_visited out = length (Raw.saved_stops out) /\
         Raw.saved_total_distance_km out = Raw.total_distance_km res /\
         Raw.saved_total_time_minutes out = Raw.total_time_minutes res /\
         Raw.saved_walking_time_total out = Raw.walking_time_minutes res /\
         Raw.saved_visit_time_minutes out = Raw.visit_time_minutes res /\
         Raw.saved_time_remaining out = Raw.time_remaining res /\
         Raw.saved_start_coords out = Raw.start_coords res /\
         Raw.saved_return_to_start out = Raw.return_to_start res
  else Raw.save_route now res = Raise (KeyError "name").
Proof.
  intros Hplan.
  destruct (plan_route_routable _ _ _ _ _ _ Hplan) as [Hstops Hlen].
  pose proof (for_each_save_stop candidate_pois (Raw.route res) [] Hstops)
    as Hsave.
  unfold Raw.save_route. destruct (stops_named (Raw.route res)).
  - destruct Hsave as (out & -> & Hout). cbn [app bind].
    eexists. split; [reflexivity |]. cbn.
    split_and!; try reflexivity; [exact Hout |].
    rewrite Hlen. exact (Forall2_length _ _ _ Hout).
  - now rewrite Hsave.
Qed.

Lemma save_route_of_plan_route_witness :
  exists res out,
    Raw.plan_route (0, 0) [raw_far_poi] 305808 0 true = Ok res /\
    length (Raw.route res) = 1%nat /\
    Raw.save_route "2024-01-01T12:00:00" res = Ok out /\
    Forall2 saved_as (Raw.route res) (Raw.saved_stops out) /\
    Raw.saved_pois_visited out = 1%nat.
Proof.
  destruct (plan_route_typed (0, 0) [raw_far_poi] 305808 0 true eq_refl)
    as (res & Hraw & Htyped).
  change (typed_of <$> [raw_far_poi]) with [far_poi] in Htyped.
  rewrite far_run in Htyped. injection Htyped as Htyped.
  apply (f_equal (fun r => length (route r))) in Htyped.
  rewrite (proj1 (close_route_route _ _ _ _ _)) in Htyped.
  cbn in Htyped. rewrite length_fmap in Htyped.
  destruct (plan_route_routable _ _ _ _ _ _ Hraw) as [Hstops _].
  pose proof (save_route_of_plan_route "2024-01-01T12:00:00" (0, 0)
                [raw_far_poi] 305808 0 true res Hraw) as Hsave.
  destruct (Raw.route res) as [| stop [| stop' r]] eqn:Hroute;
    try discriminate.
  apply Forall_singleton in Hstops as [Hin _].
  apply list_elem_of_singleton in Hin.
  unfold stops_named in Hsave. cbn [forallb] in Hsave. rewrite Hin in Hsave.
  cbn [raw_far_poi Raw.name contains andb] in Hsave.
  destruct Hsave as (out & Hout & _ & Hsaved & Hvisited & _).
  exists res, out. rewrite Hroute. split; [exact Hraw |].
  split; [reflexivity |]. split; [exact Hout |]. split; [exact Hsaved |].
  rewrite Hvisited. symmetry. exact (Forall2_length _ _ _ Hsaved).
Defined.

(** ** Ranking and the first pick of the preference planner *)

Lemma sort_by_score_desc_head (scored : list scored_poi) (h : scored_poi)
    (rest : list scored_poi) :
  sort_by_score_desc scored = h :: rest ->
  exists l1 l2,
    scored = l1 ++ h :: l2 /\
    (forall x, x ∈ l1 -> score x < score h) /\
    (forall x, x ∈ l2 -> score x <= score h).
Proof.
  revert h rest. induction scored as [| x l IH]; intros h rest;
    cbn [sort_by_score_desc foldr]; [discriminate |].
  fold (sort_by_score_desc l).
  destruct (sort_by_score_desc l) as [| h' rest'] eqn:Hsort.
  - assert (l = []) as ->.
    { apply Permutation_nil_r. rewrite <- Hsort.
      symmetry. apply sort_by_score_desc_perm. }
    cbn [insert_desc]. intros [= <- <-]. exists [], [].
    split_and!; [reflexivity | |]; intros y Hy; now apply elem_of_nil in Hy.
  - destruct (IH h' rest' eq_refl) as (l1 & l2 & -> & Hfront & Hback).
    cbn [insert_desc]. destruct (Rltb (score x) (score h')) eqn:Hcmp.
    + apply Rltb_true in Hcmp. intros [= <- <-].
      exists (x :: l1), l2. split_and!; [reflexivity | | exact Hback].
      intros y [-> | Hy]%elem_of_cons; [exact Hcmp | now apply Hfront].
    + apply Rltb_false in Hcmp. intros [= <- <-].
      exists [], (l1 ++ h' :: l2). split_and!; [reflexivity | |].
      * intros y Hy. now apply elem_of_nil in Hy.
      * intros y [Hy | [-> | Hy]%elem_of_cons]%elem_of_app.
        -- apply Hfront in Hy. lra.
        -- exact Hcmp.
        -- apply Hback in Hy. lra.
Qed.

Lemma filter_middle_inv {A : Type} (P : A -> Prop)
    `{!forall x, Decision (P x)} (l c1 c2 : list A) (p : A) :
  filter P l = c1 ++ p :: c2 ->
  exists l1 l2, l = l1 ++ p :: l2 /\ filter P l1 = c1 /\ filter P l2 = c2.
Proof.
  revert c1. induction l as [| x l IH]; intros c1 Hf.
  - now destruct c1.
  - rewrite filter_cons in Hf. destruct (decide (P x)) as [Hx | Hx].
    + destruct c1 as [| y c1]; cbn in Hf; injection Hf as -> Hf.
      * exists [], l. split_and!; [reflexivity | reflexivity | exact Hf].
      * destruct (IH c1 Hf) as (l1 & l2 & -> & <- & <-).
        exists (y :: l1), l2. split_and!; try reflexivity.
        now rewrite filter_cons_True.
    + destruct (IH c1 Hf) as (l1 & l2 & -> & <- & <-).
      exists (x :: l1), l2. split_and!; try reflexivity.
      now rewrite filter_cons_False.
Qed.

Lemma best_first_unique (ints : list string) (w : option weights)
    (cur : coord) (vis : gset string) (l : list poi) (p p' : poi)
    (s s' d d' : R) :
  best_first ints w cur vis l p s d ->
  best_first ints w cur vis l p' s' d' ->
  p = p' /\ s = s' /\ d = d'.
Proof.
  intros (l1 & l2 & sc & Hl & Hel & Hsc & -> & -> & Hfront & Hback)
         (k1 & k2 & sc' & Hk & Hel' & Hsc' & -> & -> & Hfront' & Hback').
  assert (Hp : l !! length l1 = Some p)
    by (rewrite Hl; now apply list_lookup_middle).
  assert (Hp' : l !! length k1 = Some p')
    by (rewrite Hk; now apply list_lookup_middle).
  destruct (lt_eq_lt_dec (length l1) (length k1)) as [[Hlt | Heq] | Hgt].
  - exfalso.
    assert (Hin : p ∈ k1).
    { rewrite Hk, lookup_app_l in Hp by exact Hlt.
      eapply list_elem_of_lookup_2, Hp. }
    assert (Hin' : p' ∈ l2).
    { rewrite Hl, lookup_app_r in Hp' by lia.
      destruct (length k1 - length l1)%nat as [| j] eqn:Hj; [lia |].
      eapply list_elem_of_lookup_2, Hp'. }
    pose proof (Hfront' p sc Hin Hel Hsc).
    pose proof (Hback p' sc' Hin' Hel' Hsc'). lra.
  - rewrite Heq, Hp' in Hp. injection Hp as ->.
    rewrite Hsc in Hsc'. injection Hsc' as ->. done.
  - exfalso.
    assert (Hin : p' ∈ l1).
    { rewrite Hl, lookup_app_l in Hp' by exact Hgt.
      eapply list_elem_of_lookup_2, Hp'. }
    assert (Hin' : p ∈ k2).
    { rewrite Hk, lookup_app_r in Hp by lia.
      destruct (length l1 - length k1)%nat as [| j] eqn:Hj; [lia |].
      eapply list_elem_of_lookup_2, Hp. }
    pose proof (Hfront p' sc' Hin Hel' Hsc').
    pose proof (Hback' p sc Hin' Hel Hsc). lra.
Qed.

Lemma scored_lookup (ints : list string) (w : option weights) (cur : coord)
    (cs : list poi) (ss : list scored_poi) (q : poi) (sq : scored_poi) :
  Forall2 (fun p s => score_poi p ints cur w = Ok s) cs ss ->
  q ∈ cs -> score_poi q ints cur w = Ok sq -> sq ∈ ss.
Proof.
  intros Hall Hq Hsq. apply list_elem_of_lookup_1 in Hq as [i Hi].
  destruct (Forall2_lookup_l _ _ _ _ _ Hall Hi) as (s & Hs & Hqs).
  rewrite Hsq in Hqs. injection Hqs as ->.
  eapply list_elem_of_lookup_2, Hs.
Qed.

(** X18. Ranking and planning agree on the favourite: when no candidate has a
    latitude without a longitude, the first entry of [rank_pois] from a
    position is the candidate that the first scan of
    [plan_route_with_preferences] selects from that position, with the same
    score and distance. *)
Theorem rank_pois_head_is_first_pick (candidate_pois : list poi)
    (user_profile : string) (current_position : coord) (w : option weights)
    (h : scored_poi) (rest : list scored_poi) :
  forallb lng_where_lat candidate_pois = true ->
  rank_pois candidate_pois user_profile current_position w None
  = Ok (h :: rest) ->
  exists ints,
    lookup_interests USER_PROFILES user_profile = Ok ints /\
    find_best score_poi ints w current_position ∅ candidate_pois =
    Ok (Some (scored_of h, score h, distance_km (components h))).
Proof.
  intros Hall Hrank.
  destruct (rank_pois_spec candidate_pois user_profile current_position w
              None Hall)
    as (ints & scored & full & ranked & Hints & Hsc & -> & Hrun & ->).
  rewrite Hrun in Hrank. injection Hrank as Hsort.
  exists ints. split; [exact Hints |].
  destruct (sort_by_score_desc_head scored h rest Hsort)
    as (s1 & s2 & -> & Hfront & Hback).
  apply Forall2_app_inv_r in Hsc as (c1 & c2' & Hc1 & Hc2 & Hcs).
  inversion Hc2 as [| p h0 c2 s0 Hp Hc2' Heq1 Heq2]; subst.
  destruct (filter_middle_inv _ _ _ _ _ Hcs) as (l1 & l2 & -> & Hf1 & Hf2).
  assert (Hloc : forall q, q ∈ l1 ++ p :: l2 ->
                 eligible ∅ q -> rank_skips q = false).
  { intros q Hq [_ Hm]. unfold missing_coords, rank_skips in *.
    destruct (geo q) as [g |]; [| discriminate].
    now destruct (lat g). }
  assert (Hloc' : forall q, q ∈ l1 ++ p :: l2 ->
                  rank_skips q = false -> eligible ∅ q).
  { intros q Hq Hskip. split; [set_solver |].
    rewrite forallb_forall in Hall.
    specialize (Hall q (proj1 (list_elem_of_In _ _) Hq)).
    unfold lng_where_lat in Hall. rewrite Hskip in Hall.
    now apply negb_true_iff in Hall. }
  assert (Hp_in : p ∈ filter (fun p => rank_skips p = false) (l1 ++ p :: l2)).
  { unfold ranked_candidates in Hcs. rewrite Hcs. set_solver. }
  apply list_elem_of_filter in Hp_in as [Hp_skip Hp_mem].
  assert (Hbf : best_first ints w current_position ∅ (l1 ++ p :: l2)
                  p (score h) (distance_km (components h))).
  { exists l1, l2, h. split_and!; try done.
    - now apply Hloc'.
    - intros q sq Hq Hel Hsq. apply Hfront.
      eapply scored_lookup; [exact Hc1 | | exact Hsq].
      rewrite <- Hf1. apply list_elem_of_filter. split; [| exact Hq].
      apply Hloc; [set_solver | exact Hel].
    - intros q sq Hq Hel Hsq. apply Hback.
      eapply scored_lookup; [exact Hc2' | | exact Hsq].
      rewrite <- Hf2. apply list_elem_of_filter. split; [| exact Hq].
      apply Hloc; [set_solver | exact Hel]. }
  assert (Hscored : scored_of h = p).
  { destruct (poi_position_ok p (proj2 (Hloc' p Hp_mem Hp_skip))) as [c Hc].
    destruct (score_poi_ok p ints current_position w c Hc)
      as (s' & Hs' & Hof & _).
    rewrite Hp in Hs'. now injection Hs' as ->. }
  destruct (find_best_first ints w current_position ∅ (l1 ++ p :: l2))
    as [[_ Hnone] | (p' & s' & d' & Hfind & Hbf')].
  - exfalso. apply (Hnone p Hp_mem). now apply Hloc'.
  - destruct (best_first_unique _ _ _ _ _ _ _ _ _ _ _ Hbf Hbf')
      as (<- & <- & <-).
    now rewrite Hscored.
Qed.

(** Two candidates that differ in position only: ranked from the market
    place, the market place comes first although the obelisk is listed
    first. *)
Lemma market_before_obelisk (ints : list string) :
  exists so sm,
    score_poi obelisk ints (54.40, -1.73) None = Ok so /\
    score_poi market ints (54.40, -1.73) None = Ok sm /\
    scored_of sm = market /\
    score so < score sm.
Proof.
  eexists _, _. split; [reflexivity |]. split; [reflexivity |].
  split; [reflexivity |].
  cbn [score].
  replace (calculate_interest_match obelisk ints)
    with (calculate_interest_match market ints) by reflexivity.
  replace (calculate_popularity_score obelisk)
    with (calculate_popularity_score market) by reflexivity.
  rewrite calculate_distance_self, meridian_distance by lra.
  assert (Hd : 0 < EARTH_RADIUS_KM * Rabs (radians (54.41 - 54.40))).
  { unfold EARTH_RADIUS_KM, radians. pose proof PI_RGT_0.
    rewrite Rabs_pos_eq by lra. lra. }
  unfold calculate_distance_penalty, DEFAULT_WEIGHTS, Rmin. cbn [delta].
  repeat destruct (Rle_dec _ _); lra.
Qed.

Lemma rank_pois_head_is_first_pick_witness :
  forallb lng_where_lat [obelisk; market] = true /\
  exists h rest ints,
    rank_pois [obelisk; market] "history_lover" (54.40, -1.73) None None
    = Ok (h :: rest) /\
    scored_of h = market /\
    length rest = 1%nat /\
    lookup_interests USER_PROFILES "history_lover" = Ok ints /\
    find_best score_poi ints None (54.40, -1.73) ∅ [obelisk; market] =
    Ok (Some (scored_of h, score h, distance_km (components h))).
Proof.
  split; [reflexivity |].
  destruct (lookup_interests_registry "history_lover") as [ints Hints].
  destruct (market_before_obelisk ints) as (so & sm & Hso & Hsm & Hof & Hlt).
  assert (Hrank :
    rank_pois [obelisk; market] "history_lover" (54.40, -1.73) None None
    = Ok [sm; so]).
  { unfold rank_pois. rewrite Hints. cbn [bind for_each].
    unfold rank_step at 1. cbn [rank_skips obelisk geo lat contains negb].
    rewrite Hso. cbn [bind app for_each].
    unfold rank_step at 1. cbn [rank_skips market geo lat contains negb].
    rewrite Hsm. cbn [bind app for_each sort_by_score_desc foldr insert_desc].
    apply Rltb_true in Hlt. now rewrite Hlt. }
  exists sm, [so].
  destruct (rank_pois_head_is_first_pick [obelisk; market] "history_lover"
              (54.40, -1.73) None sm [so] eq_refl Hrank)
    as (ints' & Hints' & Hfind).
  exists ints'. split_and!; [exact Hrank | exact Hof | reflexivity
                            | exact Hints' | exact Hfind].
Defined.

(** ** Candidates close to each other *)

Lemma located_coords_of (candidate_pois : list poi) (p : poi) (c : coord) :
  p ∈ candidate_pois -> poi_position p = Ok c ->
  c ∈ located_coords candidate_pois.
Proof.
  intros Hp Hc. unfold located_coords. apply list_elem_of_omap.
  exists p. split; [exact Hp | now rewrite Hc].
Qed.

Lemma market_obelisk_within_radius :
  within_radius 2 (54.40, -1.73) [market; unlocated; obelisk].
Proof.
  assert (Hleg : calculate_distance (54.40, -1.73) (54.41, -1.73) <= 2).
  { rewrite meridian_distance by lra.
    unfold EARTH_RADIUS_KM, radians. pose proof PI_4. pose proof PI_RGT_0.
    rewrite Rabs_pos_eq by lra. lra. }
  intros a b Ha Hb. cbn in Ha, Hb.
  assert (Hb' : b = (54.40, -1.73) \/ b = (54.41, -1.73)) by set_solver.
  assert (Ha' : a = (54.40, -1.73) \/ a = (54.41, -1.73)) by set_solver.
  destruct Ha' as [-> | ->], Hb' as [-> | ->];
    rewrite ?calculate_distance_self; try lra.
  rewrite calculate_distance_sym. exact Hleg.
Qed.

(** ** An ample budget visits every candidate *)

Lemma estimate_walking_time_mono (d1 d2 : R) :
  d1 <= d2 -> estimate_walking_time d1 <= estimate_walking_time d2.
Proof. unfold estimate_walking_time, WALKING_SPEED_KMH. lra. Qed.

Lemma walk_reachable_time_bound (radius : R) (start_coords : coord)
    (candidate_pois : list poi) (visit_time_per_poi : Z) (st : plan_state) :
  within_radius radius start_coords candidate_pois ->
  walk_reachable start_coords candidate_pois visit_time_per_poi st ->
  st_current_position st ∈ start_coords :: located_coords candidate_pois /\
  st_time_used st <=
    INR (length (st_route st))
    * (estimate_walking_time radius + IZR visit_time_per_poi).
Proof.
  intros Hnear. induction 1 as [| st p c _ [Hpos Htime] Hin Hel Hc].
  - split; [set_solver | simpl; lra].
  - pose proof (located_coords_of _ _ _ Hin Hc) as Hcin.
    split; [cbn; set_solver |].
    cbn [advance st_time_used st_route]. rewrite length_app, plus_INR.
    pose proof (estimate_walking_time_mono _ _ (Hnear _ _ Hpos Hcin)).
    cbn [length INR]. lra.
Qed.

Lemma located_eligible (candidate_pois : list poi) (p : poi) :
  p ∈ located candidate_pois <->
  p ∈ candidate_pois /\ missing_coords p = false.
Proof. unfold located. rewrite list_elem_of_filter. tauto. Qed.

(** X21. With the start and all candidates within [radius] km of each other,
    ids that identify the located candidates, and a budget of at least the
    walking time of [radius] plus the visit time for each of them,
    [plan_route] visits every candidate that has coordinates, each once. *)
Theorem plan_route_visits_all_within_radius (radius : R)
    (start_coords : coord) (candidate_pois : list poi)
    (duration_minutes visit_time_per_poi : Z) (return_to_start : bool) :
  within_radius radius start_coords candidate_pois ->
  NoDup (id <$> located candidate_pois) ->
  0 <= estimate_walking_time radius + IZR visit_time_per_poi ->
  INR (length (located candidate_pois))
    * (estimate_walking_time radius + IZR visit_time_per_poi)
  <= IZR duration_minutes ->
  exists res,
    plan_route start_coords candidate_pois duration_minutes
      visit_time_per_poi return_to_start = Ok res /\
    stop_ids (route res) ≡ₚ id <$> located candidate_pois /\
    pois_visited res = length (located candidate_pois).
Proof.
  intros Hnear Hids Hstep Hbudget.
  destruct (plan_route_final_state start_coords candidate_pois
              duration_minutes visit_time_per_poi return_to_start)
    as (st & Hrun & Hreach & Hstop).
  apply greedy_reachable_walk in Hreach.
  destruct (walk_reachable_stops _ _ _ _ Hreach) as (Hvis & Hnd & Hall).
  destruct (walk_reachable_time_bound radius _ _ _ _ Hnear Hreach)
    as (Hpos & Htime).
  assert (Hsub : forall x, x ∈ stop_ids (st_route st) ->
                           x ∈ id <$> located candidate_pois).
  { intros x (stop & -> & Hstop_in)%list_elem_of_fmap.
    apply list_elem_of_fmap_2.
    apply located_eligible. rewrite Forall_forall in Hall.
    exact (Hall stop Hstop_in). }
  assert (Hsuper : forall x, x ∈ id <$> located candidate_pois ->
                             x ∈ stop_ids (st_route st)).
  { destruct Hstop as [Hnone | (p & d & Hnf & Hover)].
    - intros x (q & -> & Hq)%list_elem_of_fmap.
      apply located_eligible in Hq as [Hq Hloc].
      destruct (decide (id q ∈ st_visited_ids st)) as [Hin | Hout].
      + rewrite Hvis in Hin. now apply elem_of_list_to_set in Hin.
      + exfalso. apply (Hnone q Hq). now split.
    - exfalso.
      destruct (nearest_first_elem _ _ _ _ _ Hnf) as (Hin & [Hnew Hloc] & _).
      destruct Hnf as (_ & _ & c & _ & _ & Hc & -> & _).
      pose proof (Hnear _ _ Hpos (located_coords_of _ _ _ Hin Hc)) as Hleg.
      apply estimate_walking_time_mono in Hleg.
      assert (Hmore : (S (length (st_route st))
                       <= length (located candidate_pois))%nat).
      { rewrite <- (length_fmap id (located candidate_pois)).
        replace (S (length (st_route st)))
          with (length (id p :: stop_ids (st_route st)))
          by (unfold stop_ids; cbn; now rewrite length_fmap).
        apply submseteq_length, NoDup_submseteq.
        - constructor; [| exact Hnd].
          intros Hdup. apply Hnew. rewrite Hvis.
          now apply elem_of_list_to_set.
        - intros x [-> | Hx]%elem_of_cons; [| now apply Hsub].
          apply list_elem_of_fmap_2. now apply located_eligible. }
      apply le_INR in Hmore. rewrite S_INR in Hmore.
      unfold time_after in Hover.
      remember (estimate_walking_time radius + IZR visit_time_per_poi)
        as m eqn:Hm.
      assert (Hall_fit : (INR (length (st_route st)) + 1) * m
                         <= INR (length (located candidate_pois)) * m)
        by (apply Rmult_le_compat_r; lra).
      rewrite Rmult_plus_distr_r, Rmult_1_l in Hall_fit. lra. }
  assert (Hperm : stop_ids (st_route st) ≡ₚ id <$> located candidate_pois).
  { apply NoDup_Permutation; try done. intros x. split; auto. }
  eexists. split; [exact Hrun |].
  destruct (close_route_route start_coords duration_minutes
              visit_time_per_poi return_to_start st) as [-> ->].
  split; [exact Hperm |].
  apply Permutation_length in Hperm. unfold stop_ids in Hperm.
  now rewrite !length_fmap in Hperm.
Qed.

Lemma plan_route_visits_all_within_radius_witness :
  exists res,
    plan_route (54.40, -1.73) [market; unlocated; obelisk] 60 5 false
    = Ok res /\
    stop_ids (route res) ≡ₚ id <$> located [market; unlocated; obelisk] /\
    pois_visited res = length (located [market; unlocated; obelisk]).
Proof.
  apply (plan_route_visits_all_within_radius 2 (54.40, -1.73)
           [market; unlocated; obelisk] 60 5 false).
  - exact market_obelisk_within_radius.
  - cbn. apply NoDup_cons. split; [set_solver | apply NoDup_singleton].
  - unfold estimate_walking_time, WALKING_SPEED_KMH. lra.
  - replace (length (located [market; unlocated; obelisk])) with 2%nat
      by reflexivity.
    cbn [INR]. unfold estimate_walking_time, WALKING_SPEED_KMH. lra.
Defined.
